(** * The per-query resolution engine of the recursive resolver

    A shallow embedding of [RunningQuery] and of the two
    [RecursiveQuery::resolve] entry points of
    [asiolink/recursive_query.cc], followed by the properties the
    specification states about them.

    The embedding keeps the shape of the C++ code: one record for the member
    variables of [RunningQuery], one function per member function, and an
    event type for the handlers the io service may run (timer handlers, the
    NSAS callback, the completion of an [IOFetch]).  Calls that leave the
    object (cache, NSAS, fetcher, the caller's callback) are appended to a
    trace, in program order. *)

From Stdlib Require Import ZArith NArith List String Bool Lia.
Import ListNotations.

Local Open Scope string_scope.
Local Open Scope list_scope.
Local Open Scope N_scope.

(** ** DNS data, as far as the engine looks at it *)

Module Dns.

Definition Name := string.
Definition RRClass := N.
Definition RRType := N.

Definition RRType_A : RRType := 1.
Definition RRType_NS : RRType := 2.
Definition RRType_CNAME : RRType := 5.
Definition RRClass_IN : RRClass := 1.

Definition Opcode_QUERY : N := 0.
Definition Rcode_NOERROR : N := 0.
Definition Rcode_SERVFAIL : N := 2.
Definition Rcode_NXDOMAIN : N := 3.

Record Question := mkQuestion
  { q_name : Name; q_class : RRClass; q_type : RRType }.

Record RRset := mkRRset
  { rrs_name : Name; rrs_class : RRClass; rrs_type : RRType;
    rrs_rdata : list string }.

Record Message := mkMessage
  { m_opcode : N;
    m_rcode : N;
    m_question : list Question;
    m_answer : list RRset;
    m_authority : list RRset;
    m_additional : list RRset }.

Inductive Section_ := SECTION_ANSWER | SECTION_AUTHORITY | SECTION_ADDITIONAL.

(** [Message(Message::RENDER)]: nothing set, all sections empty. *)
Definition new_message : Message := mkMessage 0 0 [] [] [] [].

Definition setOpcode (o : N) (m : Message) : Message :=
  mkMessage o (m_rcode m) (m_question m) (m_answer m) (m_authority m)
            (m_additional m).

Definition setRcode (r : N) (m : Message) : Message :=
  mkMessage (m_opcode m) r (m_question m) (m_answer m) (m_authority m)
            (m_additional m).

Definition addQuestion (q : Question) (m : Message) : Message :=
  mkMessage (m_opcode m) (m_rcode m) (m_question m ++ [q]) (m_answer m)
            (m_authority m) (m_additional m).

Definition getSection (s : Section_) (m : Message) : list RRset :=
  match s with
  | SECTION_ANSWER => m_answer m
  | SECTION_AUTHORITY => m_authority m
  | SECTION_ADDITIONAL => m_additional m
  end.

Definition setSection (s : Section_) (l : list RRset) (m : Message) : Message :=
  match s with
  | SECTION_ANSWER =>
      mkMessage (m_opcode m) (m_rcode m) (m_question m) l (m_authority m)
                (m_additional m)
  | SECTION_AUTHORITY =>
      mkMessage (m_opcode m) (m_rcode m) (m_question m) (m_answer m) l
                (m_additional m)
  | SECTION_ADDITIONAL =>
      mkMessage (m_opcode m) (m_rcode m) (m_question m) (m_answer m)
                (m_authority m) l
  end.

Definition addRRset (s : Section_) (r : RRset) (m : Message) : Message :=
  setSection s (getSection s m ++ [r]) m.

(** [target->appendSection(s, source)] *)
Definition appendSection (s : Section_) (source target : Message) : Message :=
  setSection s (getSection s target ++ getSection s source) target.

(** [getRRCount(s)]: the number of resource records, not of RRsets. *)
Definition getRRCount (s : Section_) (m : Message) : N :=
  fold_right (fun r n => N.of_nat (List.length (rrs_rdata r)) + n) 0
             (getSection s m).

End Dns.
Import Dns.

(** ** Helpers of lib/resolve *)

Module Resolve.

(** Modelled from the spec: [RESOLVER_MAX_CNAME_CHAIN] is defined in
    lib/resolve/response_classifier.h, which is not among the sources; the
    spec gives its value. *)
Definition RESOLVER_MAX_CNAME_CHAIN : N := 16.

(** Modelled from the spec: [isc::resolve::initResponseMessage] is not among
    the sources; the answer is initialised as a QUERY response containing
    the question. *)
Definition initResponseMessage (q : Question) (m : Message) : Message :=
  addQuestion q (setOpcode Opcode_QUERY m).

(** Modelled from the spec: [isc::resolve::copyResponseMessage] is not among
    the sources; the RCODE of the terminal response is copied and its
    sections are copied into the answer, after what previous CNAME hops
    left there. *)
Definition copyResponseMessage (source target : Message) : Message :=
  appendSection SECTION_ADDITIONAL source
    (appendSection SECTION_AUTHORITY source
       (appendSection SECTION_ANSWER source
          (setRcode (m_rcode source) target))).

(** Modelled from the spec: [isc::resolve::makeErrorMessage] is not among the
    sources; ANSWER, AUTHORITY and ADDITIONAL are cleared and the RCODE is
    set, the echoed question is kept. *)
Definition makeErrorMessage (m : Message) (rcode : N) : Message :=
  mkMessage (m_opcode m) rcode (m_question m) [] [] [].

(** The categories of [ResponseClassifier::Category], as the [switch] of
    [handleRecursiveAnswer] lists them. *)
Inductive Category :=
| ANSWER | ANSWERCNAME | CNAME | NXDOMAIN | NXRRSET | REFERRAL
| EMPTY | EXTRADATA | INVNAMCLASS | INVTYPE | MISMATQUEST | MULTICLASS
| NOTONEQUEST | NOTRESPONSE | NOTSINGLE | OPCODE | RCODE | TRUNCATED.

End Resolve.
Import Resolve.

(** ** Time and unsigned arithmetic *)

Record timeval := mkTimeval { tv_sec : Z; tv_usec : Z }.

(** Conversion to [uint32_t]. *)
Definition to_uint32 (z : Z) : N := Z.to_N (z mod 2 ^ 32).

(** [--x] and [++x] on an unsigned of [w] bits. *)
Definition udec (w : N) (x : N) : N := if x =? 0 then 2 ^ w - 1 else x - 1.
Definition uinc (w : N) (x : N) : N := (x + 1) mod 2 ^ w.

(** The RTT computed in [operator()] from the two [gettimeofday] readings;
    [rtt] is a [uint32_t], the fields of [timeval] are signed. *)
Definition compute_rtt (cur_time current_ns_qsent_time : timeval) : N :=
  if ((tv_sec current_ns_qsent_time <=? tv_sec cur_time)%Z
      && (tv_usec current_ns_qsent_time <? tv_usec cur_time)%Z)%bool
  then
    let rtt :=
      to_uint32 (1000 * (tv_sec cur_time - tv_sec current_ns_qsent_time))%Z in
    to_uint32
      (Z.of_N rtt
       + Z.quot (tv_usec cur_time - tv_usec current_ns_qsent_time) 1000)%Z
  else 1.

(** The RTT as the specification words it: one millisecond when the clock
    reads less than at the send in the seconds or in the microseconds,
    the difference in whole milliseconds otherwise. *)
Definition rtt_as_specified (cur_time current_ns_qsent_time : timeval) : Z :=
  if ((tv_sec cur_time <? tv_sec current_ns_qsent_time)
      || (tv_usec cur_time <? tv_usec current_ns_qsent_time))%Z%bool
  then 1%Z
  else (1000 * (tv_sec cur_time - tv_sec current_ns_qsent_time)
        + (tv_usec cur_time - tv_usec current_ns_qsent_time) / 1000)%Z.

(** ** The collaborators of the engine

    Cache, response classifier, NSAS penalty constant and [rand()] are used
    by the engine but defined elsewhere; the engine is verified for every
    implementation of them. *)

Definition NameserverAddress := string.

Class Collaborators := {
  (** [isc::cache::ResolverCache] *)
  ResolverCache : Type;
  (** [lookup(name, type, class, message)]: on a hit the message is filled *)
  cache_lookup :
    ResolverCache -> Name -> RRType -> RRClass -> Message -> option Message;
  (** [lookup(name, type, class)] returning an [RRsetPtr] *)
  cache_lookup_rrset :
    ResolverCache -> Name -> RRType -> RRClass -> option RRset;
  (** [update(message)] *)
  cache_update : ResolverCache -> Message -> ResolverCache;
  (** Modelled from the spec: [ResponseClassifier::classify] is not among
      the sources.  It is given the question, the incoming message, the
      CNAME target, the CNAME count and the flag; the call site passes
      [cname_target] and [cname_count_] as lvalues, so the model lets the
      classifier hand back a value for each, which covers a classifier that
      only reads the count. *)
  classify :
    Question -> Message -> Name -> N -> bool -> Category * Name * N;
  (** the successive results of [rand()] *)
  rand : nat -> N;
  (** [isc::nsas::AddressEntry::UNREACHABLE] *)
  UNREACHABLE : N;
  (** what the never initialised [current_ns_qsent_time] holds *)
  qsent_indeterminate : timeval
}.

(** ** Calls that leave the object *)

Inductive Effect :=
| CallbackSuccess (m : Message)      (* resolvercallback_->success(m) *)
| CallbackFailure                    (* resolvercallback_->failure() *)
| CacheLookup (n : Name) (t : RRType) (c : RRClass)
| CacheLookupRRset (n : Name) (t : RRType) (c : RRClass)
| CacheUpdate (m : Message)          (* cache_.update(m) *)
| Classify (q : Question) (m : Message)
| FromWire (m : Message)             (* incoming.fromWire(ibuf) *)
| UpdateRTT (a : option NameserverAddress) (rtt : N)
| NsasLookup (zone : string) (c : RRClass)
| NsasLookupDone                     (* nsasCallbackCalled() *)
| NsasCancel (zone : string) (c : RRClass)
| PostFetch (q : Question) (address : string) (port : N) (timeout : Z)
| DeleteThis.

(** ** asio::deadline_timer, as [stop] and the handlers see it *)

Inductive Timer :=
| Unset        (* async_wait was never called *)
| Waiting      (* a wait is pending *)
| Aborting     (* cancel() returned 1; the handler is still to run *)
| Finished.    (* the handler has run *)

(** [cancel()]: the number of waits cancelled, and the timer afterwards. *)
Definition timer_cancel (t : Timer) : N * Timer :=
  match t with
  | Waiting => (1, Aborting)
  | _ => (0, t)
  end.

Definition timer_pending (t : Timer) : bool :=
  match t with
  | Waiting | Aborting => true
  | _ => false
  end.

(** Whether one of the two [cancel()] calls of [stop] cancels a wait. *)
Definition timer_pending' (lookup client : Timer) : bool :=
  match lookup, client with
  | Waiting, _ | _, Waiting => true
  | _, _ => false
  end.

Inductive IOFetchResult := SUCCESS | TIME_OUT.

Definition is_TIME_OUT (r : IOFetchResult) : bool :=
  match r with TIME_OUT => true | SUCCESS => false end.

Record Config := mkConfig
  { cfg_upstream : list (string * N);
    cfg_query_timeout : Z;
    cfg_client_timeout : Z;
    cfg_lookup_timeout : Z;
    cfg_retries : N }.

(** ** The running query *)

Section RunningQuery.

Context {collaborators : Collaborators}.

(** The member variables of [RunningQuery] ([io_], [buffer_] and the two
    callback pointers carry no state of their own: what is received into
    [buffer_] comes with the completion event), the cache behind [cache_],
    and the trace. *)
Record State := mkState
  {
    question_ : Question;   (* Info for (re)sending the query *)
    answer_message_ : Message;   (* where the final answer is built *)
    upstream_ : list (string * N);   (* forwarders; empty in recursive mode *)
    cname_count_ : N;   (* unsigned *)
    query_timeout_ : Z;
    retries_ : N;   (* unsigned *)
    client_timer : Timer;
    client_timer_canceled_ : bool;
    lookup_timer : Timer;
    queries_out_ : N;   (* size_t *)
    done_ : bool;
    answer_sent_ : bool;
    cur_zone_ : string;
    nsas_callback_out_ : bool;
    current_ns_address : option NameserverAddress;   (* None: default constructed *)
    current_ns_qsent_time : timeval;
    cache_ : ResolverCache;   (* the shared cache the reference points to *)
    rand_calls : nat;   (* how often rand() was called *)
    deleted : bool;   (* delete this was executed *)
    trace : list Effect   (* the calls made so far, oldest first *) }.

Definition set_question (v : Question) (s : State) : State :=
  mkState v (answer_message_ s) (upstream_ s) (cname_count_ s)
    (query_timeout_ s) (retries_ s) (client_timer s) (client_timer_canceled_
    s) (lookup_timer s) (queries_out_ s) (done_ s) (answer_sent_ s)
    (cur_zone_ s) (nsas_callback_out_ s) (current_ns_address s)
    (current_ns_qsent_time s) (cache_ s) (rand_calls s) (deleted s) (trace
    s).

Definition set_answer_message (v : Message) (s : State) : State :=
  mkState (question_ s) v (upstream_ s) (cname_count_ s) (query_timeout_ s)
    (retries_ s) (client_timer s) (client_timer_canceled_ s) (lookup_timer
    s) (queries_out_ s) (done_ s) (answer_sent_ s) (cur_zone_ s)
    (nsas_callback_out_ s) (current_ns_address s) (current_ns_qsent_time s)
    (cache_ s) (rand_calls s) (deleted s) (trace s).

Definition set_cname_count (v : N) (s : State) : State :=
  mkState (question_ s) (answer_message_ s) (upstream_ s) v (query_timeout_
    s) (retries_ s) (client_timer s) (client_timer_canceled_ s)
    (lookup_timer s) (queries_out_ s) (done_ s) (answer_sent_ s) (cur_zone_
    s) (nsas_callback_out_ s) (current_ns_address s) (current_ns_qsent_time
    s) (cache_ s) (rand_calls s) (deleted s) (trace s).

Definition set_retries (v : N) (s : State) : State :=
  mkState (question_ s) (answer_message_ s) (upstream_ s) (cname_count_ s)
    (query_timeout_ s) v (client_timer s) (client_timer_canceled_ s)
    (lookup_timer s) (queries_out_ s) (done_ s) (answer_sent_ s) (cur_zone_
    s) (nsas_callback_out_ s) (current_ns_address s) (current_ns_qsent_time
    s) (cache_ s) (rand_calls s) (deleted s) (trace s).

Definition set_client_timer (v : Timer) (s : State) : State :=
  mkState (question_ s) (answer_message_ s) (upstream_ s) (cname_count_ s)
    (query_timeout_ s) (retries_ s) v (client_timer_canceled_ s)
    (lookup_timer s) (queries_out_ s) (done_ s) (answer_sent_ s) (cur_zone_
    s) (nsas_callback_out_ s) (current_ns_address s) (current_ns_qsent_time
    s) (cache_ s) (rand_calls s) (deleted s) (trace s).

Definition set_client_timer_canceled (v : bool) (s : State) : State :=
  mkState (question_ s) (answer_message_ s) (upstream_ s) (cname_count_ s)
    (query_timeout_ s) (retries_ s) (client_timer s) v (lookup_timer s)
    (queries_out_ s) (done_ s) (answer_sent_ s) (cur_zone_ s)
    (nsas_callback_out_ s) (current_ns_address s) (current_ns_qsent_time s)
    (cache_ s) (rand_calls s) (deleted s) (trace s).

Definition set_lookup_timer (v : Timer) (s : State) : State :=
  mkState (question_ s) (answer_message_ s) (upstream_ s) (cname_count_ s)
    (query_timeout_ s) (retries_ s) (client_timer s) (client_timer_canceled_
    s) v (queries_out_ s) (done_ s) (answer_sent_ s) (cur_zone_ s)
    (nsas_callback_out_ s) (current_ns_address s) (current_ns_qsent_time s)
    (cache_ s) (rand_calls s) (deleted s) (trace s).

Definition set_queries_out (v : N) (s : State) : State :=
  mkState (question_ s) (answer_message_ s) (upstream_ s) (cname_count_ s)
    (query_timeout_ s) (retries_ s) (client_timer s) (client_timer_canceled_
    s) (lookup_timer s) v (done_ s) (answer_sent_ s) (cur_zone_ s)
    (nsas_callback_out_ s) (current_ns_address s) (current_ns_qsent_time s)
    (cache_ s) (rand_calls s) (deleted s) (trace s).

Definition set_done (v : bool) (s : State) : State :=
  mkState (question_ s) (answer_message_ s) (upstream_ s) (cname_count_ s)
    (query_timeout_ s) (retries_ s) (client_timer s) (client_timer_canceled_
    s) (lookup_timer s) (queries_out_ s) v (answer_sent_ s) (cur_zone_ s)
    (nsas_callback_out_ s) (current_ns_address s) (current_ns_qsent_time s)
    (cache_ s) (rand_calls s) (deleted s) (trace s).

Definition set_answer_sent (v : bool) (s : State) : State :=
  mkState (question_ s) (answer_message_ s) (upstream_ s) (cname_count_ s)
    (query_timeout_ s) (retries_ s) (client_timer s) (client_timer_canceled_
    s) (lookup_timer s) (queries_out_ s) (done_ s) v (cur_zone_ s)
    (nsas_callback_out_ s) (current_ns_address s) (current_ns_qsent_time s)
    (cache_ s) (rand_calls s) (deleted s) (trace s).

Definition set_cur_zone (v : string) (s : State) : State :=
  mkState (question_ s) (answer_message_ s) (upstream_ s) (cname_count_ s)
    (query_timeout_ s) (retries_ s) (client_timer s) (client_timer_canceled_
    s) (lookup_timer s) (queries_out_ s) (done_ s) (answer_sent_ s) v
    (nsas_callback_out_ s) (current_ns_address s) (current_ns_qsent_time s)
    (cache_ s) (rand_calls s) (deleted s) (trace s).

Definition set_nsas_callback_out (v : bool) (s : State) : State :=
  mkState (question_ s) (answer_message_ s) (upstream_ s) (cname_count_ s)
    (query_timeout_ s) (retries_ s) (client_timer s) (client_timer_canceled_
    s) (lookup_timer s) (queries_out_ s) (done_ s) (answer_sent_ s)
    (cur_zone_ s) v (current_ns_address s) (current_ns_qsent_time s) (cache_
    s) (rand_calls s) (deleted s) (trace s).

Definition set_current_ns_address (v : option NameserverAddress) (s : State) : State :=
  mkState (question_ s) (answer_message_ s) (upstream_ s) (cname_count_ s)
    (query_timeout_ s) (retries_ s) (client_timer s) (client_timer_canceled_
    s) (lookup_timer s) (queries_out_ s) (done_ s) (answer_sent_ s)
    (cur_zone_ s) (nsas_callback_out_ s) v (current_ns_qsent_time s) (cache_
    s) (rand_calls s) (deleted s) (trace s).

Definition set_current_ns_qsent_time (v : timeval) (s : State) : State :=
  mkState (question_ s) (answer_message_ s) (upstream_ s) (cname_count_ s)
    (query_timeout_ s) (retries_ s) (client_timer s) (client_timer_canceled_
    s) (lookup_timer s) (queries_out_ s) (done_ s) (answer_sent_ s)
    (cur_zone_ s) (nsas_callback_out_ s) (current_ns_address s) v (cache_ s)
    (rand_calls s) (deleted s) (trace s).

Definition set_cache (v : ResolverCache) (s : State) : State :=
  mkState (question_ s) (answer_message_ s) (upstream_ s) (cname_count_ s)
    (query_timeout_ s) (retries_ s) (client_timer s) (client_timer_canceled_
    s) (lookup_timer s) (queries_out_ s) (done_ s) (answer_sent_ s)
    (cur_zone_ s) (nsas_callback_out_ s) (current_ns_address s)
    (current_ns_qsent_time s) v (rand_calls s) (deleted s) (trace s).

Definition set_rand_calls (v : nat) (s : State) : State :=
  mkState (question_ s) (answer_message_ s) (upstream_ s) (cname_count_ s)
    (query_timeout_ s) (retries_ s) (client_timer s) (client_timer_canceled_
    s) (lookup_timer s) (queries_out_ s) (done_ s) (answer_sent_ s)
    (cur_zone_ s) (nsas_callback_out_ s) (current_ns_address s)
    (current_ns_qsent_time s) (cache_ s) v (deleted s) (trace s).

Definition set_deleted (v : bool) (s : State) : State :=
  mkState (question_ s) (answer_message_ s) (upstream_ s) (cname_count_ s)
    (query_timeout_ s) (retries_ s) (client_timer s) (client_timer_canceled_
    s) (lookup_timer s) (queries_out_ s) (done_ s) (answer_sent_ s)
    (cur_zone_ s) (nsas_callback_out_ s) (current_ns_address s)
    (current_ns_qsent_time s) (cache_ s) (rand_calls s) v (trace s).

Definition set_trace (v : list Effect) (s : State) : State :=
  mkState (question_ s) (answer_message_ s) (upstream_ s) (cname_count_ s)
    (query_timeout_ s) (retries_ s) (client_timer s) (client_timer_canceled_
    s) (lookup_timer s) (queries_out_ s) (done_ s) (answer_sent_ s)
    (cur_zone_ s) (nsas_callback_out_ s) (current_ns_address s)
    (current_ns_qsent_time s) (cache_ s) (rand_calls s) (deleted s) v.

(** ** Results of a member function

    A call returns, or it does not: the mutual recursion of [doLookup] and
    [handleRecursiveAnswer] is bounded by fuel, and the [assert] of [send]
    aborts.  The state reached so far is kept in both cases. *)
Inductive Res (A : Type) :=
| Ok (a : A) (s : State)
| OutOfFuel (s : State)
| AssertFailed (s : State).
Arguments Ok {A} a s.
Arguments OutOfFuel {A} s.
Arguments AssertFailed {A} s.

Definition bind {A B} (r : Res A) (k : A -> State -> Res B) : Res B :=
  match r with
  | Ok a s => k a s
  | OutOfFuel s => OutOfFuel s
  | AssertFailed s => AssertFailed s
  end.

Definition emit (e : Effect) (s : State) : State :=
  set_trace (trace s ++ [e]) s.

(** [cache_.update(m)] *)
Definition cache_update_call (m : Message) (s : State) : State :=
  emit (CacheUpdate m) (set_cache (cache_update (cache_ s) m) s).

(** [makeSERVFAIL()] *)
Definition makeSERVFAIL (s : State) : State :=
  set_answer_message (makeErrorMessage (answer_message_ s) Rcode_SERVFAIL) s.

(** [recursive_mode()] *)
Definition recursive_mode (s : State) : bool :=
  match upstream_ s with
  | [] => true
  | _ :: _ => false
  end.

(** [nsasCallbackCalled()] *)
Definition nsasCallbackCalled (s : State) : State :=
  set_nsas_callback_out false (emit NsasLookupDone s).

(** [sendTo(address)]; [now] is what [gettimeofday] returns. *)
Definition sendTo (address : NameserverAddress) (now : timeval) (s : State)
  : State :=
  let s := set_current_ns_address (Some address) s in
  let s := set_current_ns_qsent_time now s in
  let s := set_queries_out (uinc 64 (queries_out_ s)) s in
  emit (PostFetch (question_ s) address 53 (query_timeout_ s)) s.

(** [send()] *)
Definition send (s : State) : Res unit :=
  let uc := N.of_nat (List.length (upstream_ s)) in
  if 0 <? uc then
    let serverIndex := rand (rand_calls s) mod uc in
    let s := set_rand_calls (S (rand_calls s)) s in
    let s := set_queries_out (uinc 64 (queries_out_ s)) s in
    let server := nth (N.to_nat serverIndex) (upstream_ s) ("", 0) in
    Ok tt (emit (PostFetch (question_ s) (fst server) (snd server)
                           (query_timeout_ s)) s)
  else if nsas_callback_out_ s then
    AssertFailed s
  else
    let s := set_nsas_callback_out true s in
    Ok tt (emit (NsasLookup (cur_zone_ s) (q_class (question_ s))) s).

(** [stop(resume)] *)
Definition stop (resume : bool) (s : State) : State :=
  let s := set_done true s in
  if negb (answer_sent_ s) then
    let s := set_answer_sent true s in
    if resume then
      let s := cache_update_call (answer_message_ s) s in
      emit (CallbackSuccess (answer_message_ s)) s
    else
      emit CallbackFailure s
  else
    let (n, t) := timer_cancel (lookup_timer s) in
    let s := set_lookup_timer t s in
    if negb (n =? 0) then s
    else
      let (n, t) := timer_cancel (client_timer s) in
      let s := set_client_timer t s in
      if negb (n =? 0) then set_client_timer_canceled true s
      else if 0 <? queries_out_ s then s
      else
        let s :=
          if nsas_callback_out_ s then
            set_nsas_callback_out false
              (emit (NsasCancel (cur_zone_ s) (q_class (question_ s))) s)
          else s in
        set_deleted true (emit DeleteThis s).

(** [clientTimeout()] *)
Definition clientTimeout (s : State) : State :=
  let s :=
    if negb (answer_sent_ s) then
      let s := set_answer_sent true s in
      let s := makeSERVFAIL s in
      emit (CallbackSuccess (answer_message_ s)) s
    else s in
  if client_timer_canceled_ s then stop false s else s.

(** [doLookup()], with the handler it calls on a cache hit as a parameter. *)
Definition doLookup_with (handler : Message -> State -> Res bool) (s : State)
  : Res unit :=
  let cached_message := initResponseMessage (question_ s) new_message in
  let q := question_ s in
  let s := emit (CacheLookup (q_name q) (q_type q) (q_class q)) s in
  match cache_lookup (cache_ s) (q_name q) (q_type q) (q_class q)
                     cached_message with
  | Some cached_message =>
      bind (handler cached_message s)
           (fun final s => if final then Ok tt (stop true s) else Ok tt s)
  | None =>
      send (set_cur_zone "." s)
  end.

(** The NS scan of the REFERRAL case: the owner of the first NS RRset of the
    AUTHORITY section. *)
Definition first_ns (incoming : Message) : option RRset :=
  find (fun rrs => rrs_type rrs =? RRType_NS)
       (getSection SECTION_AUTHORITY incoming).

(** [handleRecursiveAnswer(incoming)] *)
Fixpoint handleRecursiveAnswer (fuel : nat) (incoming : Message) (s : State)
  : Res bool :=
  match fuel with
  | O => OutOfFuel s
  | S fuel =>
      let '(category, cname_target, count) :=
        classify (question_ s) incoming (q_name (question_ s))
                 (cname_count_ s) true in
      let s := emit (Classify (question_ s) incoming) s in
      let s := set_cname_count count s in
      match category with
      | ANSWER | ANSWERCNAME =>
          let s := cache_update_call incoming s in
          Ok true
             (set_answer_message
                (copyResponseMessage incoming (answer_message_ s)) s)
      | CNAME =>
          let s := cache_update_call incoming s in
          if RESOLVER_MAX_CNAME_CHAIN <=? cname_count_ s then
            Ok true (makeSERVFAIL s)
          else
            let s :=
              set_answer_message
                (appendSection SECTION_ANSWER incoming (answer_message_ s))
                s in
            let s :=
              set_question
                (mkQuestion cname_target (q_class (question_ s))
                            (q_type (question_ s))) s in
            bind (doLookup_with (handleRecursiveAnswer fuel) s)
                 (fun _ s => Ok false s)
      | NXDOMAIN | NXRRSET =>
          Ok true
             (set_answer_message
                (copyResponseMessage incoming (answer_message_ s)) s)
      | REFERRAL =>
          let s := cache_update_call incoming s in
          match first_ns incoming with
          | Some rrs =>
              bind (send (set_cur_zone (rrs_name rrs) s))
                   (fun _ s => Ok false s)
          | None =>
              Ok true
                 (set_answer_message
                    (copyResponseMessage incoming (answer_message_ s)) s)
          end
      | EMPTY | EXTRADATA | INVNAMCLASS | INVTYPE | MISMATQUEST | MULTICLASS
      | NOTONEQUEST | NOTRESPONSE | NOTSINGLE | OPCODE | RCODE | TRUNCATED =>
          Ok true (makeSERVFAIL s)
      end
  end.

Definition doLookup (fuel : nat) (s : State) : Res unit :=
  doLookup_with (handleRecursiveAnswer fuel) s.

(** The last branch of [operator()]: out of retries, or already done. *)
Definition out_of_retries (s : State) : State :=
  let s :=
    if recursive_mode s
    then emit (UpdateRTT (current_ns_address s) UNREACHABLE) s
    else s in
  let s := if negb (answer_sent_ s) then makeSERVFAIL s else s in
  stop (negb (answer_sent_ s)) s.

(** [operator()(result)]: the completion of an [IOFetch].  [wire] is the
    message [buffer_] holds, [cur_time] what [gettimeofday] returns. *)
Definition operator_call (fuel : nat) (result : IOFetchResult)
    (wire : Message) (cur_time : timeval) (s : State) : Res unit :=
  let s := set_queries_out (udec 64 (queries_out_ s)) s in
  if negb (done_ s) && negb (is_TIME_OUT result) then
    let rtt := compute_rtt cur_time (current_ns_qsent_time s) in
    let s := emit (UpdateRTT (current_ns_address s) rtt) s in
    let incoming := wire in
    let s := emit (FromWire incoming) s in
    bind
      (if recursive_mode s && (m_rcode incoming =? Rcode_NOERROR) then
         bind (handleRecursiveAnswer fuel incoming s)
              (fun final s => Ok tt (set_done final s))
       else
         Ok tt
            (set_done true
               (set_answer_message
                  (copyResponseMessage incoming (answer_message_ s)) s)))
      (fun _ s => if done_ s then Ok tt (stop true s) else Ok tt s)
  else if negb (done_ s) then
    (* [retries_--] is evaluated: its old value decides *)
    let old := retries_ s in
    let s := set_retries (udec 32 old) s in
    if negb (old =? 0) then
      let s :=
        if recursive_mode s
        then emit (UpdateRTT (current_ns_address s) UNREACHABLE) s
        else s in
      send s
    else Ok tt (out_of_retries s)
  else Ok tt (out_of_retries s).

(** The constructor. *)
Definition RunningQuery_new (fuel : nat) (cfg : Config) (question : Question)
    (answer_message : Message) (cache : ResolverCache)
    (before : list Effect) : Res unit :=
  let s :=
    mkState question answer_message (cfg_upstream cfg) 0
            (cfg_query_timeout cfg) (cfg_retries cfg)
            Unset false Unset 0 false false "" false None
            qsent_indeterminate cache 0%nat false before in
  let s :=
    if (0 <=? cfg_lookup_timeout cfg)%Z
    then set_lookup_timer Waiting s else s in
  let s :=
    if (0 <=? cfg_client_timeout cfg)%Z
    then set_client_timer Waiting s else s in
  doLookup fuel s.

(** The state a call has reached, returned or not. *)
Definition state_of {A} (r : Res A) : State :=
  match r with
  | Ok _ s | OutOfFuel s | AssertFailed s => s
  end.

(** The state the constructor builds before it calls [doLookup]. *)
Definition constructed (cfg : Config) (question : Question)
    (answer_message : Message) (cache : ResolverCache)
    (before : list Effect) : State :=
  let s :=
    mkState question answer_message (cfg_upstream cfg) 0
            (cfg_query_timeout cfg) (cfg_retries cfg)
            Unset false Unset 0 false false "" false None
            qsent_indeterminate cache 0%nat false before in
  let s :=
    if (0 <=? cfg_lookup_timeout cfg)%Z
    then set_lookup_timer Waiting s else s in
  if (0 <=? cfg_client_timeout cfg)%Z
  then set_client_timer Waiting s else s.

(** Nothing is outstanding: no fetch, no NSAS lookup. *)
Definition quiet (s : State) : Prop :=
  queries_out_ s = 0 /\ nsas_callback_out_ s = false.

(** Something is outstanding, so a handler will run. *)
Definition pending (s : State) : bool :=
  (0 <? queries_out_ s) || nsas_callback_out_ s.

(** ** The handlers the io service runs

    Every handler runs to completion before the next one starts.  A timer
    handler runs when the wait ends or after [cancel()] cut it short; the
    NSAS answers a lookup once; an [IOFetch] completes once. *)
Inductive Event :=
| LookupTimerHandler        (* bound to [stop(false)] *)
| ClientTimerHandler        (* bound to [clientTimeout()] *)
| NsasSuccess (address : NameserverAddress) (now : timeval)
| NsasUnreachable
| FetchCompleted (result : IOFetchResult) (wire : Message) (now : timeval)
| CacheChanged (c : ResolverCache).   (* another user of the shared cache *)

(** Whether the handler can run: its timer is pending, an NSAS lookup is
    outstanding, a fetch is outstanding. *)
Definition enabled (ev : Event) (s : State) : bool :=
  match ev with
  | LookupTimerHandler => timer_pending (lookup_timer s)
  | ClientTimerHandler => timer_pending (client_timer s)
  | NsasSuccess _ _ | NsasUnreachable => nsas_callback_out_ s
  | FetchCompleted _ _ _ => 0 <? queries_out_ s
  | CacheChanged _ => true
  end.

Definition handle (fuel : nat) (ev : Event) (s : State) : Res unit :=
  match ev with
  | LookupTimerHandler => Ok tt (stop false (set_lookup_timer Finished s))
  | ClientTimerHandler => Ok tt (clientTimeout (set_client_timer Finished s))
  | NsasSuccess address now =>
      (* ResolverNSASCallback::success *)
      Ok tt (sendTo address now (nsasCallbackCalled s))
  | NsasUnreachable =>
      (* ResolverNSASCallback::unreachable *)
      Ok tt (stop false (makeSERVFAIL (nsasCallbackCalled s)))
  | FetchCompleted result wire now => operator_call fuel result wire now s
  | CacheChanged c => Ok tt (set_cache c s)
  end.

(** A completion that brings a response, as opposed to a timeout. *)
Definition is_response (ev : Event) : bool :=
  match ev with
  | FetchCompleted SUCCESS _ _ => true
  | _ => false
  end.

(** A schedule: the handlers in the order the loop runs them.  One that is
    not enabled when its turn comes cannot run and is passed over. *)
Fixpoint run (fuel : nat) (evs : list Event) (s : State) : Res unit :=
  match evs with
  | [] => Ok tt s
  | ev :: evs =>
      if enabled ev s
      then bind (handle fuel ev s) (fun _ s => run fuel evs s)
      else run fuel evs s
  end.

(** Every handler of the schedule is enabled at its turn. *)
Fixpoint schedulable (fuel : nat) (evs : list Event) (s : State) : bool :=
  match evs with
  | [] => true
  | ev :: evs =>
      enabled ev s
      && match handle fuel ev s with
         | Ok _ s => schedulable fuel evs s
         | _ => true
         end
  end.

(** ** The entry points *)

(** What a call of [resolve] has done when it returns: answered from the
    cache (the calls it made), or constructed a [RunningQuery]. *)
Inductive Resolved :=
| FromCache (tr : list Effect)
| Started (r : Res unit).

(** [RecursiveQuery::resolve(const QuestionPtr&, CallbackPtr)] *)
Definition resolve (fuel : nat) (cfg : Config) (cache : ResolverCache)
    (question : Question) : Resolved :=
  let answer_message := initResponseMessage question new_message in
  let tr :=
    [CacheLookup (q_name question) (q_type question) (q_class question)] in
  let '(hit, answer_message) :=
    match cache_lookup cache (q_name question) (q_type question)
                       (q_class question) answer_message with
    | Some m => (0 <? getRRCount SECTION_ANSWER m, m)
    | None => (false, answer_message)
    end in
  if hit then
    let answer_message := setRcode Rcode_NOERROR answer_message in
    FromCache (tr ++ [CallbackSuccess answer_message])
  else
    let tr :=
      tr ++ [CacheLookupRRset (q_name question) (q_type question)
                              (q_class question)] in
    match cache_lookup_rrset cache (q_name question) (q_type question)
                             (q_class question) with
    | Some cached_rrset =>
        let answer_message :=
          addRRset SECTION_ANSWER cached_rrset answer_message in
        let answer_message := setRcode Rcode_NOERROR answer_message in
        FromCache (tr ++ [CallbackSuccess answer_message])
    | None =>
        Started (RunningQuery_new fuel cfg question answer_message cache tr)
    end.

(** [RecursiveQuery::resolve(const Question&, MessagePtr, OutputBufferPtr,
    DNSServer* )]: the callback is a [ResolverCallbackServer] around
    [server]; [buffer] is where fetches will receive. *)
Definition resolve_server (fuel : nat) (cfg : Config) (cache : ResolverCache)
    (question : Question) (answer_message : Message) (buffer : list N)
    : Resolved :=
  let answer_message := setOpcode Opcode_QUERY answer_message in
  let answer_message := addQuestion question answer_message in
  let tr :=
    [CacheLookup (q_name question) (q_type question) (q_class question)] in
  let '(hit, answer_message) :=
    match cache_lookup cache (q_name question) (q_type question)
                       (q_class question) answer_message with
    | Some m => (0 <? getRRCount SECTION_ANSWER m, m)
    | None => (false, answer_message)
    end in
  if hit then
    let answer_message := setRcode Rcode_NOERROR answer_message in
    FromCache (tr ++ [CallbackSuccess answer_message])
  else
    let tr :=
      tr ++ [CacheLookupRRset (q_name question) (q_type question)
                              (q_class question)] in
    match cache_lookup_rrset cache (q_name question) (q_type question)
                             (q_class question) with
    | Some cached_rrset =>
        let answer_message :=
          addRRset SECTION_ANSWER cached_rrset answer_message in
        let answer_message := setRcode Rcode_NOERROR answer_message in
        FromCache (tr ++ [CallbackSuccess answer_message])
    | None =>
        Started (RunningQuery_new fuel cfg question answer_message cache tr)
    end.

(** A call of either entry point that constructs a [RunningQuery]; [r] is
    what the constructor returns. *)
Inductive spawns (fuel : nat) (cfg : Config) (cache : ResolverCache)
    (question : Question) : Res unit -> Prop :=
| spawns_resolve (r : Res unit) :
    resolve fuel cfg cache question = Started r ->
    spawns fuel cfg cache question r
| spawns_resolve_server (answer_message : Message) (buffer : list N)
    (r : Res unit) :
    resolve_server fuel cfg cache question answer_message buffer = Started r ->
    spawns fuel cfg cache question r.

(** ** Reading a trace *)

Definition is_callback (e : Effect) : bool :=
  match e with
  | CallbackSuccess _ | CallbackFailure => true
  | _ => false
  end.

Definition is_fetch (e : Effect) : bool :=
  match e with PostFetch _ _ _ _ => true | _ => false end.

Definition is_nsas_lookup (e : Effect) : bool :=
  match e with NsasLookup _ _ => true | _ => false end.

Definition is_nsas_end (e : Effect) : bool :=
  match e with NsasLookupDone | NsasCancel _ _ => true | _ => false end.

Definition is_cache_update (e : Effect) : bool :=
  match e with CacheUpdate _ => true | _ => false end.

Definition is_parse_or_classify (e : Effect) : bool :=
  match e with FromWire _ | Classify _ _ => true | _ => false end.

Definition count (p : Effect -> bool) (tr : list Effect) : nat :=
  List.length (filter p tr).

(** Every answer handed to the caller that is not a SERVFAIL went into the
    cache immediately before. *)
Definition cached_first (tr : list Effect) : Prop :=
  forall l1 m l2,
    tr = l1 ++ CallbackSuccess m :: l2 ->
    m_rcode m <> Rcode_SERVFAIL ->
    exists l0, l1 = l0 ++ [CacheUpdate m].

(** How often the caller was signalled. *)
Definition signals (tr : list Effect) : nat := count is_callback tr.

(** How many fetches were posted. *)
Definition fetches (tr : list Effect) : nat := count is_fetch tr.

(** NSAS lookups asked for and not yet answered or cancelled. *)
Definition nsas_outstanding (tr : list Effect) : Z :=
  (Z.of_nat (count is_nsas_lookup tr) - Z.of_nat (count is_nsas_end tr))%Z.

End RunningQuery.

Arguments Ok {collaborators A} a s.
Arguments OutOfFuel {collaborators A} s.
Arguments AssertFailed {collaborators A} s.
Arguments state_of {collaborators A} r.
Arguments count : simpl never.
Arguments stop : simpl never.
Arguments send : simpl never.
Arguments clientTimeout : simpl never.
Arguments out_of_retries : simpl never.
Arguments doLookup_with : simpl never.
Arguments doLookup : simpl never.
Arguments operator_call : simpl never.
Arguments first_ns : simpl never.
Arguments copyResponseMessage : simpl never.
Arguments appendSection : simpl never.
Arguments makeErrorMessage : simpl never.
Arguments initResponseMessage : simpl never.
Arguments compute_rtt : simpl never.
Arguments uinc : simpl never.
Arguments udec : simpl never.
Arguments signals : simpl never.
Arguments fetches : simpl never.
Arguments nsas_outstanding : simpl never.

(** ** Concrete collaborators, for the examples

    A cache that keeps the messages it is given under their first question,
    and a classifier that looks at the RCODE, at the first ANSWER RRset and
    at the AUTHORITY section. *)

Module Sample.

Definition question_eqb (a b : Question) : bool :=
  (q_name a =? q_name b)%string && (q_class a =? q_class b)
  && (q_type a =? q_type b).

Record ListCache := mkListCache
  { messages : list (Question * Message);
    rrsets : list RRset }.

Definition lookup (c : ListCache) (n : Name) (t : RRType) (k : RRClass)
    (m : Message) : option Message :=
  match find (fun e => question_eqb (fst e) (mkQuestion n k t)) (messages c)
  with
  | Some (_, cached) =>
      Some (mkMessage (m_opcode m) (m_rcode cached) (m_question m)
                      (m_answer cached) (m_authority cached)
                      (m_additional cached))
  | None => None
  end.

Definition lookup_rrset (c : ListCache) (n : Name) (t : RRType) (k : RRClass)
  : option RRset :=
  find (fun r => (rrs_name r =? n)%string && (rrs_type r =? t)
                 && (rrs_class r =? k)) (rrsets c).

Definition update (c : ListCache) (m : Message) : ListCache :=
  match m_question m with
  | q :: _ => mkListCache ((q, m) :: messages c) (rrsets c)
  | [] => c
  end.

Definition classify_simple (q : Question) (m : Message) (target : Name)
    (count : N) (follow : bool) : Category * Name * N :=
  if m_rcode m =? Rcode_NXDOMAIN then (NXDOMAIN, target, count)
  else if negb (m_rcode m =? Rcode_NOERROR) then (RCODE, target, count)
  else
    match m_answer m with
    | r :: _ =>
        if negb (rrs_name r =? q_name q)%string then (INVNAMCLASS, target, count)
        else if rrs_type r =? q_type q then (ANSWER, target, count)
        else if rrs_type r =? RRType_CNAME then
          (CNAME, hd target (rrs_rdata r), count + 1)
        else (INVTYPE, target, count)
    | [] =>
        match m_authority m with
        | _ :: _ => (REFERRAL, target, count)
        | [] => (EMPTY, target, count)
        end
    end.

#[export] Instance collaborators : Collaborators :=
  {| ResolverCache := ListCache;
     cache_lookup := lookup;
     cache_lookup_rrset := lookup_rrset;
     cache_update := update;
     classify := classify_simple;
     rand := fun n => N.of_nat n;
     UNREACHABLE := 4294967295;
     qsent_indeterminate := mkTimeval 0 0 |}.

Definition empty_cache : ListCache := mkListCache [] [].

Definition q_x : Question := mkQuestion "x.test." RRClass_IN RRType_A.

Definition a_x : Message :=
  mkMessage Opcode_QUERY Rcode_NOERROR [q_x]
            [mkRRset "x.test." RRClass_IN RRType_A ["1.2.3.4"]] [] [].

Definition nx_x : Message :=
  mkMessage Opcode_QUERY Rcode_NXDOMAIN [q_x] [] [] [].

Definition forwarding : Config :=
  mkConfig [("8.8.8.8", 53)] 2000 100 5000 2.

Definition iterative : Config := mkConfig [] 2000 100 5000 2.

Definition t0 : timeval := mkTimeval 10 0.
Definition t1 : timeval := mkTimeval 10 300000.

Definition root_server : NameserverAddress := "198.41.0.4".

(** The query [resolve] starts, or a blank one if it starts none. *)
Definition blank : State :=
  constructed iterative q_x new_message empty_cache [].

Definition started (r : Resolved) : State :=
  match r with
  | Started r => state_of r
  | FromCache _ => blank
  end.

Definition after (evs : list Event) (s : State) : State :=
  state_of (run 2 evs s).

(** x.test. A? with no forwarder, and with one. *)
Definition iter0 : State := started (resolve 2 iterative empty_cache q_x).
Definition fwd0 : State := started (resolve 2 forwarding empty_cache q_x).

(** The answer comes, then the lookup timer ends the query. *)
Definition answered : list Event :=
  [NsasSuccess root_server t0; FetchCompleted SUCCESS a_x t1;
   LookupTimerHandler; ClientTimerHandler].

(** Every fetch times out, then the timers end the query. *)
Definition timeouts : list Event :=
  [NsasSuccess root_server t0; FetchCompleted TIME_OUT new_message t1;
   NsasSuccess root_server t0; FetchCompleted TIME_OUT new_message t1;
   NsasSuccess root_server t0; FetchCompleted TIME_OUT new_message t1;
   LookupTimerHandler; ClientTimerHandler].

(** The client timer fires first, the answer comes afterwards. *)
Definition late : list Event :=
  [ClientTimerHandler; FetchCompleted SUCCESS a_x t1].

(** The name does not exist. *)
Definition refused : list Event :=
  [NsasSuccess root_server t0; FetchCompleted SUCCESS nx_x t1].

(** The cache a query for x.test. leaves behind when the name does not
    exist: [stop(true)] inserted the NXDOMAIN answer. *)
Definition cache_nx : ListCache := cache_ (after refused iter0).

(** alias.test. is a CNAME for x.test. *)
Definition q_alias : Question := mkQuestion "alias.test." RRClass_IN RRType_A.

Definition cname_alias : Message :=
  mkMessage Opcode_QUERY Rcode_NOERROR [q_alias]
            [mkRRset "alias.test." RRClass_IN RRType_CNAME ["x.test."]] [] [].

Definition alias0 : State :=
  started (resolve 2 iterative empty_cache q_alias).

(** Sent at 10 s and 500 us, answered at 12 s and 500 us. *)
Definition t_sent : timeval := mkTimeval 10 500.
Definition t_received : timeval := mkTimeval 12 500.

(** The lookup timer fires while the fetch is out. *)
Definition gave_up : State :=
  after [NsasSuccess root_server t0; LookupTimerHandler] iter0.

End Sample.

(** * Properties *)

Section Properties.

Context {collaborators : Collaborators}.

(** ** Traces *)

Lemma count_app (p : Effect -> bool) (l1 l2 : list Effect) :
  count p (l1 ++ l2) = (count p l1 + count p l2)%nat.
Proof.
  unfold count. rewrite filter_app, length_app. reflexivity.
Qed.

Lemma count_snoc (p : Effect -> bool) (l : list Effect) (e : Effect) :
  count p (l ++ [e]) = (count p l + if p e then 1 else 0)%nat.
Proof.
  rewrite count_app. unfold count. simpl. destruct (p e); reflexivity.
Qed.

Lemma signals_snoc (l : list Effect) (e : Effect) :
  signals (l ++ [e]) = (signals l + if is_callback e then 1 else 0)%nat.
Proof. apply count_snoc. Qed.

Lemma fetches_snoc (l : list Effect) (e : Effect) :
  fetches (l ++ [e]) = (fetches l + if is_fetch e then 1 else 0)%nat.
Proof. apply count_snoc. Qed.

Lemma nsas_outstanding_snoc (l : list Effect) (e : Effect) :
  nsas_outstanding (l ++ [e])
  = (nsas_outstanding l + (if is_nsas_lookup e then 1 else 0)
     - (if is_nsas_end e then 1 else 0))%Z.
Proof.
  unfold nsas_outstanding. rewrite !count_snoc.
  destruct (is_nsas_lookup e), (is_nsas_end e); lia.
Qed.

(** ** The safety invariant of a running query *)

Definition b2n (b : bool) : N := if b then 1 else 0.
Arguments b2n !b.

Record Good (s : State) : Prop := mkGood
  { good_signals :
      signals (trace s) = if answer_sent_ s then 1%nat else 0%nat;
    good_nsas :
      nsas_outstanding (trace s) = Z.of_N (b2n (nsas_callback_out_ s));
    good_out : queries_out_ s + b2n (nsas_callback_out_ s) <= 1;
    good_mode : nsas_callback_out_ s = true -> upstream_ s = [];
    good_deleted : deleted s = true -> answer_sent_ s = true;
    good_canceled : client_timer_canceled_ s = true -> answer_sent_ s = true }.

Ltac trace_simpl :=
  repeat (rewrite ?signals_snoc, ?nsas_outstanding_snoc, ?fetches_snoc;
          cbn [is_callback is_nsas_lookup is_nsas_end is_fetch b2n]).

Lemma stop_good (resume : bool) (s : State) : Good s -> Good (stop resume s).
Proof.
  intros [Hs Hn Ho Hm Hx Hy]. unfold stop.
  destruct (answer_sent_ s) eqn:Ha; cbn.
  - rewrite Ha. cbn.
    destruct (lookup_timer s); cbn; try (constructor; cbn; trace_simpl; auto; fail).
    all: destruct (client_timer s); cbn; try (constructor; cbn; trace_simpl; auto; fail).
    all: destruct (0 <? queries_out_ s) eqn:Hq; cbn; try (constructor; cbn; trace_simpl; auto; fail).
    all: destruct (nsas_callback_out_ s) eqn:Hc; cbn; constructor; cbn; trace_simpl; 
      rewrite ?Ha, ?Hc in *; cbn in *; auto; try lia; try discriminate.
  - rewrite Ha. cbn. destruct resume; constructor; cbn; trace_simpl; rewrite ?Hs; auto; lia.
Qed.

Ltac good_tac :=
  constructor; cbn; trace_simpl; cbn; auto; try lia.

Lemma stop_answer_sent (resume : bool) (s : State) :
  answer_sent_ (stop resume s) = true.
Proof.
  unfold stop. cbn. destruct (answer_sent_ s) eqn:Ha; cbn.
  - destruct (lookup_timer s); cbn; auto;
      destruct (client_timer s); cbn; auto;
      destruct (0 <? queries_out_ s); cbn; auto;
      destruct (nsas_callback_out_ s); cbn; auto.
  - destruct resume; reflexivity.
Qed.

Lemma stop_done (resume : bool) (s : State) : done_ (stop resume s) = true.
Proof.
  unfold stop. cbn. destruct (answer_sent_ s); cbn.
  - destruct (lookup_timer s); cbn; auto;
      destruct (client_timer s); cbn; auto;
      destruct (0 <? queries_out_ s); cbn; auto;
      destruct (nsas_callback_out_ s); cbn; auto.
  - destruct resume; reflexivity.
Qed.

(** What no member function but the constructor writes, and what [stop],
    the cache and the answer leave alone. *)
Definition Frame (s s' : State) : Prop :=
  upstream_ s' = upstream_ s /\ query_timeout_ s' = query_timeout_ s.

Lemma Frame_refl (s : State) : Frame s s.
Proof. split; reflexivity. Qed.

Lemma Frame_trans (s1 s2 s3 : State) :
  Frame s1 s2 -> Frame s2 s3 -> Frame s1 s3.
Proof. intros [A B] [C D]. split; congruence. Qed.

Lemma stop_keeps (resume : bool) (s : State) :
  upstream_ (stop resume s) = upstream_ s
  /\ query_timeout_ (stop resume s) = query_timeout_ s
  /\ retries_ (stop resume s) = retries_ s
  /\ queries_out_ (stop resume s) = queries_out_ s
  /\ cname_count_ (stop resume s) = cname_count_ s
  /\ question_ (stop resume s) = question_ s
  /\ answer_message_ (stop resume s) = answer_message_ s.
Proof.
  unfold stop. cbn. destruct (answer_sent_ s); cbn.
  - destruct (lookup_timer s); cbn; auto 10;
      destruct (client_timer s); cbn; auto 10;
      destruct (0 <? queries_out_ s); cbn; auto 10;
      destruct (nsas_callback_out_ s); cbn; auto 10.
  - destruct resume; cbn; auto 10.
Qed.

Lemma stop_quiet (resume : bool) (s : State) : quiet s -> quiet (stop resume s).
Proof.
  intros [Hq Hn]. unfold quiet, stop. cbn. rewrite Hq, Hn.
  destruct (answer_sent_ s); cbn.
  - destruct (lookup_timer s); cbn; auto;
      destruct (client_timer s); cbn; auto.
  - destruct resume; cbn; auto.
Qed.

Lemma uinc64_0 : uinc 64 0 = 1.
Proof. reflexivity. Qed.

Lemma udec64_1 : udec 64 1 = 0.
Proof. reflexivity. Qed.

Lemma send_spec (s : State) :
  Good s -> quiet s ->
  exists s', send s = Ok tt s' /\ Good s' /\ Frame s s'
             /\ pending s' = true
             /\ queries_out_ s' + b2n (nsas_callback_out_ s') = 1
             /\ retries_ s' = retries_ s
             /\ done_ s' = done_ s /\ answer_sent_ s' = answer_sent_ s
             /\ cname_count_ s' = cname_count_ s.
Proof.
  intros [Hs Hn Ho Hm Hx Hy] [Hq Hc]. unfold send.
  destruct (0 <? N.of_nat (Datatypes.length (upstream_ s))) eqn:Hu.
  - eexists; split; [reflexivity|]. unfold pending, Frame.
    repeat split; cbn; trace_simpl; rewrite ?Hq, ?Hc, ?uinc64_0 in *;
      cbn in *; auto; try lia; try discriminate.
  - rewrite Hc. eexists; split; [reflexivity|]. unfold pending, Frame.
    assert (upstream_ s = []) as Hup.
    { destruct (upstream_ s); [reflexivity|]. cbn in Hu. discriminate. }
    repeat split; cbn; trace_simpl; rewrite ?Hq, ?Hc in *;
      cbn in *; auto; try lia.
Qed.

(** What [handleRecursiveAnswer] and [doLookup] guarantee when they are
    entered with nothing outstanding: the [assert] of [send] holds, a final
    result leaves nothing outstanding and does not signal, and a result that
    is not final leaves something outstanding unless the caller has its
    answer. *)
Definition handler_post (s : State) (r : Res bool) : Prop :=
  match r with
  | Ok final s' =>
      Good s' /\ Frame s s' /\ retries_ s' = retries_ s
      /\ if final
         then quiet s' /\ answer_sent_ s' = answer_sent_ s
              /\ done_ s' = done_ s
         else (answer_sent_ s' = true
               \/ pending s' = true /\ done_ s' = done_ s
                  /\ answer_sent_ s' = answer_sent_ s)
  | OutOfFuel _ => True
  | AssertFailed _ => False
  end.

Definition lookup_post (s : State) (r : Res unit) : Prop :=
  match r with
  | Ok _ s' =>
      Good s' /\ Frame s s' /\ retries_ s' = retries_ s
      /\ (answer_sent_ s' = true
          \/ pending s' = true /\ done_ s' = done_ s
             /\ answer_sent_ s' = answer_sent_ s)
  | OutOfFuel _ => True
  | AssertFailed _ => False
  end.

Lemma doLookup_with_spec (handler : Message -> State -> Res bool) :
  (forall incoming s, Good s -> quiet s -> handler_post s (handler incoming s)) ->
  forall s, Good s -> quiet s -> lookup_post s (doLookup_with handler s).
Proof.
  intros Hh s Hg Hq. unfold doLookup_with.
  set (s1 := emit _ s).
  assert (Good s1) as Hg1 by (destruct Hg; good_tac).
  assert (quiet s1) as Hq1 by exact Hq.
  destruct (cache_lookup _ _ _ _ _) as [cached|].
  - specialize (Hh cached s1 Hg1 Hq1).
    destruct (handler cached s1) as [final s2| |]; cbn in *; auto.
    destruct Hh as (Hg2 & Hf & Hr & Hfin). destruct final; cbn.
    + destruct (stop_keeps true s2) as (K1 & K2 & K3 & _).
      split; [apply stop_good; assumption|].
      split; [unfold Frame in *; cbn in *; intuition congruence|].
      split; [congruence|]. left. apply stop_answer_sent.
    + auto.
  - destruct (send_spec (set_cur_zone "." s1))
      as (s2 & E & Hg2 & Hf & Hp & _ & Hr & Hd & Ha & _).
    + subst s1. destruct Hg. good_tac.
    + exact Hq1.
    + rewrite E. cbn. split; [exact Hg2|]. split; [exact Hf|].
      split; [exact Hr|]. right. auto.
Qed.

Lemma handleRecursiveAnswer_spec (fuel : nat) :
  forall incoming s, Good s -> quiet s ->
    handler_post s (handleRecursiveAnswer fuel incoming s).
Proof.
  induction fuel as [|fuel IH]; intros incoming s Hg Hq; [exact I|].
  cbn [handleRecursiveAnswer].
  destruct (classify _ _ _ _ _) as [[category cname_target] cnt].
  destruct Hg as [Hs Hn Ho Hm Hx Hy]. destruct Hq as [Hq Hc].
  assert (forall s', Good s' -> quiet s' -> Frame s s' ->
                     retries_ s' = retries_ s -> done_ s' = done_ s ->
                     answer_sent_ s' = answer_sent_ s ->
                     handler_post s (bind (send s') (fun _ s => Ok false s)))
    as Hsend.
  { intros s' Hg' Hq' Hf' Hr' Hd' Ha'.
    destruct (send_spec s' Hg' Hq')
      as (s2 & E & Hg2 & Hf & Hp & _ & Hr & Hd & Ha & _).
    rewrite E. cbn. split; [exact Hg2|].
    split; [eapply Frame_trans; eassumption|].
    split; [congruence|]. right. split; [exact Hp|]. split; congruence. }
  destruct category; cbn;
    try (repeat split; cbn; trace_simpl; cbn in *; auto; lia).
  - (* CNAME *)
    destruct (RESOLVER_MAX_CNAME_CHAIN <=? cnt); cbn.
    + repeat split; cbn; trace_simpl; cbn in *; auto; lia.
    + match goal with |- context [doLookup_with _ ?s1] =>
        pose proof (doLookup_with_spec _ IH s1) as Hl;
        destruct (doLookup_with _ s1) as [[] s2| |] end; cbn in *.
      * destruct Hl as (Hg2 & Hf & Hr & Hp).
        -- good_tac.
        -- split; assumption.
        -- unfold Frame in *. cbn in *. auto.
      * exact I.
      * apply Hl; [good_tac | split; assumption].
  - (* REFERRAL *)
    destruct (first_ns incoming) as [rrs|]; cbn.
    + apply Hsend.
      * good_tac.
      * split; assumption.
      * split; reflexivity.
      * reflexivity.
      * reflexivity.
      * reflexivity.
    + repeat split; cbn; trace_simpl; cbn in *; auto; lia.
Qed.

Lemma doLookup_spec (fuel : nat) (s : State) :
  Good s -> quiet s -> lookup_post s (doLookup fuel s).
Proof.
  apply doLookup_with_spec. apply handleRecursiveAnswer_spec.
Qed.

(** ** The invariant of the event loop

    Between two handlers: the caller was signalled exactly when
    [answer_sent_] is set; a query that is done has answered; a query that
    has not answered has something outstanding; the retry counter has not
    wrapped while the query is not done. *)
Record Inv (r0 : N) (s : State) : Prop := mkInv
  { inv_good : Good s;
    inv_done : done_ s = true -> answer_sent_ s = true;
    inv_live : answer_sent_ s = false -> pending s = true;
    inv_retries : done_ s = false -> retries_ s <= r0 }.

Definition Safe {A} (P : State -> Prop) (r : Res A) : Prop :=
  match r with
  | Ok _ s' => P s'
  | OutOfFuel _ => True
  | AssertFailed _ => False
  end.

Lemma stop_inv (r0 : N) (resume : bool) (s : State) :
  Good s -> Inv r0 (stop resume s).
Proof.
  intros Hg. constructor.
  - apply stop_good. exact Hg.
  - intros _. apply stop_answer_sent.
  - rewrite stop_answer_sent. discriminate.
  - rewrite stop_done. discriminate.
Qed.

Lemma clientTimeout_inv (r0 : N) (s : State) :
  Inv r0 s -> Inv r0 (clientTimeout s).
Proof.
  intros [[Hs Hn Ho Hm Hx Hy] Hd Hl Hr]. unfold clientTimeout.
  destruct (answer_sent_ s) eqn:Ha; cbn.
  - destruct (client_timer_canceled_ s).
    + apply stop_inv. constructor; rewrite ?Ha; auto.
    + constructor; [constructor|..]; rewrite ?Ha; auto.
  - destruct (client_timer_canceled_ s).
    + apply stop_inv. good_tac.
    + constructor; [good_tac|..]; cbn; auto; try discriminate.
Qed.

Lemma enabled_fetch_quiet (s : State) :
  Good s -> (0 <? queries_out_ s) = true ->
  queries_out_ s = 1 /\ nsas_callback_out_ s = false.
Proof.
  intros [_ _ Ho _ _ _] Hq. apply N.ltb_lt in Hq.
  destruct (nsas_callback_out_ s); cbn in Ho; split; auto; lia.
Qed.

Lemma out_of_retries_inv (r0 : N) (s : State) : Good s -> Inv r0 (out_of_retries s).
Proof.
  intros [Hs Hn Ho Hm Hx Hy]. unfold out_of_retries. apply stop_inv.
  destruct (recursive_mode s), (answer_sent_ s) eqn:Ha; cbn; rewrite ?Ha;
    good_tac; rewrite ?Ha; auto; lia.
Qed.

Lemma out_of_retries_keeps (s : State) :
  upstream_ (out_of_retries s) = upstream_ s
  /\ query_timeout_ (out_of_retries s) = query_timeout_ s
  /\ retries_ (out_of_retries s) = retries_ s
  /\ queries_out_ (out_of_retries s) = queries_out_ s
  /\ cname_count_ (out_of_retries s) = cname_count_ s
  /\ question_ (out_of_retries s) = question_ s.
Proof.
  unfold out_of_retries.
  destruct (recursive_mode s); cbn; destruct (answer_sent_ s); cbn;
    match goal with |- context [stop ?b ?x] =>
      destruct (stop_keeps b x) as (K1 & K2 & K3 & K4 & K5 & K6 & _) end;
    rewrite K1, K2, K3, K4, K5, K6; cbn; auto 10.
Qed.

Lemma out_of_retries_frame (s : State) : Frame s (out_of_retries s).
Proof. destruct (out_of_retries_keeps s) as (K1 & K2 & _). split; assumption. Qed.

Lemma operator_call_inv (r0 : N) (fuel : nat) (result : IOFetchResult)
    (wire : Message) (cur_time : timeval) (s : State) :
  Inv r0 s -> (0 <? queries_out_ s) = true ->
  Safe (fun s' => Inv r0 s' /\ Frame s s')
       (operator_call fuel result wire cur_time s).
Proof.
  intros [Hg Hd Hl Hr] Hen.
  destruct (enabled_fetch_quiet s Hg Hen) as [Hq Hc].
  destruct Hg as [Hs Hn Ho Hm Hx Hy].
  assert (Good (set_queries_out 0 s)) as Hg0.
  { good_tac; rewrite ?Hc; cbn; auto; try lia; discriminate. }
  unfold operator_call. rewrite Hq, udec64_1.
  set (s0 := set_queries_out 0 s) in *.
  assert (Frame s s0) as Hf0 by (split; reflexivity).
  change (done_ s0) with (done_ s). change (retries_ s0) with (retries_ s).
  destruct (done_ s) eqn:Hdone; cbn [negb andb].
  2: destruct result; cbn [is_TIME_OUT negb andb].
  - (* already done *)
    cbn. split; [apply out_of_retries_inv; assumption|].
    eapply Frame_trans; [exact Hf0|apply out_of_retries_frame].
  - (* an answer *)
    set (s1 := emit (FromWire wire) _).
    assert (Good s1) as Hg1 by (subst s1; destruct Hg0; good_tac).
    assert (quiet s1) as Hq1 by (split; [reflexivity|exact Hc]).
    destruct (recursive_mode s1 && (m_rcode wire =? Rcode_NOERROR))%bool.
    + pose proof (handleRecursiveAnswer_spec fuel wire s1 Hg1 Hq1) as Hh.
      destruct (handleRecursiveAnswer fuel wire s1) as [final s2| |];
        cbn in Hh |- *; auto.
      destruct Hh as (Hg2 & Hf & Hr2 & Hfin).
      destruct final; cbn.
      * destruct (stop_keeps true (set_done true s2)) as (K1 & K2 & _).
        split.
        -- apply stop_inv. destruct Hg2. good_tac.
        -- split; [rewrite K1|rewrite K2]; apply Hf.
      * split; [|exact Hf]. constructor; cbn; auto; try discriminate.
        -- destruct Hg2; good_tac.
        -- destruct Hfin as [Ha|(Hp & _)]; [rewrite Ha; discriminate|auto].
        -- intros _. rewrite Hr2. auto.
    + cbn.
      match goal with |- Inv _ (stop ?b ?x) /\ _ =>
        destruct (stop_keeps b x) as (K1 & K2 & _) end.
      split.
      * apply stop_inv. subst s1. destruct Hg0. good_tac.
      * split; [rewrite K1|rewrite K2]; reflexivity.
  - (* a timeout *)
    destruct (retries_ s =? 0) eqn:Hret; cbn [negb].
    + cbn. split.
      * apply out_of_retries_inv. destruct Hg0. good_tac.
      * apply (Frame_trans _ (set_retries (udec 32 (retries_ s)) s0));
          [split; reflexivity|apply out_of_retries_frame].
    + match goal with |- Safe _ (send ?s1) =>
        destruct (send_spec s1)
          as (s2 & E & Hg2 & Hf & Hp & _ & Hr2 & Hd2 & Ha2 & _) end.
      * destruct Hg0. destruct (recursive_mode _); good_tac.
      * destruct (recursive_mode _); split; cbn; auto.
      * rewrite E. cbn. split.
        -- constructor; auto.
           ++ rewrite Hd2.
              destruct (recursive_mode _); cbn; rewrite Hdone; discriminate.
           ++ intros _. rewrite Hr2.
              apply N.eqb_neq in Hret. specialize (Hr eq_refl).
              destruct (recursive_mode _); cbn; unfold udec;
                (destruct (retries_ s =? 0) eqn:Hz;
                 [apply N.eqb_eq in Hz; congruence|lia]).
        -- destruct Hf as [F1 F2]. split; [rewrite F1|rewrite F2];
             destruct (recursive_mode _); reflexivity.
Qed.

Lemma handle_inv (r0 : N) (fuel : nat) (ev : Event) (s : State) :
  Inv r0 s -> enabled ev s = true ->
  Safe (fun s' => Inv r0 s' /\ Frame s s') (handle fuel ev s).
Proof.
  intros Hi Hen. destruct ev; cbn [handle enabled] in *.
  - (* lookup timer *)
    cbn. destruct (stop_keeps false (set_lookup_timer Finished s)) as (K1 & K2 & _).
    split; [|split; assumption].
    apply stop_inv. destruct Hi as [[]]. good_tac.
  - (* client timer *)
    cbn. split.
    + apply clientTimeout_inv. destruct Hi as [[] ? ? ?].
      constructor; [good_tac|..]; auto.
    + unfold clientTimeout. cbn.
      destruct (answer_sent_ s); cbn; destruct (client_timer_canceled_ s);
        try (split; reflexivity);
        match goal with |- Frame _ (stop ?b ?x) =>
          destruct (stop_keeps b x) as (K1 & K2 & _); split; assumption end.
  - (* NSAS success *)
    destruct Hi as [[Hs Hn Ho Hm Hx Hy] Hd Hl Hr]. rewrite Hen in *.
    cbn in Ho, Hn.
    assert (queries_out_ s = 0) as Hq by lia.
    cbn. split; [|split; reflexivity].
    unfold sendTo, nsasCallbackCalled, pending.
    constructor; [good_tac|..]; cbn; rewrite ?Hq, ?uinc64_0; cbn; auto;
      try lia; try discriminate.
  - (* NSAS unreachable *)
    destruct Hi as [[Hs Hn Ho Hm Hx Hy] Hd Hl Hr]. rewrite Hen in *.
    cbn in Ho, Hn. cbn.
    match goal with |- Inv _ (stop ?b ?x) /\ _ =>
      destruct (stop_keeps b x) as (K1 & K2 & _) end.
    split; [|split; assumption].
    apply stop_inv. unfold nsasCallbackCalled. good_tac; try discriminate.
  - (* fetch *)
    apply operator_call_inv; assumption.
  - (* the cache changed *)
    cbn. split; [|split; reflexivity].
    destruct Hi as [[] ? ? ?]. constructor; [good_tac|..]; auto.
Qed.

Lemma Safe_bind {A B} (P Q : State -> Prop) (r : Res A)
    (k : A -> State -> Res B) :
  Safe P r -> (forall a s, P s -> Safe Q (k a s)) -> Safe Q (bind r k).
Proof.
  destruct r; cbn; auto.
Qed.

Lemma run_inv (r0 : N) (fuel : nat) (evs : list Event) :
  forall s, Inv r0 s ->
    Safe (fun s' => Inv r0 s' /\ Frame s s') (run fuel evs s).
Proof.
  induction evs as [|ev evs IH]; intros s Hi; cbn [run].
  - cbn. split; [assumption|apply Frame_refl].
  - destruct (enabled ev s) eqn:Hen.
    + eapply Safe_bind; [apply handle_inv; eassumption|].
      cbn beta. intros _ s1 [Hi1 Hf1].
      specialize (IH s1 Hi1).
      destruct (run fuel evs s1); cbn in *; auto.
      destruct IH as [Hi2 Hf2]. split; [assumption|].
      eapply Frame_trans; eassumption.
    + apply IH. assumption.
Qed.

Lemma RunningQuery_new_eq (fuel : nat) (cfg : Config) (question : Question)
    (answer_message : Message) (cache : ResolverCache)
    (before : list Effect) :
  RunningQuery_new fuel cfg question answer_message cache before
  = doLookup fuel (constructed cfg question answer_message cache before).
Proof. reflexivity. Qed.

Lemma constructed_good (cfg : Config) (question : Question)
    (answer_message : Message) (cache : ResolverCache)
    (before : list Effect) :
  signals before = 0%nat -> nsas_outstanding before = 0%Z ->
  let s := constructed cfg question answer_message cache before in
  Good s /\ quiet s /\ upstream_ s = cfg_upstream cfg
  /\ retries_ s = cfg_retries cfg /\ trace s = before
  /\ answer_sent_ s = false /\ done_ s = false /\ cname_count_ s = 0.
Proof.
  intros Hs Hn. unfold constructed, quiet.
  destruct (0 <=? cfg_lookup_timeout cfg)%Z,
           (0 <=? cfg_client_timeout cfg)%Z; cbn;
    (split; [good_tac; discriminate|auto 10]).
Qed.

Lemma RunningQuery_new_inv (fuel : nat) (cfg : Config) (question : Question)
    (answer_message : Message) (cache : ResolverCache)
    (before : list Effect) :
  signals before = 0%nat -> nsas_outstanding before = 0%Z ->
  Safe (fun s' => Inv (cfg_retries cfg) s'
                  /\ upstream_ s' = cfg_upstream cfg)
       (RunningQuery_new fuel cfg question answer_message cache before).
Proof.
  intros Hs Hn. rewrite RunningQuery_new_eq.
  destruct (constructed_good cfg question answer_message cache before Hs Hn)
    as (Hg & Hq & Hu & Hr & _ & Ha0 & Hd0 & _).
  pose proof (doLookup_spec fuel _ Hg Hq) as Hl.
  destruct (doLookup fuel _) as [[] s'| |]; cbn in *; auto.
  destruct Hl as (Hg' & Hf & Hr' & Hp). split.
  - constructor; auto.
    + intros Hd. destruct Hp as [Ha|(_ & Hd' & _)]; [assumption|].
      congruence.
    + intros Ha. destruct Hp as [Ha'|(Hp & _)]; congruence.
    + intros _. rewrite Hr', Hr. apply N.le_refl.
  - destruct Hf as [F _]. congruence.
Qed.

(** ** Relations every member function respects

    A reflexive and transitive relation on states that every single
    assignment of the code respects is respected by every member function,
    by every handler and by every schedule, whether the call returns or
    not. *)

Section Preorder.

Variable R : State -> State -> Prop.
Hypothesis R_refl : forall s, R s s.
Hypothesis R_trans : forall a b c, R a b -> R b c -> R a c.
(** the calls other than those of the caller's callback *)
Hypothesis R_emit : forall e s, is_callback e = false -> R s (emit e s).
Hypothesis R_question : forall v s, R s (set_question v s).
Hypothesis R_answer_message : forall v s, R s (set_answer_message v s).
Hypothesis R_classified :
  forall incoming s,
    R s (set_cname_count
           (snd (classify (question_ s) incoming (q_name (question_ s))
                          (cname_count_ s) true)) s).
Hypothesis R_retries : forall v s, R s (set_retries v s).
Hypothesis R_client_timer : forall v s, R s (set_client_timer v s).
Hypothesis R_lookup_timer : forall v s, R s (set_lookup_timer v s).
Hypothesis R_queries_out : forall v s, R s (set_queries_out v s).
Hypothesis R_done : forall v s, R s (set_done v s).
Hypothesis R_cur_zone : forall v s, R s (set_cur_zone v s).
Hypothesis R_nsas_callback_out : forall v s, R s (set_nsas_callback_out v s).
Hypothesis R_current_ns_address :
  forall v s, R s (set_current_ns_address v s).
Hypothesis R_current_ns_qsent_time :
  forall v s, R s (set_current_ns_qsent_time v s).
Hypothesis R_cache : forall v s, R s (set_cache v s).
Hypothesis R_rand_calls : forall v s, R s (set_rand_calls v s).
(** the two member functions that call the caller's callback *)
Hypothesis stop_R : forall resume s, R s (stop resume s).
Hypothesis clientTimeout_R : forall s, R s (clientTimeout s).

Ltac R_peel :=
  first
    [ apply R_emit; reflexivity | apply R_question | apply R_answer_message
    | apply R_retries | apply R_client_timer
    | apply R_lookup_timer | apply R_queries_out | apply R_done
    | apply R_cur_zone | apply R_nsas_callback_out
    | apply R_current_ns_address | apply R_current_ns_qsent_time
    | apply R_cache | apply R_rand_calls ].

Ltac R_auto :=
  unfold cache_update_call, makeSERVFAIL, nsasCallbackCalled, sendTo;
  repeat first [ apply R_refl | eapply R_trans; [|R_peel] ].

Lemma send_R (s : State) : R s (state_of (send s)).
Proof.
  unfold send.
  destruct (0 <? N.of_nat (Datatypes.length (upstream_ s))); cbn.
  - R_auto.
  - destruct (nsas_callback_out_ s); cbn; R_auto.
Qed.

Lemma bind_R {A B} (s : State) (r : Res A) (k : A -> State -> Res B) :
  R s (state_of r) -> (forall a s', R s' (state_of (k a s'))) ->
  R s (state_of (bind r k)).
Proof.
  intros Hr Hk. destruct r; cbn in *; auto.
  eapply R_trans; [exact Hr|apply Hk].
Qed.

Lemma doLookup_with_R (handler : Message -> State -> Res bool) :
  (forall incoming s, R s (state_of (handler incoming s))) ->
  forall s, R s (state_of (doLookup_with handler s)).
Proof.
  intros Hh s. unfold doLookup_with.
  destruct (cache_lookup _ _ _ _ _) as [cached|].
  - eapply R_trans;
      [apply (R_emit (CacheLookup (q_name (question_ s)) (q_type (question_ s))
                                  (q_class (question_ s)))); reflexivity|].
    apply bind_R; [apply Hh|].
    intros [] s'; cbn; [apply stop_R|apply R_refl].
  - eapply R_trans; [|apply send_R]. R_auto.
Qed.

Lemma handleRecursiveAnswer_R (fuel : nat) :
  forall incoming s, R s (state_of (handleRecursiveAnswer fuel incoming s)).
Proof.
  induction fuel as [|fuel IH]; intros incoming s; [apply R_refl|].
  cbn [handleRecursiveAnswer].
  pose proof (R_classified incoming (emit (Classify (question_ s) incoming) s))
    as Hc. cbn in Hc.
  destruct (classify _ _ _ _ _) as [[category cname_target] cnt].
  cbn [snd] in Hc.
  eapply R_trans;
    [apply (R_emit (Classify (question_ s) incoming)); reflexivity|].
  eapply R_trans; [exact Hc|].
  destruct category; cbn; try (R_auto; fail).
  - destruct (RESOLVER_MAX_CNAME_CHAIN <=? cnt); cbn; [R_auto|].
    eapply R_trans; [|apply bind_R;
                       [apply doLookup_with_R; exact IH
                       |intros; apply R_refl]].
    R_auto.
  - destruct (first_ns incoming); cbn; [|R_auto].
    eapply R_trans; [|apply bind_R; [apply send_R|intros; apply R_refl]].
    R_auto.
Qed.

Lemma doLookup_R (fuel : nat) (s : State) : R s (state_of (doLookup fuel s)).
Proof. apply doLookup_with_R. apply handleRecursiveAnswer_R. Qed.

Lemma out_of_retries_R (s : State) : R s (out_of_retries s).
Proof.
  unfold out_of_retries. eapply R_trans; [|apply stop_R].
  destruct (recursive_mode s); cbn; destruct (answer_sent_ s); cbn; R_auto.
Qed.

Lemma operator_call_R (fuel : nat) (result : IOFetchResult) (wire : Message)
    (cur_time : timeval) (s : State) :
  R s (state_of (operator_call fuel result wire cur_time s)).
Proof.
  unfold operator_call. cbn.
  eapply R_trans; [apply (R_queries_out (udec 64 (queries_out_ s)))|].
  destruct (done_ s); cbn; [apply out_of_retries_R|].
  destruct result; cbn.
  - eapply R_trans;
      [apply (R_emit
                (UpdateRTT (current_ns_address s)
                           (compute_rtt cur_time (current_ns_qsent_time s))));
       reflexivity|].
    eapply R_trans; [apply (R_emit (FromWire wire)); reflexivity|].
    apply bind_R.
    + match goal with |- context [if ?c then _ else _] => destruct c end.
      * apply bind_R; [apply handleRecursiveAnswer_R|].
        intros; cbn; apply R_done.
      * cbn. R_auto.
    + intros _ s'. destruct (done_ s'); cbn; [apply stop_R|apply R_refl].
  - eapply R_trans; [apply R_retries|].
    destruct (retries_ s =? 0); cbn.
    + apply out_of_retries_R.
    + eapply R_trans; [|apply send_R].
      destruct (recursive_mode _); R_auto.
Qed.

Lemma handle_R (fuel : nat) (ev : Event) (s : State) :
  R s (state_of (handle fuel ev s)).
Proof.
  destruct ev; cbn [handle].
  - cbn. eapply R_trans; [|apply stop_R]. R_auto.
  - cbn. eapply R_trans; [|apply clientTimeout_R]. R_auto.
  - cbn. R_auto.
  - cbn. eapply R_trans; [|apply stop_R]. R_auto.
  - apply operator_call_R.
  - cbn. R_auto.
Qed.

Lemma run_R (fuel : nat) (evs : list Event) :
  forall s, R s (state_of (run fuel evs s)).
Proof.
  induction evs as [|ev evs IH]; intros s; cbn [run]; [apply R_refl|].
  destruct (enabled ev s); [|apply IH].
  apply bind_R; [apply handle_R|]. intros; apply IH.
Qed.

Lemma RunningQuery_new_R (fuel : nat) (cfg : Config) (question : Question)
    (answer_message : Message) (cache : ResolverCache)
    (before : list Effect) :
  R (constructed cfg question answer_message cache before)
    (state_of (RunningQuery_new fuel cfg question answer_message cache before)).
Proof. rewrite RunningQuery_new_eq. apply doLookup_R. Qed.

End Preorder.

(** The same for [stop] and [clientTimeout], when the relation is also
    respected by the calls of the caller's callback. *)
Section PreorderCallback.

Variable R : State -> State -> Prop.
Hypothesis R_refl : forall s, R s s.
Hypothesis R_trans : forall a b c, R a b -> R b c -> R a c.
Hypothesis R_emit : forall e s, R s (emit e s).
Hypothesis R_answer_message : forall v s, R s (set_answer_message v s).
Hypothesis R_client_timer : forall v s, R s (set_client_timer v s).
Hypothesis R_client_timer_canceled :
  forall s, R s (set_client_timer_canceled true s).
Hypothesis R_lookup_timer : forall v s, R s (set_lookup_timer v s).
Hypothesis R_done : forall v s, R s (set_done v s).
Hypothesis R_answer_sent : forall s, R s (set_answer_sent true s).
Hypothesis R_nsas_callback_out : forall v s, R s (set_nsas_callback_out v s).
Hypothesis R_cache : forall v s, R s (set_cache v s).
Hypothesis R_deleted : forall s, R s (set_deleted true s).

Ltac R_peel :=
  first
    [ apply R_emit | apply R_answer_message | apply R_client_timer
    | apply R_client_timer_canceled | apply R_lookup_timer | apply R_done
    | apply R_answer_sent | apply R_nsas_callback_out
    | apply R_cache | apply R_deleted ].

Ltac R_auto :=
  unfold cache_update_call, makeSERVFAIL;
  repeat first [ apply R_refl | eapply R_trans; [|R_peel] ].

Lemma stop_R' (resume : bool) (s : State) : R s (stop resume s).
Proof.
  unfold stop. cbn. destruct (answer_sent_ s); cbn.
  - destruct (lookup_timer s); cbn; try (R_auto; fail);
      destruct (client_timer s); cbn; try (R_auto; fail);
      destruct (0 <? queries_out_ s); cbn; try (R_auto; fail);
      destruct (nsas_callback_out_ s); cbn; R_auto.
  - destruct resume; R_auto.
Qed.

Lemma clientTimeout_R' (s : State) : R s (clientTimeout s).
Proof.
  unfold clientTimeout.
  destruct (answer_sent_ s); cbn; destruct (client_timer_canceled_ s);
    try (eapply R_trans; [|apply stop_R']); R_auto.
Qed.

End PreorderCallback.

(** *** The trace only grows *)

Definition extends (s s' : State) : Prop :=
  exists l, trace s' = trace s ++ l.

Lemma extends_refl (s : State) : extends s s.
Proof. exists []. symmetry. apply app_nil_r. Qed.

Lemma extends_trans (a b c : State) : extends a b -> extends b c -> extends a c.
Proof.
  intros [l1 H1] [l2 H2]. exists (l1 ++ l2). rewrite H2, H1.
  symmetry. apply app_assoc.
Qed.

Ltac extends_base :=
  first [ exact extends_refl | exact extends_trans
        | intros e s0; exists [e]; reflexivity
        | intros e s0 _; exists [e]; reflexivity
        | intros; exists []; cbn; symmetry; apply app_nil_r ].

Lemma stop_extends (resume : bool) (s : State) : extends s (stop resume s).
Proof. apply stop_R'; extends_base. Qed.

Lemma clientTimeout_extends (s : State) : extends s (clientTimeout s).
Proof. apply clientTimeout_R'; extends_base. Qed.

Ltac extends_tac :=
  first [ exact stop_extends | exact clientTimeout_extends | extends_base ].

Lemma handleRecursiveAnswer_extends (fuel : nat) (incoming : Message)
    (s : State) :
  extends s (state_of (handleRecursiveAnswer fuel incoming s)).
Proof. apply handleRecursiveAnswer_R; extends_tac. Qed.

Lemma doLookup_extends (fuel : nat) (s : State) :
  extends s (state_of (doLookup fuel s)).
Proof. apply doLookup_R; extends_tac. Qed.

Lemma handle_extends (fuel : nat) (ev : Event) (s : State) :
  extends s (state_of (handle fuel ev s)).
Proof. apply handle_R; extends_tac. Qed.

Lemma run_extends (fuel : nat) (evs : list Event) (s : State) :
  extends s (state_of (run fuel evs s)).
Proof. apply run_R; extends_tac. Qed.

Lemma extends_signals (s s' : State) :
  extends s s' -> (signals (trace s) <= signals (trace s'))%nat.
Proof.
  intros [l H]. rewrite H. unfold signals. rewrite count_app. lia.
Qed.

(** *** A query spawned by [resolve] satisfies the invariant *)

Lemma spawns_new (fuel : nat) (cfg : Config) (cache : ResolverCache)
    (question : Question) (r : Res unit) :
  spawns fuel cfg cache question r ->
  exists answer_message before,
    r = RunningQuery_new fuel cfg question answer_message cache before
    /\ signals before = 0%nat /\ nsas_outstanding before = 0%Z
    /\ fetches before = 0%nat.
Proof.
  intros [r' H|m b r' H].
  - unfold resolve in H.
    destruct (cache_lookup _ _ _ _ _) as [m|].
    + destruct (0 <? getRRCount SECTION_ANSWER m); [discriminate|].
      destruct (cache_lookup_rrset _ _ _ _); [discriminate|].
      injection H as <-. eexists _, _. split; [reflexivity|].
      repeat split; reflexivity.
    + destruct (cache_lookup_rrset _ _ _ _); [discriminate|].
      injection H as <-. eexists _, _. split; [reflexivity|].
      repeat split; reflexivity.
  - unfold resolve_server in H.
    destruct (cache_lookup _ _ _ _ _) as [m'|].
    + destruct (0 <? getRRCount SECTION_ANSWER m'); [discriminate|].
      destruct (cache_lookup_rrset _ _ _ _); [discriminate|].
      injection H as <-. eexists _, _. split; [reflexivity|].
      repeat split; reflexivity.
    + destruct (cache_lookup_rrset _ _ _ _); [discriminate|].
      injection H as <-. eexists _, _. split; [reflexivity|].
      repeat split; reflexivity.
Qed.

Lemma spawns_inv (fuel : nat) (cfg : Config) (cache : ResolverCache)
    (question : Question) (r : Res unit) :
  spawns fuel cfg cache question r ->
  Safe (fun s => Inv (cfg_retries cfg) s /\ upstream_ s = cfg_upstream cfg) r.
Proof.
  intros H. destruct (spawns_new _ _ _ _ _ H) as (m & tr & -> & Hs & Hn & _).
  apply RunningQuery_new_inv; assumption.
Qed.

Lemma run_ok_inv (r0 : N) (fuel : nat) (evs : list Event) (s s' : State) :
  Inv r0 s -> run fuel evs s = Ok tt s' -> Inv r0 s' /\ Frame s s'.
Proof.
  intros Hi E. pose proof (run_inv r0 fuel evs s Hi) as H.
  rewrite E in H. exact H.
Qed.

Lemma answered_stays (r0 : N) (fuel : nat) (evs : list Event) (s s' : State) :
  Inv r0 s -> answer_sent_ s = true -> run fuel evs s = Ok tt s' ->
  answer_sent_ s' = true /\ signals (trace s') = signals (trace s).
Proof.
  intros Hi Ha E.
  destruct (run_ok_inv r0 fuel evs s s' Hi E) as [[[Hs' _ _ _ _ _] _ _ _] _].
  destruct Hi as [[Hs _ _ _ _ _] _ _ _].
  pose proof (extends_signals s s') as Hle.
  pose proof (run_extends fuel evs s) as Hx. rewrite E in Hx. cbn in Hx.
  specialize (Hle Hx). rewrite Ha in Hs.
  destruct (answer_sent_ s'); [split; [reflexivity|congruence]|lia].
Qed.

Lemma send_assert_iff (s s' : State) :
  send s = AssertFailed s'
  <-> s' = s /\ upstream_ s = [] /\ nsas_callback_out_ s = true.
Proof.
  unfold send. destruct (upstream_ s) as [|a l] eqn:Hu; cbn.
  - destruct (nsas_callback_out_ s); split.
    + intros H. injection H as <-. auto.
    + intros (-> & _ & _). reflexivity.
    + discriminate.
    + intros (_ & _ & H). discriminate.
  - split; [discriminate|]. intros (_ & H & _). discriminate.
Qed.

(** ** The claims *)

(** C1 (single completion).  For a query that [resolve] did not answer from
    the cache, after any schedule of timer handlers, NSAS callbacks and fetch
    completions: the caller's callback has been called at most once, and
    exactly once precisely when [answer_sent_] is set; when the query has
    deleted itself the callback has been called exactly once; as long as it
    has not been called, a fetch or an NSAS lookup is outstanding; and once
    [answer_sent_] is set no later handler signals the caller again. *)
Theorem callback_exactly_once (fuel : nat) (cfg : Config)
    (cache : ResolverCache) (question : Question) (s0 : State)
    (evs : list Event) (s : State) :
  spawns fuel cfg cache question (Ok tt s0) ->
  run fuel evs s0 = Ok tt s ->
  (signals (trace s) <= 1)%nat
  /\ (signals (trace s) = 1%nat <-> answer_sent_ s = true)
  /\ (deleted s = true -> signals (trace s) = 1%nat)
  /\ (signals (trace s) = 0%nat -> pending s = true)
  /\ (answer_sent_ s = true ->
      forall evs' s', run fuel evs' s = Ok tt s' ->
        answer_sent_ s' = true /\ signals (trace s') = signals (trace s)).
Proof.
  intros Hsp E.
  destruct (spawns_inv _ _ _ _ _ Hsp) as [Hi0 _].
  destruct (run_ok_inv _ fuel evs s0 s Hi0 E) as [Hi _].
  pose proof Hi as [[Hs _ _ _ Hx _] _ Hl _].
  repeat split.
  - rewrite Hs. destruct (answer_sent_ s); lia.
  - rewrite Hs. destruct (answer_sent_ s); [reflexivity|discriminate].
  - intros Ha. rewrite Hs, Ha. reflexivity.
  - intros Hd. rewrite Hs, (Hx Hd). reflexivity.
  - intros H0. apply Hl. rewrite Hs in H0.
    destruct (answer_sent_ s); [discriminate|reflexivity].
  - eapply answered_stays; eassumption.
  - eapply answered_stays; eassumption.
Qed.

(** C6 (the assertion of [send]).  For a query constructed by [resolve],
    neither the constructor nor any schedule of handlers ends in the failed
    [assert(!nsas_callback_out_)] of [send], which is where [send] ends
    exactly when it runs with no forwarder and the flag set; and after every
    schedule the number of NSAS lookups asked for and neither answered nor
    cancelled is the flag, so at most one. *)
Theorem nsas_assert_holds (fuel : nat) (cfg : Config)
    (cache : ResolverCache) (question : Question) (r : Res unit) :
  spawns fuel cfg cache question r ->
  (forall s, r <> AssertFailed s)
  /\ (forall s0 evs, r = Ok tt s0 ->
        (forall s, run fuel evs s0 <> AssertFailed s)
        /\ (forall s, run fuel evs s0 = Ok tt s ->
              nsas_outstanding (trace s)
              = Z.of_N (b2n (nsas_callback_out_ s))
              /\ (0 <= nsas_outstanding (trace s) <= 1)%Z))
  /\ (forall s s', send s = AssertFailed s'
                   <-> s' = s /\ upstream_ s = []
                       /\ nsas_callback_out_ s = true).
Proof.
  intros Hsp. pose proof (spawns_inv _ _ _ _ _ Hsp) as H0.
  split; [|split].
  - intros s ->. exact H0.
  - intros s0 evs ->. cbn in H0. destruct H0 as [Hi0 _].
    pose proof (run_inv _ fuel evs s0 Hi0) as Hr. split.
    + intros s E. rewrite E in Hr. exact Hr.
    + intros s E. rewrite E in Hr. destruct Hr as [[[_ Hn _ _ _ _] _ _ _] _].
      split; [exact Hn|]. rewrite Hn.
      destruct (nsas_callback_out_ s); cbn; lia.
  - apply send_assert_iff.
Qed.

(** *** Answers are cached before they are handed over *)

Lemma cached_first_app (a b : list Effect) :
  cached_first a -> cached_first b -> cached_first (a ++ b).
Proof.
  intros Ha Hb l1 m l2 E Hm.
  apply app_eq_app in E. destruct E as [l [[E1 E2]|[E1 E2]]].
  - destruct l as [|e l].
    + rewrite app_nil_r in E1. subst a. cbn in E2.
      destruct (Hb [] m l2 (eq_sym E2) Hm) as [l0 H0].
      destruct l0; discriminate.
    + cbn in E2. injection E2 as <- E2. subst a.
      exact (Ha l1 m l eq_refl Hm).
  - subst l1. destruct (Hb l m l2 E2 Hm) as [l0 ->].
    exists (a ++ l0). apply app_assoc.
Qed.

Lemma cached_first_nil : cached_first [].
Proof. intros [|e l1] m l2 E; discriminate. Qed.

Lemma cached_first_quiet (e : Effect) :
  is_callback e = false -> cached_first [e].
Proof.
  intros He [|e1 [|e2 l1]] m l2 E; try discriminate.
  injection E as -> _. discriminate.
Qed.

Lemma cached_first_failure : cached_first [CallbackFailure].
Proof. intros [|e1 [|e2 l1]] m l2 E; discriminate. Qed.

Lemma cached_first_servfail (m : Message) :
  m_rcode m = Rcode_SERVFAIL -> cached_first [CallbackSuccess m].
Proof.
  intros Hm [|e1 [|e2 l1]] m' l2 E; try discriminate.
  injection E as -> _. contradiction.
Qed.

Lemma cached_first_update (m : Message) :
  cached_first [CacheUpdate m; CallbackSuccess m].
Proof.
  intros l1 m' l2 E Hm. destruct l1 as [|e1 [|e2 l1]]; try discriminate.
  - injection E as H1 H2 H3. subst. exists []. reflexivity.
  - destruct l1; discriminate.
Qed.

Definition caches_first (s s' : State) : Prop :=
  exists l, trace s' = trace s ++ l /\ cached_first l.

Lemma caches_first_refl (s : State) : caches_first s s.
Proof.
  exists []. split; [symmetry; apply app_nil_r|apply cached_first_nil].
Qed.

Lemma caches_first_trans (a b c : State) :
  caches_first a b -> caches_first b c -> caches_first a c.
Proof.
  intros (l1 & E1 & H1) (l2 & E2 & H2). exists (l1 ++ l2). split.
  - rewrite E2, E1. symmetry. apply app_assoc.
  - apply cached_first_app; assumption.
Qed.

Lemma caches_first_same (s s' : State) :
  trace s' = trace s -> caches_first s s'.
Proof.
  intros E. exists []. split; [rewrite E, app_nil_r; reflexivity|].
  apply cached_first_nil.
Qed.

Lemma caches_first_emit (e : Effect) (s : State) :
  is_callback e = false -> caches_first s (emit e s).
Proof.
  intros He. exists [e]. split; [reflexivity|].
  apply cached_first_quiet. exact He.
Qed.

(** What [stop] adds to the trace. *)
Lemma stop_trace (resume : bool) (s : State) :
  trace (stop resume s)
  = trace s
    ++ if answer_sent_ s then
         if timer_pending' (lookup_timer s) (client_timer s)
            || (0 <? queries_out_ s)
         then []
         else (if nsas_callback_out_ s
               then [NsasCancel (cur_zone_ s) (q_class (question_ s))]
               else []) ++ [DeleteThis]
       else if resume
            then [CacheUpdate (answer_message_ s);
                  CallbackSuccess (answer_message_ s)]
            else [CallbackFailure].
Proof.
  unfold stop, timer_pending'. cbn. destruct (answer_sent_ s); cbn.
  - destruct (lookup_timer s); cbn; rewrite ?app_nil_r; auto;
      destruct (client_timer s); cbn; rewrite ?app_nil_r; auto;
      destruct (0 <? queries_out_ s); cbn; rewrite ?app_nil_r; auto;
      destruct (nsas_callback_out_ s); cbn; rewrite <- ?app_assoc; auto.
  - destruct resume; cbn; rewrite <- ?app_assoc; reflexivity.
Qed.

Lemma stop_caches_first (resume : bool) (s : State) :
  caches_first s (stop resume s).
Proof.
  eexists. split; [apply stop_trace|].
  destruct (answer_sent_ s).
  - destruct (_ || _)%bool; [apply cached_first_nil|].
    apply cached_first_app; [|apply cached_first_quiet; reflexivity].
    destruct (nsas_callback_out_ s);
      [apply cached_first_quiet; reflexivity|apply cached_first_nil].
  - destruct resume; [apply cached_first_update|apply cached_first_failure].
Qed.

Lemma clientTimeout_caches_first (s : State) :
  caches_first s (clientTimeout s).
Proof.
  unfold clientTimeout. destruct (answer_sent_ s); cbn.
  - destruct (client_timer_canceled_ s);
      [apply stop_caches_first|apply caches_first_refl].
  - assert (caches_first s
              (emit (CallbackSuccess
                       (makeErrorMessage (answer_message_ s) Rcode_SERVFAIL))
                    (makeSERVFAIL (set_answer_sent true s)))) as H.
    { exists [CallbackSuccess
                (makeErrorMessage (answer_message_ s) Rcode_SERVFAIL)].
      split; [reflexivity|]. apply cached_first_servfail. reflexivity. }
    destruct (client_timer_canceled_ s); [|exact H].
    eapply caches_first_trans; [exact H|apply stop_caches_first].
Qed.

Ltac caches_first_tac :=
  first [ exact caches_first_refl | exact caches_first_trans
        | exact caches_first_emit | exact stop_caches_first
        | exact clientTimeout_caches_first
        | intros; apply caches_first_same; reflexivity ].

Lemma state_of_bind_const {A B} (r : Res A) (b : B) :
  state_of (bind r (fun _ s => Ok b s)) = state_of r.
Proof. destruct r; reflexivity. Qed.

Lemma spawns_caches_first (fuel : nat) (cfg : Config) (cache : ResolverCache)
    (question : Question) (s0 : State) :
  spawns fuel cfg cache question (Ok tt s0) -> cached_first (trace s0).
Proof.
  intros Hsp.
  destruct (spawns_new _ _ _ _ _ Hsp) as (m & tr & E & Hs & Hn & _).
  assert (caches_first (constructed cfg question m cache tr)
            (state_of (RunningQuery_new fuel cfg question m cache tr))) as H
    by (apply RunningQuery_new_R; caches_first_tac).
  rewrite <- E in H. cbn [state_of] in H. destruct H as (l & El & Hl).
  rewrite El.
  destruct (constructed_good cfg question m cache tr Hs Hn)
    as (_ & _ & _ & _ & Et & _).
  rewrite Et. apply cached_first_app; [|exact Hl].
  intros l1 x l2 Ex _. exfalso.
  assert (In (CallbackSuccess x) tr) as Hin
    by (rewrite Ex; apply in_or_app; right; left; reflexivity).
  clear - Hin Hs.
  induction tr as [|e tr IH]; [contradiction|].
  change (e :: tr) with ([e] ++ tr) in Hs. unfold signals in Hs.
  rewrite count_app in Hs. destruct Hin as [->|Hin].
  - unfold count in Hs. cbn in Hs. discriminate.
  - apply IH; [unfold signals; lia|exact Hin].
Qed.

Lemma send_extends (s : State) : extends s (state_of (send s)).
Proof. apply send_R; extends_tac. Qed.

Lemma snoc2_assoc {A} (l : list A) (a b : A) (k : list A) :
  ((l ++ [a]) ++ [b]) ++ k = l ++ a :: b :: k.
Proof. rewrite <- !app_assoc. reflexivity. Qed.

Lemma handler_caches_incoming (fuel : nat) (incoming : Message) (s : State)
    (category : Category) (cname_target : Name) (cnt : N) :
  classify (question_ s) incoming (q_name (question_ s)) (cname_count_ s) true
  = (category, cname_target, cnt) ->
  In category [ANSWER; ANSWERCNAME; REFERRAL; CNAME] ->
  exists l,
    trace (state_of (handleRecursiveAnswer (S fuel) incoming s))
    = trace s ++ Classify (question_ s) incoming :: CacheUpdate incoming :: l.
Proof.
  intros Hc Hin. cbn [handleRecursiveAnswer]. rewrite Hc.
  destruct category; cbn in Hin;
    try (exfalso; intuition discriminate); clear Hin.
  - exists []. cbn. rewrite <- (snoc2_assoc _ _ _ []), app_nil_r. reflexivity.
  - exists []. cbn. rewrite <- (snoc2_assoc _ _ _ []), app_nil_r. reflexivity.
  - cbn. destruct (RESOLVER_MAX_CNAME_CHAIN <=? cnt).
    + exists []. cbn. rewrite <- (snoc2_assoc _ _ _ []), app_nil_r. reflexivity.
    + rewrite state_of_bind_const.
      match goal with |- context [doLookup_with _ ?s1] =>
        destruct (doLookup_extends fuel s1) as [l El] end.
      unfold doLookup in El. rewrite El. cbn. exists l. apply snoc2_assoc.
  - cbn. destruct (first_ns incoming) as [rrs|].
    + rewrite state_of_bind_const.
      match goal with |- context [send ?s1] =>
        destruct (send_extends s1) as [l El] end.
      rewrite El. cbn. exists l. apply snoc2_assoc.
    + exists []. cbn. rewrite <- (snoc2_assoc _ _ _ []), app_nil_r. reflexivity.
Qed.

(** C3 (cache population).  In the trace of a query constructed by
    [resolve], after any schedule, every answer handed to the caller with an
    RCODE other than SERVFAIL is preceded immediately by the insertion of
    that answer into the cache; [stop(true)], when the caller has no answer
    yet, inserts the accumulated answer and then signals success with it;
    and [handleRecursiveAnswer] inserts an incoming message classified
    ANSWER, ANSWERCNAME, REFERRAL or CNAME right after classifying it,
    whatever happens next. *)
Theorem cache_population (fuel : nat) (cfg : Config) (cache : ResolverCache)
    (question : Question) (s0 : State) (evs : list Event) (s : State) :
  spawns fuel cfg cache question (Ok tt s0) ->
  run fuel evs s0 = Ok tt s ->
  cached_first (trace s)
  /\ (forall st, answer_sent_ st = false ->
        trace (stop true st)
        = trace st ++ [CacheUpdate (answer_message_ st);
                       CallbackSuccess (answer_message_ st)]
        /\ cache_ (stop true st)
           = cache_update (cache_ st) (answer_message_ st))
  /\ (forall n incoming st category cname_target cnt,
        classify (question_ st) incoming (q_name (question_ st))
                 (cname_count_ st) true
        = (category, cname_target, cnt) ->
        In category [ANSWER; ANSWERCNAME; REFERRAL; CNAME] ->
        exists l,
          trace (state_of (handleRecursiveAnswer (S n) incoming st))
          = trace st
            ++ Classify (question_ st) incoming :: CacheUpdate incoming :: l).
Proof.
  intros Hsp E. split; [|split].
  - assert (caches_first s0 (state_of (run fuel evs s0))) as H
      by (apply run_R; caches_first_tac).
    rewrite E in H. cbn [state_of] in H. destruct H as (l & El & Hl).
    rewrite El. apply cached_first_app; [|exact Hl].
    eapply spawns_caches_first; eassumption.
  - intros st Ha. split.
    + rewrite stop_trace, Ha. reflexivity.
    + unfold stop. cbn. rewrite Ha. reflexivity.
  - intros. eapply handler_caches_incoming; eassumption.
Qed.

(** *** A completion that arrives after [stop] *)

Lemma stop_answered (resume : bool) (s : State) :
  answer_sent_ s = true ->
  cache_ (stop resume s) = cache_ s
  /\ answer_message_ (stop resume s) = answer_message_ s
  /\ forall p, p DeleteThis = false ->
               (forall z c, p (NsasCancel z c) = false) ->
               count p (trace (stop resume s)) = count p (trace s).
Proof.
  intros Ha. split; [|split].
  - unfold stop. cbn. rewrite Ha. cbn.
    destruct (lookup_timer s); cbn; auto;
      destruct (client_timer s); cbn; auto;
      destruct (0 <? queries_out_ s); cbn; auto;
      destruct (nsas_callback_out_ s); cbn; auto.
  - apply stop_keeps.
  - intros p Hd Hc. rewrite stop_trace, Ha, count_app.
    destruct (_ || _)%bool; [unfold count; cbn; lia|].
    destruct (nsas_callback_out_ s); unfold count; cbn;
      rewrite ?Hd, ?Hc; cbn; lia.
Qed.

(** C10 (completion after [stop]).  When [done_] is set, the completion of
    a fetch, whatever its result and whatever the buffer holds, decrements
    [queries_out_], applies the UNREACHABLE penalty in recursive mode, makes
    the answer a SERVFAIL only if the caller has none yet, and enters [stop]
    with [resume] the negation of [answer_sent_]; nothing is parsed or
    classified; if the caller has its answer the cache, the answer and the
    caller are left alone, and otherwise what goes to the cache and to the
    caller is the SERVFAIL. *)
Theorem completion_after_done (fuel : nat) (result : IOFetchResult)
    (wire : Message) (cur_time : timeval) (s : State) :
  done_ s = true ->
  let s1 := set_queries_out (udec 64 (queries_out_ s)) s in
  let s2 :=
    if recursive_mode s
    then emit (UpdateRTT (current_ns_address s) UNREACHABLE) s1 else s1 in
  let s3 := if answer_sent_ s then s2 else makeSERVFAIL s2 in
  let s' := stop (negb (answer_sent_ s)) s3 in
  let servfail := makeErrorMessage (answer_message_ s) Rcode_SERVFAIL in
  let penalty :=
    if recursive_mode s
    then [UpdateRTT (current_ns_address s) UNREACHABLE] else [] in
  operator_call fuel result wire cur_time s = Ok tt s'
  /\ count is_parse_or_classify (trace s')
     = count is_parse_or_classify (trace s)
  /\ (answer_sent_ s = true ->
      count is_cache_update (trace s') = count is_cache_update (trace s)
      /\ signals (trace s') = signals (trace s)
      /\ cache_ s' = cache_ s
      /\ answer_message_ s' = answer_message_ s)
  /\ (answer_sent_ s = false ->
      trace s'
      = trace s ++ penalty ++ [CacheUpdate servfail; CallbackSuccess servfail]).
Proof.
  intros Hd s1 s2 s3 s' servfail penalty.
  assert (operator_call fuel result wire cur_time s = Ok tt s') as Eq.
  { unfold operator_call. cbn. rewrite Hd. cbn. unfold out_of_retries.
    subst s' s3 s2 s1. unfold recursive_mode. cbn.
    destruct (upstream_ s); cbn; destruct (answer_sent_ s) eqn:Ha; cbn;
      rewrite ?Ha; reflexivity. }
  split; [exact Eq|].
  destruct (answer_sent_ s) eqn:Ha.
  - assert (answer_sent_ s3 = true) as Ha3
      by (subst s3 s2 s1; destruct (recursive_mode s); exact Ha).
    destruct (stop_answered (negb true) s3 Ha3) as (Hc & Hm & Hp).
    assert (forall p, p DeleteThis = false ->
                      (forall z c, p (NsasCancel z c) = false) ->
                      (forall a r, p (UpdateRTT a r) = false) ->
                      count p (trace s') = count p (trace s)) as Hcount.
    { intros p H1 H2 H3. subst s'. rewrite (Hp p H1 H2).
      subst s3 s2 s1. destruct (recursive_mode s); cbn; [|reflexivity].
      rewrite count_snoc, H3. lia. }
    split; [apply Hcount; reflexivity|].
    split; [|intros; discriminate].
    intros _. split; [apply Hcount; reflexivity|].
    split; [apply Hcount; reflexivity|].
    subst s'. rewrite Hc, Hm. subst s3 s2 s1.
    destruct (recursive_mode s); split; reflexivity.
  - assert (trace s' = trace s ++ penalty
                       ++ [CacheUpdate servfail; CallbackSuccess servfail])
      as Et.
    { subst s'. rewrite stop_trace. subst s3 s2 s1 penalty servfail.
      destruct (recursive_mode s); cbn; rewrite Ha; cbn;
        rewrite <- ?app_assoc; reflexivity. }
    split; [|split; [intros; discriminate|intros _; exact Et]].
    rewrite Et, !count_app. subst penalty.
    destruct (recursive_mode s); unfold count; cbn; lia.
Qed.

(** *** The round-trip time *)

Lemma compute_rtt_eq (cur sent : timeval) :
  compute_rtt cur sent
  = if ((tv_sec sent <=? tv_sec cur)%Z && (tv_usec sent <? tv_usec cur)%Z)%bool
    then Z.to_N ((1000 * (tv_sec cur - tv_sec sent)
                  + (tv_usec cur - tv_usec sent) / 1000) mod 2 ^ 32)%Z
    else 1.
Proof.
  unfold compute_rtt, to_uint32.
  destruct (_ && _)%bool eqn:Hc; [|reflexivity].
  apply andb_true_iff in Hc. destruct Hc as [_ Hu]. apply Z.ltb_lt in Hu.
  f_equal. rewrite Z2N.id by (apply Z.mod_pos_bound; lia).
  rewrite Z.quot_div_nonneg by lia.
  apply Zplus_mod_idemp_l.
Qed.

(** The RTT the code reports.  On the completion of a fetch that is not a
    timeout, with the query not done, the first call made is [updateRTT] on
    the current address, with 1 when the clock reads less than at the send
    in the seconds, or less than or the same in the microseconds, and
    otherwise with 1000 times the difference of the seconds plus the
    difference of the microseconds divided by 1000, as a [uint32_t]. *)
Lemma rtt_reported (fuel : nat) (wire : Message) (cur_time : timeval)
    (s : State) :
  done_ s = false ->
  let sent := current_ns_qsent_time s in
  let rtt :=
    if ((tv_sec cur_time <? tv_sec sent)%Z
        || (tv_usec cur_time <=? tv_usec sent)%Z)%bool
    then 1
    else Z.to_N ((1000 * (tv_sec cur_time - tv_sec sent)
                  + (tv_usec cur_time - tv_usec sent) / 1000) mod 2 ^ 32)%Z in
  exists l,
    trace (state_of (operator_call fuel SUCCESS wire cur_time s))
    = trace s ++ UpdateRTT (current_ns_address s) rtt :: FromWire wire :: l.
Proof.
  intros Hd sent rtt.
  assert (rtt = compute_rtt cur_time sent) as ->.
  { rewrite compute_rtt_eq. subst rtt.
    destruct (Z.ltb_spec (tv_sec cur_time) (tv_sec sent)),
             (Z.leb_spec (tv_usec cur_time) (tv_usec sent)),
             (Z.leb_spec (tv_sec sent) (tv_sec cur_time)),
             (Z.ltb_spec (tv_usec sent) (tv_usec cur_time));
      cbn; try reflexivity; lia. }
  unfold operator_call. cbn. rewrite Hd. cbn.
  match goal with |- context [bind ?r ?k] =>
    assert (extends
              (emit (FromWire wire)
                 (emit (UpdateRTT (current_ns_address s)
                          (compute_rtt cur_time sent))
                    (set_queries_out (udec 64 (queries_out_ s)) s)))
              (state_of (bind r k))) as [l El]
  end.
  { apply (bind_R extends extends_trans).
    - match goal with |- context [if ?c then _ else _] => destruct c end.
      + apply (bind_R extends extends_trans);
          [apply handleRecursiveAnswer_extends|].
        intros. cbn. exists []. symmetry. apply app_nil_r.
      + cbn. exists []. symmetry. apply app_nil_r.
    - intros _ s1. destruct (done_ s1); cbn;
        [apply stop_extends|apply extends_refl]. }
  rewrite El. cbn. exists l. apply snoc2_assoc.
Qed.

(** *** Retries *)

(** Fetches posted so far, plus those the state still allows without a
    response: one if an NSAS lookup is outstanding, and one per retry left
    while the query is not done. *)
Definition budget (s : State) : Z :=
  (Z.of_nat (fetches (trace s)) + Z.of_N (b2n (nsas_callback_out_ s))
   + if done_ s then 0 else Z.of_N (retries_ s))%Z.

Lemma stop_fetches (resume : bool) (s : State) :
  fetches (trace (stop resume s)) = fetches (trace s).
Proof.
  rewrite stop_trace. unfold fetches. rewrite count_app.
  destruct (answer_sent_ s).
  - destruct (_ || _)%bool; [unfold count; cbn; lia|].
    destruct (nsas_callback_out_ s); unfold count; cbn; lia.
  - destruct resume; unfold count; cbn; lia.
Qed.

Lemma stop_nsas_le (resume : bool) (s : State) :
  b2n (nsas_callback_out_ (stop resume s)) <= b2n (nsas_callback_out_ s).
Proof.
  unfold stop. cbn.
  destruct (nsas_callback_out_ s) eqn:Hc, (answer_sent_ s); cbn.
  1,3: destruct (lookup_timer s); cbn; rewrite ?Hc; cbn; try lia;
      destruct (client_timer s); cbn; rewrite ?Hc; cbn; try lia;
      destruct (0 <? queries_out_ s); cbn; rewrite ?Hc; cbn; lia.
  all: destruct resume; cbn; rewrite Hc; cbn; lia.
Qed.

Lemma stop_budget (resume : bool) (s : State) :
  (budget (stop resume s) <= budget s)%Z.
Proof.
  unfold budget. rewrite stop_done, stop_fetches.
  pose proof (stop_nsas_le resume s). destruct (done_ s); lia.
Qed.

Lemma out_of_retries_budget (s : State) :
  (Z.of_nat (fetches (trace (out_of_retries s)))
   + Z.of_N (b2n (nsas_callback_out_ (out_of_retries s)))
   <= Z.of_nat (fetches (trace s)) + Z.of_N (b2n (nsas_callback_out_ s)))%Z
  /\ done_ (out_of_retries s) = true.
Proof.
  unfold out_of_retries. split; [|apply stop_done].
  rewrite stop_fetches.
  match goal with |- context [stop ?b ?x] =>
    pose proof (stop_nsas_le b x) as H end.
  destruct (recursive_mode s); cbn in *; destruct (answer_sent_ s); cbn in *;
    trace_simpl; lia.
Qed.

Lemma handle_budget (r0 : N) (fuel : nat) (ev : Event) (s s' : State) :
  Inv r0 s -> enabled ev s = true -> is_response ev = false ->
  handle fuel ev s = Ok tt s' -> (budget s' <= budget s)%Z.
Proof.
  intros Hi Hen Hr E. destruct ev; cbn [handle enabled is_response] in *.
  - injection E as <-.
    etransitivity; [apply stop_budget|]. unfold budget. cbn. lia.
  - injection E as <-. unfold clientTimeout. cbn.
    destruct (answer_sent_ s); cbn; destruct (client_timer_canceled_ s);
      try (etransitivity; [apply stop_budget|]); unfold budget; cbn;
      trace_simpl; lia.
  - injection E as <-. unfold budget, sendTo, nsasCallbackCalled. cbn.
    rewrite Hen. trace_simpl. cbn. lia.
  - injection E as <-.
    etransitivity; [apply stop_budget|].
    unfold budget, nsasCallbackCalled. cbn. trace_simpl.
    destruct (nsas_callback_out_ s), (done_ s); cbn; lia.
  - destruct result; [discriminate|].
    destruct Hi as [Hg _ _ _].
    destruct (enabled_fetch_quiet s Hg Hen) as [Hq Hc].
    unfold operator_call in E. cbn in E.
    destruct (done_ s) eqn:Hd; cbn in E.
    + injection E as <-.
      match goal with |- context [out_of_retries ?x] =>
        destruct (out_of_retries_budget x) as [H1 H2] end.
      unfold budget. rewrite H2, Hd. cbn in H1. lia.
    + destruct (retries_ s =? 0) eqn:Hz; cbn in E.
      * injection E as <-.
        match goal with |- context [out_of_retries ?x] =>
          destruct (out_of_retries_budget x) as [H1 H2] end.
        unfold budget. rewrite H2, Hd. cbn in H1. lia.
      * apply N.eqb_neq in Hz.
        assert (udec 32 (retries_ s) = retries_ s - 1) as Hu.
        { unfold udec. destruct (retries_ s =? 0) eqn:Hz'; [|reflexivity].
          apply N.eqb_eq in Hz'. contradiction. }
        unfold send, recursive_mode in E. cbn in E.
        destruct (upstream_ s) eqn:Hup; cbn in E; rewrite Hup in E;
          cbn in E; rewrite ?Hc in E;
          injection E as <-; unfold budget; cbn; trace_simpl;
          rewrite Hc, Hd, Hu; cbn; lia.
  - injection E as <-. unfold budget. cbn. lia.
Qed.

Lemma run_budget (r0 : N) (fuel : nat) (evs : list Event) :
  forall s s', Inv r0 s ->
    forallb (fun ev => negb (is_response ev)) evs = true ->
    run fuel evs s = Ok tt s' -> (budget s' <= budget s)%Z.
Proof.
  induction evs as [|ev evs IH]; intros s s' Hi Hall E; cbn [run] in E.
  - injection E as <-. lia.
  - cbn in Hall. apply andb_true_iff in Hall. destruct Hall as [Hev Hall].
    apply negb_true_iff in Hev.
    destruct (enabled ev s) eqn:Hen; [|eapply IH; eassumption].
    pose proof (handle_inv r0 fuel ev s Hi Hen) as Hh.
    destruct (handle fuel ev s) as [[] s1| |] eqn:Eh; cbn in E, Hh;
      try discriminate.
    destruct Hh as [Hi1 _].
    etransitivity; [eapply IH; eassumption|].
    eapply handle_budget; eassumption.
Qed.

(** C7 (retry bound).  A completion with TIME_OUT, with the query not done
    and retries left, decrements [retries_], applies the UNREACHABLE penalty
    in recursive mode and calls [send]; and for a query constructed by
    [resolve], from any state it reaches, as long as no fetch brings a
    response the fetches posted from then on, together with the one in
    flight, are at most the configured retries plus one. *)
Theorem retry_bound (fuel : nat) (cfg : Config) (cache : ResolverCache)
    (question : Question) (s0 : State) (evs1 : list Event) (s1 : State)
    (evs2 : list Event) (s2 : State) :
  spawns fuel cfg cache question (Ok tt s0) ->
  run fuel evs1 s0 = Ok tt s1 ->
  forallb (fun ev => negb (is_response ev)) evs2 = true ->
  run fuel evs2 s1 = Ok tt s2 ->
  (Z.of_nat (fetches (trace s2)) - Z.of_nat (fetches (trace s1))
   + Z.of_N (queries_out_ s1) <= Z.of_N (cfg_retries cfg) + 1)%Z
  /\ (forall n wire t st,
        done_ st = false -> retries_ st <> 0 ->
        let st1 :=
          set_retries (retries_ st - 1)
            (set_queries_out (udec 64 (queries_out_ st)) st) in
        let st2 :=
          if recursive_mode st
          then emit (UpdateRTT (current_ns_address st) UNREACHABLE) st1
          else st1 in
        operator_call n TIME_OUT wire t st = send st2).
Proof.
  intros Hsp E1 Hall E2. split.
  - destruct (spawns_inv _ _ _ _ _ Hsp) as [Hi0 _].
    destruct (run_ok_inv _ fuel evs1 s0 s1 Hi0 E1) as [Hi1 _].
    pose proof (run_budget _ fuel evs2 s1 s2 Hi1 Hall E2) as Hb.
    destruct Hi1 as [[_ _ Ho _ _ _] _ _ Hr]. unfold budget in Hb.
    assert (0 <= Z.of_N (b2n (nsas_callback_out_ s2))
                 + (if done_ s2 then 0 else Z.of_N (retries_ s2)))%Z
      by (destruct (done_ s2); lia).
    assert ((if done_ s1 then 0 else Z.of_N (retries_ s1))
            <= Z.of_N (cfg_retries cfg))%Z
      by (destruct (done_ s1); [lia|specialize (Hr eq_refl); lia]).
    lia.
  - intros n wire t st Hd Hz st1 st2. unfold operator_call. cbn.
    rewrite Hd. cbn. apply N.eqb_neq in Hz. rewrite Hz. cbn.
    subst st2 st1.
    assert (udec 32 (retries_ st) = retries_ st - 1) as ->
      by (unfold udec; rewrite Hz; reflexivity).
    reflexivity.
Qed.

(** *** The CNAME counter

    [cname_count_] is written by the classifier only.  The classifier counts
    the CNAMEs it reports: it leaves the count alone, or reports CNAME and
    adds one. *)
Definition counts_cnames : Prop :=
  forall q m t c f,
    snd (classify q m t c f) = c
    \/ (fst (fst (classify q m t c f)) = CNAME
        /\ snd (classify q m t c f) = c + 1).

(** The counter is within the bound, and a query whose counter is at the
    bound has nothing outstanding. *)
Definition Bounded (s : State) : Prop :=
  cname_count_ s <= RESOLVER_MAX_CNAME_CHAIN
  /\ (cname_count_ s = RESOLVER_MAX_CNAME_CHAIN -> quiet s).

Definition bounded_post {A} (r : Res A) : Prop :=
  match r with
  | Ok _ s' => Bounded s'
  | _ => True
  end.

Lemma clientTimeout_keeps (s : State) :
  cname_count_ (clientTimeout s) = cname_count_ s
  /\ (quiet s -> quiet (clientTimeout s)).
Proof.
  unfold clientTimeout.
  destruct (answer_sent_ s); cbn; destruct (client_timer_canceled_ s);
    try (match goal with |- context [stop ?b ?x] =>
           destruct (stop_keeps b x) as (_ & _ & _ & _ & K & _);
           rewrite K; split; [reflexivity|];
           intros; apply stop_quiet; assumption end);
    split; auto.
Qed.

Ltac bounded_lt H :=
  cbn; unfold Bounded; cbn; split; [lia|intros E; rewrite E in H; lia].

Section CnameBound.

Hypothesis classifier_counts : counts_cnames.

Lemma doLookup_with_bounded (handler : Message -> State -> Res bool) :
  (forall incoming s,
      quiet s -> cname_count_ s < RESOLVER_MAX_CNAME_CHAIN ->
      bounded_post (handler incoming s)) ->
  forall s, quiet s -> cname_count_ s < RESOLVER_MAX_CNAME_CHAIN ->
    bounded_post (doLookup_with handler s).
Proof.
  intros Hh s Hq Hc. unfold doLookup_with.
  destruct (cache_lookup _ _ _ _ _) as [cached|].
  - match goal with |- context [handler cached ?s1] =>
      pose proof (Hh cached s1 Hq Hc) as H;
      destruct (handler cached s1) as [final s2| |] end; cbn in *; auto.
    destruct final; cbn; [|exact H].
    destruct (stop_keeps true s2) as (_ & _ & _ & _ & K & _).
    destruct H as [H1 H2]. unfold Bounded. split; [rewrite K; exact H1|].
    rewrite K. intros E. apply stop_quiet. auto.
  - unfold send, quiet in *. cbn. destruct Hq as [Hq Hn]. rewrite Hn.
    destruct (0 <? _); cbn; bounded_lt Hc.
Qed.

Lemma handleRecursiveAnswer_bounded (fuel : nat) :
  forall incoming s,
    quiet s -> cname_count_ s < RESOLVER_MAX_CNAME_CHAIN ->
    bounded_post (handleRecursiveAnswer fuel incoming s).
Proof.
  induction fuel as [|fuel IH]; intros incoming s Hq Hc; [exact I|].
  cbn [handleRecursiveAnswer].
  pose proof (classifier_counts (question_ s) incoming (q_name (question_ s))
                                (cname_count_ s) true) as Hk.
  destruct (classify _ _ _ _ _) as [[category cname_target] cnt].
  cbn [fst snd] in Hk.
  assert (category <> CNAME -> cnt < RESOLVER_MAX_CNAME_CHAIN) as Hlt.
  { intros Hn. destruct Hk as [->|[Hk _]]; [exact Hc|contradiction]. }
  assert (cnt <= RESOLVER_MAX_CNAME_CHAIN) as Hle.
  { unfold RESOLVER_MAX_CNAME_CHAIN in *. destruct Hk as [->|[_ ->]]; lia. }
  destruct Hq as [Hq Hn].
  destruct category; cbn;
    try (specialize (Hlt ltac:(discriminate)); bounded_lt Hlt).
  - (* CNAME *)
    destruct (RESOLVER_MAX_CNAME_CHAIN <=? cnt) eqn:Hmax; cbn.
    + unfold Bounded. split; cbn; [exact Hle|]. intros _. split; assumption.
    + apply N.leb_gt in Hmax.
      match goal with |- context [doLookup_with _ ?s1] =>
        pose proof (doLookup_with_bounded _ IH s1) as Hl;
        destruct (doLookup_with _ s1) as [[] s2| |] end; cbn in *; auto.
      apply Hl; [split; assumption|exact Hmax].
  - (* REFERRAL *)
    specialize (Hlt ltac:(discriminate)).
    destruct (first_ns incoming) as [rrs|]; cbn.
    + unfold send. cbn. rewrite Hn.
      destruct (0 <? _); cbn; bounded_lt Hlt.
    + bounded_lt Hlt.
Qed.

Lemma operator_call_bounded (r0 : N) (fuel : nat) (result : IOFetchResult)
    (wire : Message) (cur_time : timeval) (s : State) :
  Inv r0 s -> Bounded s -> (0 <? queries_out_ s) = true ->
  bounded_post (operator_call fuel result wire cur_time s).
Proof.
  intros [Hg _ _ _] [Hb1 Hb2] Hen.
  destruct (enabled_fetch_quiet s Hg Hen) as [Hq Hc].
  assert (cname_count_ s < RESOLVER_MAX_CNAME_CHAIN) as Hlt.
  { destruct (N.eq_dec (cname_count_ s) RESOLVER_MAX_CNAME_CHAIN) as [E|E];
      [|lia].
    destruct (Hb2 E) as [Hq' _]. rewrite Hq in Hq'. discriminate. }
  assert (forall x, cname_count_ x = cname_count_ s -> Bounded (out_of_retries x))
    as Hgive.
  { intros x Ex. destruct (out_of_retries_keeps x) as (_ & _ & _ & _ & K & _).
    unfold Bounded; split; rewrite K, Ex; [lia|]. intros E. rewrite E in Hlt. lia. }
  unfold operator_call. rewrite Hq, udec64_1. cbn.
  destruct (done_ s); cbn; [apply Hgive; reflexivity|].
  destruct result; cbn.
  - match goal with |- context [if ?c then _ else _] => destruct c end.
    + match goal with |- context [handleRecursiveAnswer fuel wire ?s1] =>
        pose proof (handleRecursiveAnswer_bounded fuel wire s1) as Hh;
        destruct (handleRecursiveAnswer fuel wire s1) as [final s2| |] end;
        cbn in *; auto.
      specialize (Hh (conj eq_refl Hc) Hlt). destruct Hh as [H1 H2].
      destruct final; cbn.
      * destruct (stop_keeps true (set_done true s2)) as (_ & _ & _ & _ & K & _).
        unfold Bounded; split; rewrite K; [exact H1|]. intros E. apply stop_quiet. auto.
      * split; auto.
    + cbn.
      match goal with |- Bounded (stop ?b ?x) =>
        destruct (stop_keeps b x) as (_ & _ & _ & _ & K & _) end.
      unfold Bounded; split; rewrite K; cbn; [lia|]. intros E. rewrite E in Hlt. lia.
  - destruct (retries_ s =? 0); cbn; [apply Hgive; reflexivity|].
    unfold send. cbn.
    destruct (recursive_mode _); cbn; rewrite ?Hc; cbn;
      match goal with |- context [if ?c then _ else _] => destruct c end;
      bounded_lt Hlt.
Qed.

Lemma handle_bounded (r0 : N) (fuel : nat) (ev : Event) (s : State) :
  Inv r0 s -> Bounded s -> enabled ev s = true ->
  bounded_post (handle fuel ev s).
Proof.
  intros Hi [Hb1 Hb2] Hen. destruct ev; cbn [handle enabled] in *.
  - cbn.
    destruct (stop_keeps false (set_lookup_timer Finished s))
      as (_ & _ & _ & _ & K & _).
    unfold Bounded; split; rewrite K; [exact Hb1|]. intros E. apply stop_quiet. exact (Hb2 E).
  - cbn.
    destruct (clientTimeout_keeps (set_client_timer Finished s)) as [K Q].
    unfold Bounded; split; rewrite K; [exact Hb1|]. intros E. apply Q. exact (Hb2 E).
  - cbn. unfold Bounded. split; cbn; [exact Hb1|]. intros E.
    destruct (Hb2 E) as [_ Hn].
    rewrite Hen in Hn. discriminate.
  - cbn.
    match goal with |- Bounded (stop ?b ?x) =>
      destruct (stop_keeps b x) as (_ & _ & _ & _ & K & _) end.
    unfold Bounded; split; rewrite K; cbn; [exact Hb1|]. intros E. destruct (Hb2 E) as [_ Hn].
    rewrite Hen in Hn. discriminate.
  - eapply operator_call_bounded; [eassumption|split; assumption|assumption].
  - cbn. split; assumption.
Qed.

Lemma run_bounded (r0 : N) (fuel : nat) (evs : list Event) :
  forall s, Inv r0 s -> Bounded s -> bounded_post (run fuel evs s).
Proof.
  induction evs as [|ev evs IH]; intros s Hi Hb; cbn [run]; [exact Hb|].
  destruct (enabled ev s) eqn:Hen; [|apply IH; assumption].
  pose proof (handle_inv r0 fuel ev s Hi Hen) as Hh.
  pose proof (handle_bounded r0 fuel ev s Hi Hb Hen) as Hk.
  destruct (handle fuel ev s) as [[] s1| |]; cbn in *; auto.
  apply IH; [apply Hh|exact Hk].
Qed.

Lemma spawns_bounded (fuel : nat) (cfg : Config) (cache : ResolverCache)
    (question : Question) (r : Res unit) :
  spawns fuel cfg cache question r -> bounded_post r.
Proof.
  intros Hsp.
  destruct (spawns_new _ _ _ _ _ Hsp) as (m & tr & -> & Hs & Hn & _).
  rewrite RunningQuery_new_eq.
  destruct (constructed_good cfg question m cache tr Hs Hn)
    as (_ & Hq & _ & _ & _ & _ & _ & Hc).
  apply doLookup_with_bounded; [apply handleRecursiveAnswer_bounded|exact Hq|].
  rewrite Hc. reflexivity.
Qed.

Definition count_le (s s' : State) : Prop := cname_count_ s <= cname_count_ s'.

Lemma run_count_le (fuel : nat) (evs : list Event) (s : State) :
  count_le s (state_of (run fuel evs s)).
Proof.
  apply run_R; unfold count_le; try (intros; cbn; lia).
  - intros incoming s1. cbn.
    destruct (classifier_counts (question_ s1) incoming
                (q_name (question_ s1)) (cname_count_ s1) true)
      as [->|[_ ->]]; lia.
  - intros resume s1. destruct (stop_keeps resume s1) as (_ & _ & _ & _ & K & _).
    rewrite K. lia.
  - intros s1. destruct (clientTimeout_keeps s1) as [K _]. rewrite K. lia.
Qed.

End CnameBound.


Lemma clientTimeout_first (s : State) :
  answer_sent_ s = false -> client_timer_canceled_ s = false ->
  clientTimeout s
  = emit (CallbackSuccess
            (makeErrorMessage (answer_message_ s) Rcode_SERVFAIL))
         (makeSERVFAIL (set_answer_sent true s)).
Proof.
  intros Ha Hc. unfold clientTimeout. rewrite Ha. cbn. rewrite Hc.
  reflexivity.
Qed.

Lemma handler_answer_eq (n : nat) (incoming : Message) (s : State)
    (category : Category) (cname_target : Name) (cnt : N) :
  classify (question_ s) incoming (q_name (question_ s)) (cname_count_ s) true
  = (category, cname_target, cnt) ->
  category = ANSWER \/ category = ANSWERCNAME ->
  handleRecursiveAnswer (S n) incoming s
  = Ok true
       (set_answer_message
          (copyResponseMessage incoming (answer_message_ s))
          (cache_update_call incoming
             (set_cname_count cnt (emit (Classify (question_ s) incoming) s)))).
Proof.
  intros Hc [-> | ->]; cbn [handleRecursiveAnswer]; rewrite Hc; reflexivity.
Qed.

(** [operator()] on a response, the query not being done. *)
Lemma operator_call_response (fuel : nat) (wire : Message) (now : timeval)
    (s : State) :
  done_ s = false ->
  let s1 :=
    emit (FromWire wire)
      (emit (UpdateRTT (current_ns_address s)
               (compute_rtt now (current_ns_qsent_time s)))
         (set_queries_out (udec 64 (queries_out_ s)) s)) in
  operator_call fuel SUCCESS wire now s
  = bind
      (if recursive_mode s && (m_rcode wire =? Rcode_NOERROR) then
         bind (handleRecursiveAnswer fuel wire s1)
              (fun final s => Ok tt (set_done final s))
       else
         Ok tt
            (set_done true
               (set_answer_message
                  (copyResponseMessage wire (answer_message_ s)) s1)))
      (fun _ s => if done_ s then Ok tt (stop true s) else Ok tt s).
Proof.
  intros Hd s1. unfold operator_call.
  change (done_ (set_queries_out (udec 64 (queries_out_ s)) s))
    with (done_ s).
  rewrite Hd. reflexivity.
Qed.

(** A response that arrives after the caller has its answer, in recursive
    mode, classified as an answer. *)
Lemma late_answer (n : nat) (wire : Message) (now : timeval) (s : State)
    (category : Category) (cname_target : Name) (cnt : N) :
  Good s -> answer_sent_ s = true -> upstream_ s = [] -> done_ s = false ->
  (0 <? queries_out_ s) = true -> m_rcode wire = Rcode_NOERROR ->
  classify (question_ s) wire (q_name (question_ s)) (cname_count_ s) true
  = (category, cname_target, cnt) ->
  category = ANSWER \/ category = ANSWERCNAME ->
  exists s' l,
    handle (S n) (FetchCompleted SUCCESS wire now) s = Ok tt s'
    /\ trace s'
       = trace s
         ++ [UpdateRTT (current_ns_address s)
               (compute_rtt now (current_ns_qsent_time s));
             FromWire wire; Classify (question_ s) wire;
             CacheUpdate wire] ++ l
    /\ cache_ s' = cache_update (cache_ s) wire
    /\ signals (trace s') = signals (trace s).
Proof.
  intros Hg Ha Hup Hd Hq Hr Hcl Hcat.
  set (s1 := emit (FromWire wire)
               (emit (UpdateRTT (current_ns_address s)
                        (compute_rtt now (current_ns_qsent_time s)))
                  (set_queries_out (udec 64 (queries_out_ s)) s))).
  set (s2 := set_answer_message
               (copyResponseMessage wire (answer_message_ s1))
               (cache_update_call wire
                  (set_cname_count cnt (emit (Classify (question_ s1) wire) s1)))).
  assert (handle (S n) (FetchCompleted SUCCESS wire now) s
          = Ok tt (stop true (set_done true s2))) as Eq.
  { cbn [handle]. rewrite (operator_call_response (S n) wire now s Hd).
    cbv zeta. fold s1. unfold recursive_mode. rewrite Hup, Hr.
    cbn [andb N.eqb Rcode_NOERROR].
    rewrite (handler_answer_eq n wire s1 category cname_target cnt Hcl Hcat).
    reflexivity. }
  assert (answer_sent_ (set_done true s2) = true) as Ha2 by exact Ha.
  destruct (stop_answered true (set_done true s2) Ha2) as (K1 & _ & K3).
  destruct (stop_extends true (set_done true s2)) as [l El].
  exists (stop true (set_done true s2)), l.
  split; [exact Eq|]. split; [|split].
  - rewrite El. subst s2 s1. cbn. rewrite <- !app_assoc. reflexivity.
  - rewrite K1. reflexivity.
  - unfold signals. rewrite (K3 is_callback eq_refl (fun _ _ => eq_refl)).
    subst s2 s1. cbn. rewrite !count_snoc. cbn. lia.
Qed.

(** C2 (client deadline), as the code has it.  For a query constructed by
    [resolve], in forwarding mode as in recursive mode: when the client
    timer's handler runs before the caller has an answer, the caller gets
    the SERVFAIL through the success callback, the query is not stopped,
    and no later handler signals the caller again.  In recursive mode a
    NOERROR response that arrives later, while the query is not done, and is
    classified ANSWER or ANSWERCNAME is inserted into the cache, the caller
    not being signalled. *)
Theorem client_deadline (fuel : nat) (cfg : Config) (cache : ResolverCache)
    (question : Question) (s0 : State) (evs1 : list Event) (s1 : State) :
  spawns fuel cfg cache question (Ok tt s0) ->
  run fuel evs1 s0 = Ok tt s1 ->
  answer_sent_ s1 = false ->
  let servfail := makeErrorMessage (answer_message_ s1) Rcode_SERVFAIL in
  exists s2,
    handle fuel ClientTimerHandler s1 = Ok tt s2
    /\ trace s2 = trace s1 ++ [CallbackSuccess servfail]
    /\ m_rcode servfail = Rcode_SERVFAIL
    /\ done_ s2 = done_ s1 /\ deleted s2 = deleted s1
    /\ queries_out_ s2 = queries_out_ s1
    /\ nsas_callback_out_ s2 = nsas_callback_out_ s1
    /\ forall evs2 s3,
         run fuel evs2 s2 = Ok tt s3 ->
         signals (trace s3) = 1%nat
         /\ forall n wire now category cname_target cnt,
              upstream_ s3 = [] ->
              done_ s3 = false ->
              (0 <? queries_out_ s3) = true ->
              m_rcode wire = Rcode_NOERROR ->
              classify (question_ s3) wire (q_name (question_ s3))
                       (cname_count_ s3) true
              = (category, cname_target, cnt) ->
              category = ANSWER \/ category = ANSWERCNAME ->
              exists s4 l,
                handle (S n) (FetchCompleted SUCCESS wire now) s3 = Ok tt s4
                /\ trace s4
                   = trace s3
                     ++ [UpdateRTT (current_ns_address s3)
                           (compute_rtt now (current_ns_qsent_time s3));
                         FromWire wire; Classify (question_ s3) wire;
                         CacheUpdate wire] ++ l
                /\ cache_ s4 = cache_update (cache_ s3) wire
                /\ signals (trace s4) = 1%nat.
Proof.
  intros Hsp E1 Ha servfail.
  destruct (spawns_inv _ _ _ _ _ Hsp) as [Hi0 _].
  destruct (run_ok_inv _ fuel evs1 s0 s1 Hi0 E1) as [Hi1 _].
  pose proof Hi1 as [[Hs1 _ _ _ _ Hcan] _ _ _].
  assert (client_timer_canceled_ s1 = false) as Hc.
  { destruct (client_timer_canceled_ s1); [|reflexivity].
    rewrite (Hcan eq_refl) in Ha. discriminate. }
  assert (Inv (cfg_retries cfg)
              (clientTimeout (set_client_timer Finished s1))) as Hi2.
  { apply clientTimeout_inv. destruct Hi1 as [[] ? ? ?].
    constructor; [good_tac|..]; auto. }
  rewrite (clientTimeout_first (set_client_timer Finished s1) Ha Hc) in Hi2.
  eexists. split.
  { cbn [handle].
    rewrite (clientTimeout_first (set_client_timer Finished s1) Ha Hc).
    reflexivity. }
  repeat (split; [reflexivity|]).
  intros evs2 s3 E2.
  destruct (answered_stays _ fuel evs2 _ s3 Hi2 eq_refl E2) as [Ha3 Hs3].
  assert (signals (trace s3) = 1%nat) as Hs3'.
  { rewrite Hs3. cbn. rewrite signals_snoc, Hs1, Ha. reflexivity. }
  split; [exact Hs3'|].
  intros n wire now category cname_target cnt Hup Hd Hq Hr Hcl Hcat.
  destruct (run_ok_inv _ fuel evs2 _ s3 Hi2 E2) as [[Hg3 _ _ _] _].
  destruct (late_answer n wire now s3 category cname_target cnt
              Hg3 Ha3 Hup Hd Hq Hr Hcl Hcat) as (s4 & l & H1 & H2 & H3 & H4).
  exists s4, l. split; [exact H1|]. split; [exact H2|].
  split; [exact H3|]. rewrite H4. exact Hs3'.
Qed.

Lemma constructed_fields (cfg : Config) (question : Question)
    (answer_message : Message) (cache : ResolverCache)
    (before : list Effect) :
  question_ (constructed cfg question answer_message cache before) = question
  /\ cache_ (constructed cfg question answer_message cache before) = cache.
Proof.
  unfold constructed. destruct (0 <=? _)%Z, (0 <=? _)%Z; split; reflexivity.
Qed.

Lemma doLookup_miss (fuel : nat) (s : State) :
  Good s -> quiet s ->
  cache_lookup (cache_ s) (q_name (question_ s)) (q_type (question_ s))
               (q_class (question_ s))
               (initResponseMessage (question_ s) new_message) = None ->
  exists s',
    doLookup fuel s = Ok tt s'
    /\ answer_sent_ s' = answer_sent_ s /\ pending s' = true
    /\ signals (trace s') = signals (trace s).
Proof.
  intros Hg Hq Hp. unfold doLookup, doLookup_with. cbn. rewrite Hp.
  match goal with |- context [send ?x] =>
    destruct (send_spec x)
      as (s2 & E & Hg2 & _ & Hp2 & _ & _ & _ & Ha2 & _) end.
  - destruct Hg. good_tac.
  - exact Hq.
  - exists s2. split; [exact E|]. split; [exact Ha2|]. split; [exact Hp2|].
    destruct Hg2 as [Hs2 _ _ _ _ _]. destruct Hg as [Hs _ _ _ _ _].
    rewrite Hs2, Hs, Ha2. reflexivity.
Qed.

(** C5 (synchronous completion), as the code has it.  When the
    full-message probe of [resolve] finds no message and the single-RRset
    probe misses, a [RunningQuery] is constructed, its own probe in
    [doLookup] misses too, and [resolve] returns with the caller not
    signalled and a fetch or an NSAS lookup outstanding.  The caller is
    signalled before [resolve] returns only from the cache: by [resolve]
    itself, or in the constructor when the probe found a message without
    ANSWER records. *)
Theorem resolve_synchronous (fuel : nat) (cfg : Config)
    (cache : ResolverCache) (question : Question) :
  let probe :=
    cache_lookup cache (q_name question) (q_type question) (q_class question)
                 (initResponseMessage question new_message) in
  (probe = None ->
   cache_lookup_rrset cache (q_name question) (q_type question)
                      (q_class question) = None ->
   exists s,
     resolve fuel cfg cache question = Started (Ok tt s)
     /\ signals (trace s) = 0%nat /\ answer_sent_ s = false
     /\ pending s = true)
  /\ (forall s,
        resolve fuel cfg cache question = Started (Ok tt s) ->
        signals (trace s) <> 0%nat ->
        exists m, probe = Some m /\ getRRCount SECTION_ANSWER m = 0).
Proof.
  intros probe.
  assert (probe = None ->
          cache_lookup_rrset cache (q_name question) (q_type question)
                             (q_class question) = None ->
          exists s,
            resolve fuel cfg cache question = Started (Ok tt s)
            /\ signals (trace s) = 0%nat /\ answer_sent_ s = false
            /\ pending s = true) as Hmiss.
  { intros Hp Hr. unfold resolve. fold probe. rewrite Hp, Hr.
    rewrite RunningQuery_new_eq. cbn [app].
    destruct (constructed_good cfg question
                (initResponseMessage question new_message) cache
                [CacheLookup (q_name question) (q_type question)
                             (q_class question);
                 CacheLookupRRset (q_name question) (q_type question)
                                  (q_class question)]
                eq_refl eq_refl)
      as (Hg & Hq & _ & _ & Et & Ha & _).
    destruct (constructed_fields cfg question
                (initResponseMessage question new_message) cache
                [CacheLookup (q_name question) (q_type question)
                             (q_class question);
                 CacheLookupRRset (q_name question) (q_type question)
                                  (q_class question)]) as [Eq Ec].
    destruct (doLookup_miss fuel _ Hg Hq) as (s2 & E & Ha2 & Hp2 & Hs2).
    - rewrite Eq, Ec. exact Hp.
    - rewrite E. exists s2. split; [reflexivity|].
      rewrite Hs2, Et, Ha2, Ha. auto. }
  split; [exact Hmiss|].
  intros s E Hs. unfold resolve in E. fold probe in E.
  destruct probe as [m|] eqn:Hp.
  - exists m. split; [reflexivity|].
    destruct (0 <? getRRCount SECTION_ANSWER m) eqn:Hc; [discriminate|].
    apply N.ltb_ge in Hc. lia.
  - exfalso.
    destruct (cache_lookup_rrset _ _ _ _) eqn:Hr; [discriminate|].
    destruct (Hmiss eq_refl eq_refl) as (s' & E' & Hs' & _).
    unfold resolve in E'. fold probe in E'. rewrite Hp, Hr in E'.
    rewrite E' in E. injection E as <-. contradiction.
Qed.

(** C9 (the two entry points), as the code has it.  Handed a freshly
    constructed answer message, the entry point that takes the message, the
    buffer and the server does what the one that takes the callback does:
    the same cache probes in the same order, the same answer message, the
    same signal to the caller, and a [RunningQuery] constructed with the
    same arguments under the same condition. *)
Theorem resolve_equivalent (fuel : nat) (cfg : Config)
    (cache : ResolverCache) (question : Question) (buffer : list N) :
  resolve_server fuel cfg cache question new_message buffer
  = resolve fuel cfg cache question
  /\ forall r, spawns fuel cfg cache question r
               <-> resolve fuel cfg cache question = Started r
                   \/ exists m b, resolve_server fuel cfg cache question m b
                                  = Started r.
Proof.
  split; [reflexivity|].
  intros r. split.
  - intros [r' H|m b r' H]; [left; exact H|right; exists m, b; exact H].
  - intros [H|(m & b & H)];
      [apply spawns_resolve; exact H|eapply spawns_resolve_server; exact H].
Qed.

End Properties.

(** * The claims on concrete queries *)

Import Sample.

Lemma classify_simple_counts : counts_cnames.
Proof.
  intros q m t c f. cbn. unfold classify_simple.
  destruct (m_rcode m =? Rcode_NXDOMAIN); [left; reflexivity|].
  destruct (negb (m_rcode m =? Rcode_NOERROR)); [left; reflexivity|].
  destruct (m_answer m) as [|r l].
  - destruct (m_authority m); left; reflexivity.
  - destruct (negb (rrs_name r =? q_name q)%string); [left; reflexivity|].
    destruct (rrs_type r =? q_type q); [left; reflexivity|].
    destruct (rrs_type r =? RRType_CNAME); [|left; reflexivity].
    right. split; reflexivity.
Qed.

Ltac compute_it := vm_compute; reflexivity.
Ltac compute_all :=
  repeat match goal with |- _ /\ _ => split end; compute_it.

Lemma iter0_spawned : spawns 2 iterative empty_cache q_x (Ok tt iter0).
Proof. apply spawns_resolve. compute_it. Qed.

Lemma fwd0_spawned : spawns 2 forwarding empty_cache q_x (Ok tt fwd0).
Proof. apply spawns_resolve. compute_it. Qed.

Lemma alias0_spawned : spawns 2 iterative empty_cache q_alias (Ok tt alias0).
Proof. apply spawns_resolve. compute_it. Qed.

Lemma timeouts_run : run 2 timeouts iter0 = Ok tt (after timeouts iter0).
Proof. compute_it. Qed.

Lemma answered_run : run 2 answered iter0 = Ok tt (after answered iter0).
Proof. compute_it. Qed.

(** C1 on the query whose fetches all time out: it is deleted, the caller
    was signalled once. *)
Lemma callback_exactly_once_witness :
  spawns 2 iterative empty_cache q_x (Ok tt iter0)
  /\ run 2 timeouts iter0 = Ok tt (after timeouts iter0)
  /\ deleted (after timeouts iter0) = true
  /\ signals (trace (after timeouts iter0)) = 1%nat.
Proof.
  pose proof (callback_exactly_once 2 iterative empty_cache q_x iter0 timeouts
                (after timeouts iter0) iter0_spawned timeouts_run)
    as (_ & _ & H & _).
  assert (deleted (after timeouts iter0) = true) as Hd by compute_it.
  split; [exact iter0_spawned|]. split; [exact timeouts_run|].
  split; [exact Hd|]. apply H. exact Hd.
Defined.

(** C2 fails in forwarding mode: the client timer fires, the answer arrives
    from the forwarder afterwards, and nothing is inserted into the cache. *)
Lemma forwarding_late_answer_not_cached :
  spawns 2 forwarding empty_cache q_x (Ok tt fwd0)
  /\ schedulable 2 late fwd0 = true
  /\ run 2 late fwd0 = Ok tt (after late fwd0)
  /\ signals (trace (after late fwd0)) = 1%nat
  /\ count is_cache_update (trace (after late fwd0)) = 0%nat
  /\ cache_ (after late fwd0) = empty_cache
  /\ answer_message_ (after late fwd0)
     = mkMessage Opcode_QUERY Rcode_NOERROR [q_x]
                 [mkRRset "x.test." RRClass_IN RRType_A ["1.2.3.4"]] [] [].
Proof.
  split; [exact fwd0_spawned|]. compute_all.
Defined.

(** C2 as amended, on the forwarding query. *)
Lemma client_deadline_witness :
  spawns 2 forwarding empty_cache q_x (Ok tt fwd0)
  /\ run 2 [] fwd0 = Ok tt fwd0
  /\ answer_sent_ fwd0 = false
  /\ exists s2,
       handle 2 ClientTimerHandler fwd0 = Ok tt s2
       /\ trace s2
          = trace fwd0
            ++ [CallbackSuccess
                  (makeErrorMessage (answer_message_ fwd0) Rcode_SERVFAIL)]
       /\ done_ s2 = done_ fwd0.
Proof.
  assert (answer_sent_ fwd0 = false) as Ha by compute_it.
  destruct (@client_deadline collaborators 2 forwarding empty_cache q_x fwd0
              [] fwd0 fwd0_spawned eq_refl Ha)
    as (s2 & H1 & H2 & _ & H3 & _).
  split; [exact fwd0_spawned|]. split; [reflexivity|]. split; [exact Ha|].
  exists s2. split; [exact H1|]. split; [exact H2|exact H3].
Defined.

(** C3 on the query that gets its answer. *)
Lemma cache_population_witness :
  spawns 2 iterative empty_cache q_x (Ok tt iter0)
  /\ run 2 answered iter0 = Ok tt (after answered iter0)
  /\ cached_first (trace (after answered iter0)).
Proof.
  pose proof (cache_population 2 iterative empty_cache q_x iter0 answered
                (after answered iter0) iter0_spawned answered_run) as (H & _).
  split; [exact iter0_spawned|]. split; [exact answered_run|exact H].
Defined.


(** ** A classifier that walks the chain

    The comment in [handleRecursiveAnswer] has [classify()] set the target
    when it walks through the CNAME chain of the response.  This classifier
    does so and counts every CNAME it follows; the cache and the other
    collaborators are those of the examples above. *)

Module Walker.

(** Follows the chain that starts at [qname] through the ANSWER section.  An
    RRset that was followed is not considered again, and the count goes up
    for every CNAME followed.  The chain ends at an RRset of the type asked
    (an answer), or leaves the response (an unfinished CNAME). *)
Fixpoint chase (fuel : nat) (answer : list RRset) (qname : Name)
    (qtype : RRType) (followed : bool) (target : Name) (count : N)
  : Category * Name * N :=
  match fuel with
  | O => (EXTRADATA, target, count)
  | S fuel =>
      match find (fun r => (rrs_name r =? qname)%string) answer with
      | None =>
          if followed then (CNAME, target, count)
          else (INVNAMCLASS, target, count)
      | Some r =>
          if rrs_type r =? qtype then
            (if followed then ANSWERCNAME else ANSWER, target, count)
          else if rrs_type r =? RRType_CNAME then
            match rrs_rdata r with
            | [next] =>
                chase fuel
                      (filter (fun r => negb (rrs_name r =? qname)%string)
                              answer)
                      next qtype true next (uinc 32 count)
            | _ => (NOTSINGLE, target, count)
            end
          else (INVTYPE, target, count)
      end
  end.

Definition classify_chain (q : Question) (m : Message) (target : Name)
    (count : N) (follow : bool) : Category * Name * N :=
  if m_rcode m =? Rcode_NXDOMAIN then (NXDOMAIN, target, count)
  else if negb (m_rcode m =? Rcode_NOERROR) then (RCODE, target, count)
  else
    match m_answer m with
    | _ :: _ =>
        chase (S (List.length (m_answer m))) (m_answer m) (q_name q)
              (q_type q) false target count
    | [] =>
        match m_authority m with
        | _ :: _ => (REFERRAL, target, count)
        | [] => (EMPTY, target, count)
        end
    end.

Definition walker : Collaborators :=
  {| ResolverCache := ListCache;
     cache_lookup := lookup;
     cache_lookup_rrset := lookup_rrset;
     cache_update := update;
     classify := classify_chain;
     rand := fun n => N.of_nat n;
     UNREACHABLE := 4294967295;
     qsent_indeterminate := mkTimeval 0 0 |}.

(** x.test. has the address; every further name is an alias of the one
    before: ax.test. of x.test., aax.test. of ax.test., and so on. *)
Fixpoint alias (k : nat) : Name :=
  match k with
  | O => "x.test."
  | S k => String.append "a" (alias k)
  end.

(** The ANSWER section that leads from the [k]-th alias to the address:
    [k] CNAME RRsets and the A RRset. *)
Fixpoint links (k : nat) : list RRset :=
  match k with
  | O => [mkRRset (alias 0) RRClass_IN RRType_A ["1.2.3.4"]]
  | S k => mkRRset (alias (S k)) RRClass_IN RRType_CNAME [alias k] :: links k
  end.

Definition q_chain : Question := mkQuestion (alias 17) RRClass_IN RRType_A.

(** One response with the whole chain of 17 CNAMEs and the address. *)
Definition long_chain : Message :=
  mkMessage Opcode_QUERY Rcode_NOERROR [q_chain] (links 17) [] [].

(** The query [resolve] starts for the 17th alias. *)
Definition chain0 : @State walker :=
  match @resolve walker 2 iterative empty_cache q_chain with
  | Started r => state_of r
  | FromCache _ =>
      @constructed walker iterative q_chain new_message empty_cache []
  end.

(** The NSAS gives the root server, which answers with the whole chain. *)
Definition chain1 : @State walker :=
  state_of (@run walker 2 [NsasSuccess root_server t0;
                           FetchCompleted SUCCESS long_chain t1] chain0).

End Walker.


(** C5 fails when the cache holds a message without ANSWER records: the
    second query for a name that does not exist is answered by the
    constructor, before [resolve] returns. *)
Lemma resolve_signals_from_constructor :
  run 2 refused iter0 = Ok tt (after refused iter0)
  /\ cache_nx = mkListCache [(q_x, nx_x)] []
  /\ resolve 2 iterative cache_nx q_x
     = Started (Ok tt (started (resolve 2 iterative cache_nx q_x)))
  /\ signals (trace (started (resolve 2 iterative cache_nx q_x))) = 1%nat
  /\ trace (started (resolve 2 iterative cache_nx q_x))
     = [CacheLookup "x.test." RRType_A RRClass_IN;
        CacheLookupRRset "x.test." RRType_A RRClass_IN;
        CacheLookup "x.test." RRType_A RRClass_IN;
        Classify q_x nx_x; CacheUpdate nx_x; CallbackSuccess nx_x].
Proof. compute_all. Defined.

(** C6 on the query whose fetches all time out. *)
Lemma nsas_assert_holds_witness :
  spawns 2 iterative empty_cache q_x (Ok tt iter0)
  /\ (forall s, run 2 timeouts iter0 <> AssertFailed s)
  /\ (0 <= nsas_outstanding (trace (after timeouts iter0)) <= 1)%Z.
Proof.
  pose proof (nsas_assert_holds 2 iterative empty_cache q_x (Ok tt iter0)
                iter0_spawned) as (_ & H & _).
  destruct (H iter0 timeouts eq_refl) as [H1 H2].
  split; [exact iter0_spawned|]. split; [exact H1|].
  apply (H2 (after timeouts iter0)). exact timeouts_run.
Defined.

(** C7 on the query whose fetches all time out: two retries, three
    fetches. *)
Lemma retry_bound_witness :
  spawns 2 iterative empty_cache q_x (Ok tt iter0)
  /\ run 2 [] iter0 = Ok tt iter0
  /\ forallb (fun ev => negb (is_response ev)) timeouts = true
  /\ run 2 timeouts iter0 = Ok tt (after timeouts iter0)
  /\ fetches (trace (after timeouts iter0)) = 3%nat
  /\ (Z.of_nat (fetches (trace (after timeouts iter0)))
      - Z.of_nat (fetches (trace iter0)) + Z.of_N (queries_out_ iter0)
      <= Z.of_N (cfg_retries iterative) + 1)%Z.
Proof.
  assert (forallb (fun ev => negb (is_response ev)) timeouts = true) as Hall
    by compute_it.
  pose proof (retry_bound 2 iterative empty_cache q_x iter0 [] iter0 timeouts
                (after timeouts iter0) iter0_spawned eq_refl Hall timeouts_run)
    as (H & _).
  split; [exact iter0_spawned|]. split; [reflexivity|]. split; [exact Hall|].
  split; [exact timeouts_run|]. split; [compute_it|exact H].
Defined.

(** C8: the code against the claim.  The fetch is sent at 10 s and 500 us
    and completes at 12 s and 500 us, with the query not done: the time it
    took is 2000 ms, which is what the claim gives, and the code reports
    1 ms.  The test of the microseconds is strict, so the code reports 1 ms
    whenever the two readings agree in the microseconds, whatever the
    seconds. *)
Theorem rtt_equal_microseconds :
  done_ (after [NsasSuccess root_server t_sent] iter0) = false
  /\ current_ns_qsent_time (after [NsasSuccess root_server t_sent] iter0)
     = t_sent
  /\ rtt_as_specified t_received t_sent = 2000%Z
  /\ compute_rtt t_received t_sent = 1
  /\ trace (state_of
              (operator_call 2 SUCCESS a_x t_received
                 (after [NsasSuccess root_server t_sent] iter0)))
     = trace (after [NsasSuccess root_server t_sent] iter0)
       ++ [UpdateRTT (Some root_server) 1; FromWire a_x; Classify q_x a_x;
           CacheUpdate a_x;
           CacheUpdate (copyResponseMessage a_x
                          (initResponseMessage q_x new_message));
           CallbackSuccess (copyResponseMessage a_x
                              (initResponseMessage q_x new_message))]
  /\ (forall cur sent : timeval,
         tv_usec cur = tv_usec sent -> compute_rtt cur sent = 1).
Proof.
  do 5 (split; [compute_it|]).
  intros cur sent E. unfold compute_rtt. rewrite E, Z.ltb_irrefl.
  rewrite andb_false_r. reflexivity.
Qed.

(** The RTT reported on the same completion. *)
Lemma rtt_reported_witness :
  done_ (after [NsasSuccess root_server t_sent] iter0) = false
  /\ exists l,
       trace (state_of
                (operator_call 2 SUCCESS a_x t_received
                   (after [NsasSuccess root_server t_sent] iter0)))
       = trace (after [NsasSuccess root_server t_sent] iter0)
         ++ UpdateRTT (Some root_server) 1 :: FromWire a_x :: l.
Proof.
  assert (done_ (after [NsasSuccess root_server t_sent] iter0) = false) as Hd
    by compute_it.
  split; [exact Hd|].
  destruct (rtt_reported 2 a_x t_received
              (after [NsasSuccess root_server t_sent] iter0) Hd) as [l El].
  exists l.
  match type of El with _ = _ ++ ?e :: _ =>
    assert (e = UpdateRTT (Some root_server) 1) as Ee by compute_it;
    rewrite Ee in El
  end.
  exact El.
Defined.

(** C9 fails for an answer message that is not fresh: handed a message that
    holds a question and an answer already, the second entry point starts a
    query whose answer differs from the one the first starts. *)
Lemma resolve_server_reused_message :
  resolve_server 2 forwarding empty_cache q_x a_x []
  <> resolve 2 forwarding empty_cache q_x
  /\ answer_message_ (started (resolve 2 forwarding empty_cache q_x))
     = mkMessage Opcode_QUERY 0 [q_x] [] [] []
  /\ answer_message_
       (started (resolve_server 2 forwarding empty_cache q_x a_x []))
     = mkMessage Opcode_QUERY Rcode_NOERROR [q_x; q_x]
                 [mkRRset "x.test." RRClass_IN RRType_A ["1.2.3.4"]] [] [].
Proof.
  split; [|compute_all].
  intros H.
  assert (answer_message_
            (started (resolve_server 2 forwarding empty_cache q_x a_x []))
          = answer_message_ (started (resolve 2 forwarding empty_cache q_x)))
    as E by (rewrite H; reflexivity).
  vm_compute in E. discriminate E.
Defined.

(** C10 on a completion that arrives after the lookup timer stopped the
    query. *)
Lemma completion_after_done_witness :
  done_ gave_up = true
  /\ answer_sent_ gave_up = true
  /\ operator_call 2 SUCCESS a_x t1 gave_up
     = operator_call 2 TIME_OUT new_message t0 gave_up
  /\ count is_parse_or_classify
       (trace (state_of (operator_call 2 SUCCESS a_x t1 gave_up)))
     = count is_parse_or_classify (trace gave_up)
  /\ count is_cache_update
       (trace (state_of (operator_call 2 SUCCESS a_x t1 gave_up)))
     = count is_cache_update (trace gave_up).
Proof.
  assert (done_ gave_up = true) as Hd by compute_it.
  assert (answer_sent_ gave_up = true) as Ha by compute_it.
  pose proof (completion_after_done 2 SUCCESS a_x t1 gave_up Hd)
    as (H1 & H2 & H3 & _).
  pose proof (completion_after_done 2 TIME_OUT new_message t0 gave_up Hd)
    as (H1' & _).
  cbv zeta in H1, H2, H3, H1'.
  split; [exact Hd|]. split; [exact Ha|].
  split; [rewrite H1, H1'; reflexivity|].
  rewrite H1. cbn [state_of]. split; [exact H2|]. apply (H3 Ha).
Defined.

(** * Further properties of the running query *)

Section Shape.

Context {collaborators : Collaborators}.

(** ** What [handleRecursiveAnswer] and [doLookup] can do

    Between the calls of [send] and [stop] they only classify, update the
    cache and rewrite the question, the answer and the zone. *)

Definition is_silent (e : Effect) : bool :=
  match e with
  | CacheLookup _ _ _ | Classify _ _ | CacheUpdate _ => true
  | _ => false
  end.

Record Silent (s s' : State) : Prop := mkSilent
  { sil_upstream : upstream_ s' = upstream_ s;
    sil_query_timeout : query_timeout_ s' = query_timeout_ s;
    sil_retries : retries_ s' = retries_ s;
    sil_client_timer : client_timer s' = client_timer s;
    sil_canceled : client_timer_canceled_ s' = client_timer_canceled_ s;
    sil_lookup_timer : lookup_timer s' = lookup_timer s;
    sil_queries_out : queries_out_ s' = queries_out_ s;
    sil_done : done_ s' = done_ s;
    sil_answer_sent : answer_sent_ s' = answer_sent_ s;
    sil_nsas : nsas_callback_out_ s' = nsas_callback_out_ s;
    sil_address : current_ns_address s' = current_ns_address s;
    sil_qsent : current_ns_qsent_time s' = current_ns_qsent_time s;
    sil_rand : rand_calls s' = rand_calls s;
    sil_deleted : deleted s' = deleted s;
    sil_trace :
      exists l, trace s' = trace s ++ l
                /\ Forall (fun e => is_silent e = true) l }.

Lemma Silent_refl (s : State) : Silent s s.
Proof.
  constructor; try reflexivity. exists []. split; [|constructor].
  symmetry. apply app_nil_r.
Qed.

Lemma Silent_trans (a b c : State) : Silent a b -> Silent b c -> Silent a c.
Proof.
  intros [] []. constructor; try congruence.
  destruct sil_trace0 as (l1 & E1 & F1), sil_trace1 as (l2 & E2 & F2).
  exists (l1 ++ l2). split.
  - rewrite E2, E1. symmetry. apply app_assoc.
  - apply Forall_app. split; assumption.
Qed.

(** How a call that is not final went on: with [send], or with
    [stop(true)]. *)
Inductive Continued (s s' : State) : Prop :=
| continued_send (s1 : State) :
    Silent s s1 -> send s1 = Ok tt s' -> Continued s s'
| continued_stop (s1 : State) :
    Silent s s1 -> s' = stop true s1 -> Continued s s'.

Lemma Continued_after (s s1 s' : State) :
  Silent s s1 -> Continued s1 s' -> Continued s s'.
Proof.
  intros H [s2 H2 E|s2 H2 E].
  - eapply continued_send; [eapply Silent_trans; eassumption|exact E].
  - eapply continued_stop; [eapply Silent_trans; eassumption|exact E].
Qed.

Ltac silent_tac :=
  constructor; try reflexivity;
  eexists; split;
  [cbn; rewrite <- ?app_assoc; reflexivity
  |repeat (constructor; try reflexivity)].

Lemma doLookup_with_shape (handler : Message -> State -> Res bool) :
  (forall incoming s final s',
      handler incoming s = Ok final s' ->
      if final then Silent s s' else Continued s s') ->
  forall s s', doLookup_with handler s = Ok tt s' -> Continued s s'.
Proof.
  intros Hh s s' E. unfold doLookup_with in E.
  set (s0 := emit _ s) in E.
  assert (Silent s s0) as H0 by (subst s0; silent_tac).
  destruct (cache_lookup _ _ _ _ _) as [cached|].
  - destruct (handler cached s0) as [final s1| |] eqn:Eh; cbn in E;
      try discriminate.
    specialize (Hh cached s0 final s1 Eh).
    destruct final; injection E as <-.
    + eapply continued_stop; [eapply Silent_trans; eassumption|reflexivity].
    + eapply Continued_after; eassumption.
  - eapply continued_send; [|exact E].
    eapply Silent_trans; [exact H0|]. silent_tac.
Qed.

Lemma handleRecursiveAnswer_shape (fuel : nat) :
  forall incoming s final s',
    handleRecursiveAnswer fuel incoming s = Ok final s' ->
    if final then Silent s s' else Continued s s'.
Proof.
  induction fuel as [|fuel IH]; intros incoming s final s' E; [discriminate|].
  cbn [handleRecursiveAnswer] in E.
  destruct (classify _ _ _ _ _) as [[category cname_target] cnt].
  destruct category; cbn in E;
    try (injection E as <- <-; silent_tac).
  - (* CNAME *)
    destruct (RESOLVER_MAX_CNAME_CHAIN <=? cnt); cbn in E.
    + injection E as <- <-. silent_tac.
    + match type of E with context [doLookup_with _ ?s1] =>
        destruct (doLookup_with (handleRecursiveAnswer fuel) s1)
          as [[] s2| |] eqn:El; cbn in E; try discriminate;
        pose proof (doLookup_with_shape _ IH s1 s2 El) as Hc;
        assert (Silent s s1) as H1 by silent_tac
      end.
      injection E as <- <-. eapply Continued_after; eassumption.
  - (* REFERRAL *)
    destruct (first_ns incoming) as [rrs|]; cbn in E.
    + match type of E with context [send ?s1] =>
        destruct (send s1) as [[] s2| |] eqn:Es; cbn in E; try discriminate;
        assert (Silent s s1) as H1 by silent_tac
      end.
      injection E as <- <-. eapply continued_send; eassumption.
    + injection E as <- <-. silent_tac.
Qed.

Lemma doLookup_shape (fuel : nat) (s s' : State) :
  doLookup fuel s = Ok tt s' -> Continued s s'.
Proof. apply doLookup_with_shape. apply handleRecursiveAnswer_shape. Qed.

End Shape.

(** ** The timers and the deletion of the query *)

Section Timers.

Context {collaborators : Collaborators}.

Definition is_unset (t : Timer) : bool :=
  match t with
  | Unset => true
  | _ => false
  end.

(** What holds of the timers at every point of a handler.  [l] and [c] tell
    whether the constructor armed the lookup timer and the client timer.  A
    timer whose wait was cancelled belongs to a query with nothing
    outstanding; [client_timer_canceled_] is set after the handler of the
    lookup timer has run; a deleted query has no timer pending and nothing
    outstanding, and the handler of one of its timers has run; a query that
    answered while something was outstanding did so from the handler of one
    of its timers. *)
Record Wired (l c : bool) (s : State) : Prop := mkWired
  { wd_lookup_armed : is_unset (lookup_timer s) = negb l;
    wd_client_armed : is_unset (client_timer s) = negb c;
    wd_lookup :
      lookup_timer s = Aborting ->
      quiet s /\ client_timer_canceled_ s = false;
    wd_canceled :
      client_timer_canceled_ s = true -> lookup_timer s = Finished;
    wd_client :
      client_timer s = Aborting ->
      quiet s /\ client_timer_canceled_ s = true;
    wd_deleted :
      deleted s = true ->
      timer_pending (lookup_timer s) = false
      /\ timer_pending (client_timer s) = false /\ quiet s
      /\ (client_timer s = Finished \/ lookup_timer s = Finished);
    wd_answered :
      answer_sent_ s = true ->
      quiet s \/ client_timer s = Finished \/ lookup_timer s = Finished }.

(** What holds between two handlers: moreover, once the handler of the
    lookup timer has run the query is done and has answered, and if nothing
    is outstanding it is deleted or waits for the handler of the client
    timer it cancelled. *)
Record Timers (l c : bool) (s : State) : Prop := mkTimers
  { tm_wired : Wired l c s;
    tm_finished :
      lookup_timer s = Finished -> done_ s = true /\ answer_sent_ s = true;
    tm_last :
      lookup_timer s = Finished -> quiet s -> deleted s = false ->
      client_timer s = Aborting }.

(** A state in which [send] or [stop] may be called from [doLookup] or from
    the handler of a response. *)
Record Calm (l c : bool) (s : State) : Prop := mkCalm
  { calm_wired : Wired l c s;
    calm_quiet : quiet s;
    calm_lookup : lookup_timer s <> Aborting;
    calm_client : client_timer s <> Aborting;
    calm_deleted : deleted s = false;
    calm_answered :
      answer_sent_ s = true ->
      client_timer s = Finished \/ lookup_timer s = Finished;
    calm_finished :
      lookup_timer s = Finished -> answer_sent_ s = true }.

Ltac tm_tac :=
  unfold quiet in *; cbn in *; intros;
  repeat match goal with
         | H : (_ <? _) = true |- _ => apply N.ltb_lt in H
         | H : (_ <? _) = false |- _ => apply N.ltb_ge in H
         end;
  try discriminate;
  intuition (try discriminate; try congruence; try lia);
  try match goal with
      | |- ?b = false =>
          destruct b eqn:?;
          intuition (try discriminate; try congruence)
      end.

Lemma stop_wired (l c resume : bool) (s : State) :
  Wired l c s ->
  lookup_timer s <> Aborting -> client_timer s <> Aborting ->
  (answer_sent_ s = false ->
   quiet s \/ client_timer s = Finished \/ lookup_timer s = Finished) ->
  (answer_sent_ s = true ->
   (lookup_timer s = Waiting \/ client_timer s = Waiting -> quiet s)
   /\ (client_timer s = Finished \/ lookup_timer s = Finished)) ->
  (answer_sent_ s = false -> lookup_timer s = Finished -> ~ quiet s) ->
  Timers l c (stop resume s).
Proof.
  intros [A1 A2 T1 T2 T3 T4 T5] Hl Hc Hu Ha Hf. unfold stop.
  destruct (answer_sent_ s) eqn:Es; cbn; rewrite ?Es; cbn.
  - destruct (lookup_timer s) eqn:El; cbn; try congruence;
      try (constructor; [constructor|..]; cbn; rewrite ?El; tm_tac; fail).
    all: destruct (client_timer s) eqn:Ec; cbn; try congruence;
      try (constructor; [constructor|..]; cbn; rewrite ?El, ?Ec; tm_tac;
           fail).
    all: destruct (0 <? queries_out_ s) eqn:Eq; cbn;
      try (constructor; [constructor|..]; cbn; rewrite ?El, ?Ec; tm_tac;
           fail).
    all: destruct (nsas_callback_out_ s) eqn:En;
      (constructor; [constructor|..]); cbn; rewrite ?El, ?Ec; tm_tac.
  - destruct resume; (constructor; [constructor|..]); cbn; tm_tac.
Qed.

Lemma stop_calm (l c resume : bool) (s : State) :
  Calm l c s -> Timers l c (stop resume s).
Proof.
  intros [Ht Hq Hl Hc Hd Ha Hf]. apply stop_wired; auto.
  intros Hu H. rewrite (Hf H) in Hu. discriminate.
Qed.

Lemma send_timers (l c : bool) (s s' : State) :
  Calm l c s ->
  (lookup_timer s = Finished -> done_ s = true) ->
  send s = Ok tt s' -> Timers l c s'.
Proof.
  intros [[A1 A2 T1 T2 T3 T4 T5] [Hq Hn] Hl Hc Hd Ha Hf] Hdone E.
  unfold send in E.
  destruct (0 <? N.of_nat _).
  - injection E as <-.
    (constructor; [constructor|..]); cbn; rewrite ?Hq, ?uinc64_0; tm_tac.
  - rewrite Hn in E. injection E as <-.
    (constructor; [constructor|..]); cbn; tm_tac.
Qed.

Lemma Calm_same (l c : bool) (s s' : State) :
  lookup_timer s' = lookup_timer s -> client_timer s' = client_timer s ->
  client_timer_canceled_ s' = client_timer_canceled_ s ->
  queries_out_ s' = queries_out_ s ->
  nsas_callback_out_ s' = nsas_callback_out_ s ->
  deleted s' = deleted s -> answer_sent_ s' = answer_sent_ s ->
  Calm l c s -> Calm l c s'.
Proof.
  intros E1 E2 E3 E4 E5 E6 E7 [[A1 A2 T1 T2 T3 T4 T5] Hq Hl Hc Hd Ha Hf].
  unfold quiet in *.
  constructor; [constructor|..]; unfold quiet;
    rewrite ?E1, ?E2, ?E3, ?E4, ?E5, ?E6, ?E7; assumption.
Qed.

Lemma Silent_calm (l c : bool) (s s' : State) :
  Silent s s' -> Calm l c s -> Calm l c s'.
Proof. intros []. apply Calm_same; assumption. Qed.

Lemma Continued_timers (l c : bool) (s s' : State) :
  Calm l c s -> (lookup_timer s = Finished -> done_ s = true) ->
  Continued s s' -> Timers l c s'.
Proof.
  intros Hc Hd [s1 H1 E|s1 H1 ->].
  - eapply send_timers; [eapply Silent_calm; eassumption| |exact E].
    rewrite (sil_lookup_timer _ _ H1), (sil_done _ _ H1). exact Hd.
  - apply stop_calm. eapply Silent_calm; eassumption.
Qed.

(** [send] and [stop] leave a timer whose handler has not run in that
    state. *)
Lemma Continued_finished (s s' : State) :
  Continued s s' -> lookup_timer s' = Finished -> lookup_timer s = Finished.
Proof.
  intros [s1 H1 E|s1 H1 ->].
  - rewrite <- (sil_lookup_timer _ _ H1). clear - E.
    unfold send in E. destruct (0 <? N.of_nat _).
    + injection E as <-. trivial.
    + destruct (nsas_callback_out_ s1); [discriminate|].
      injection E as <-. trivial.
  - rewrite <- (sil_lookup_timer _ _ H1). unfold stop. cbn.
    destruct (answer_sent_ s1); cbn.
    + destruct (lookup_timer s1) eqn:El; cbn; try discriminate;
        destruct (client_timer s1); cbn; try discriminate;
        destruct (0 <? queries_out_ s1); cbn; try discriminate;
        destruct (nsas_callback_out_ s1); cbn; trivial.
    + trivial.
Qed.

(** Before the completion of a fetch or the answer of the NSAS, no timer has
    been cancelled and the query is not deleted. *)
Lemma Wired_busy (l c : bool) (s : State) :
  Wired l c s -> pending s = true ->
  lookup_timer s <> Aborting /\ client_timer s <> Aborting
  /\ deleted s = false
  /\ (answer_sent_ s = true ->
      client_timer s = Finished \/ lookup_timer s = Finished).
Proof.
  intros [A1 A2 T1 T2 T3 T4 T5] Hp. unfold pending in Hp.
  assert (~ quiet s) as Hq.
  { intros [Hq Hn]. rewrite Hq, Hn in Hp. discriminate. }
  repeat split.
  - intros H. apply Hq, T1, H.
  - intros H. apply Hq, T3, H.
  - destruct (deleted s); [|reflexivity]. exfalso. apply Hq, T4. reflexivity.
  - intros H. destruct (T5 H) as [H'|H']; [contradiction|exact H'].
Qed.

Lemma operator_call_timers (r0 : N) (l c : bool) (fuel : nat)
    (result : IOFetchResult) (wire : Message) (now : timeval)
    (s s' : State) :
  Inv r0 s -> Timers l c s -> (0 <? queries_out_ s) = true ->
  operator_call fuel result wire now s = Ok tt s' -> Timers l c s'.
Proof.
  intros [Hg Hida _ _] [Ht Hfin _] Hen E.
  destruct (enabled_fetch_quiet s Hg Hen) as [Hq Hn].
  destruct (Wired_busy l c s Ht) as (Hl & Hc & Hd & Ha).
  { unfold pending. rewrite Hen. reflexivity. }
  assert (Calm l c (set_queries_out (udec 64 (queries_out_ s)) s)) as Hcalm.
  { destruct Ht as [A1 A2 T1 T2 T3 T4 T5].
    rewrite Hq, udec64_1.
    constructor; [constructor|..]; unfold quiet; cbn; tm_tac. }
  unfold operator_call in E.
  set (s0 := set_queries_out _ s) in *.
  assert (forall s1, Calm l c s1 -> Timers l c (out_of_retries s1)) as Hout.
  { intros s1 H1. unfold out_of_retries.
    destruct (recursive_mode s1); cbn; destruct (answer_sent_ s1); cbn;
      apply stop_calm; revert H1; apply Calm_same; reflexivity. }
  assert (done_ s0 = done_ s) as Hds by reflexivity.
  rewrite !Hds in E. clear Hds.
  destruct (done_ s) eqn:Ed; cbn [negb andb] in E.
  - injection E as <-. apply Hout. exact Hcalm.
  - assert (lookup_timer s = Finished -> False) as Hnf.
    { intros H. destruct (Hfin H). discriminate. }
    destruct (is_TIME_OUT result); cbn [negb] in E.
    + destruct (negb (retries_ s0 =? 0)).
      * eapply send_timers; [| |exact E].
        -- destruct (recursive_mode _);
             revert Hcalm; apply Calm_same; reflexivity.
        -- destruct (recursive_mode _); cbn; intros; contradiction.
      * injection E as <-. apply Hout.
        revert Hcalm; apply Calm_same; reflexivity.
    + (* a response *)
      destruct (recursive_mode _ && (m_rcode wire =? Rcode_NOERROR)).
      * match type of E with context [handleRecursiveAnswer fuel wire ?s1] =>
          destruct (handleRecursiveAnswer fuel wire s1) as [final s2| |]
            eqn:Eh;
          cbn in E; try discriminate;
          pose proof (handleRecursiveAnswer_shape fuel wire s1 final s2 Eh)
            as Hs;
          assert (Calm l c s1) as Hc1
            by (revert Hcalm; apply Calm_same; reflexivity)
        end.
        destruct final; injection E as <-.
        -- apply stop_calm. generalize (Silent_calm _ _ _ _ Hs Hc1).
           apply Calm_same; reflexivity.
        -- pose proof (Continued_finished _ _ Hs) as Hk.
           assert (Timers l c s2) as [[A1 A2 T1 T2 T3 T4 T5] T6 T7].
           { eapply Continued_timers; [exact Hc1| |exact Hs].
             cbn. intros; contradiction. }
           cbn in Hk.
           (constructor; [constructor|..]); try assumption.
           cbn. intros H. exfalso. auto.
      * cbn in E. injection E as <-. apply stop_calm.
        revert Hcalm; apply Calm_same; reflexivity.
Qed.

Lemma handle_timers (r0 : N) (l c : bool) (fuel : nat) (ev : Event)
    (s s' : State) :
  Inv r0 s -> Timers l c s -> enabled ev s = true ->
  handle fuel ev s = Ok tt s' -> Timers l c s'.
Proof.
  intros Hi Ht Hen E. pose proof Hi as [Hg Hida Hlive _].
  destruct ev; cbn [handle enabled] in *.
  - (* the lookup timer *)
    injection E as <-. destruct Ht as [[A1 A2 T1 T2 T3 T4 T5] T6 T7].
    assert (answer_sent_ s = false ->
            ~ (queries_out_ s = 0 /\ nsas_callback_out_ s = false)) as Hbusy.
    { intros Hu [Hq Hn]. specialize (Hlive Hu). unfold pending in Hlive.
      rewrite Hq, Hn in Hlive. discriminate. }
    clear Hlive.
    apply stop_wired; [constructor|..]; cbn; tm_tac.
    all: destruct (lookup_timer s); tm_tac.
  - (* the client timer *)
    injection E as <-. destruct Ht as [[A1 A2 T1 T2 T3 T4 T5] T6 T7].
    destruct Hg as [_ _ _ _ _ Hy]. unfold clientTimeout. cbn.
    destruct (answer_sent_ s) eqn:Ea; cbn.
    + destruct (client_timer_canceled_ s) eqn:Ec.
      * apply stop_wired; [constructor|..]; cbn; rewrite ?Ea; tm_tac.
        all: destruct (client_timer s); tm_tac.
      * (constructor; [constructor|..]); cbn; rewrite ?Ea; tm_tac.
        all: destruct (client_timer s); tm_tac.
    + destruct (client_timer_canceled_ s) eqn:Ec; [tm_tac|].
      (constructor; [constructor|..]); cbn; tm_tac.
      all: destruct (client_timer s); tm_tac.
  - (* the NSAS found an address *)
    injection E as <-. destruct Ht as [Ht T6 T7].
    destruct (Wired_busy l c s Ht) as (Hl & Hc & Hd & Ha).
    { unfold pending. rewrite Hen. apply orb_true_r. }
    destruct Hg as [_ _ Ho _ _ _]. rewrite Hen in Ho. cbn in Ho.
    assert (queries_out_ s = 0) as Hq by lia.
    destruct Ht as [A1 A2 T1 T2 T3 T4 T5].
    (constructor; [constructor|..]); unfold sendTo; cbn;
      rewrite ?Hq, ?uinc64_0; tm_tac.
  - (* the NSAS found none *)
    injection E as <-. destruct Ht as [Ht T6 T7].
    destruct (Wired_busy l c s Ht) as (Hl & Hc & Hd & Ha).
    { unfold pending. rewrite Hen. apply orb_true_r. }
    destruct Hg as [_ _ Ho _ _ _]. rewrite Hen in Ho. cbn in Ho.
    assert (queries_out_ s = 0) as Hq by lia.
    destruct Ht as [A1 A2 T1 T2 T3 T4 T5].
    apply stop_calm.
    constructor; [constructor|..]; unfold quiet; cbn; tm_tac.
  - eapply operator_call_timers; eassumption.
  - injection E as <-. destruct Ht as [[A1 A2 T1 T2 T3 T4 T5] T6 T7].
    (constructor; [constructor|..]); assumption.
Qed.

Lemma run_timers (r0 : N) (l c : bool) (fuel : nat) (evs : list Event) :
  forall s s',
    Inv r0 s -> Timers l c s -> run fuel evs s = Ok tt s' -> Timers l c s'.
Proof.
  induction evs as [|ev evs IH]; intros s s' Hi Ht E; cbn [run] in E.
  - injection E as <-. exact Ht.
  - destruct (enabled ev s) eqn:Hen; [|eapply IH; eassumption].
    pose proof (handle_inv r0 fuel ev s Hi Hen) as Hs.
    destruct (handle fuel ev s) as [[] s1| |] eqn:Eh; cbn in E;
      try discriminate.
    cbn in Hs. destruct Hs as [Hi1 _].
    eapply IH; [exact Hi1| |exact E].
    exact (handle_timers r0 l c fuel ev s s1 Hi Ht Hen Eh).
Qed.

Lemma constructed_calm (cfg : Config) (question : Question)
    (answer_message : Message) (cache : ResolverCache)
    (before : list Effect) :
  Calm (0 <=? cfg_lookup_timeout cfg)%Z (0 <=? cfg_client_timeout cfg)%Z
       (constructed cfg question answer_message cache before)
  /\ lookup_timer (constructed cfg question answer_message cache before)
     <> Finished.
Proof.
  unfold constructed.
  destruct (0 <=? cfg_lookup_timeout cfg)%Z,
           (0 <=? cfg_client_timeout cfg)%Z;
    (split; [constructor; [constructor|..]|]); unfold quiet; cbn; tm_tac.
Qed.

Lemma spawns_timers (fuel : nat) (cfg : Config) (cache : ResolverCache)
    (question : Question) (s0 : State) :
  spawns fuel cfg cache question (Ok tt s0) ->
  Timers (0 <=? cfg_lookup_timeout cfg)%Z (0 <=? cfg_client_timeout cfg)%Z
         s0.
Proof.
  intros H. destruct (spawns_new _ _ _ _ _ H) as (m & tr & E & _).
  rewrite RunningQuery_new_eq in E. symmetry in E.
  apply doLookup_shape in E.
  destruct (constructed_calm cfg question m cache tr) as [Hc Hf].
  eapply Continued_timers; [exact Hc| |exact E].
  intros Hx. contradiction.
Qed.

End Timers.

Section Deletion.

Context {collaborators : Collaborators}.

(** No handler of the query is left to run: no timer is pending, no fetch
    and no NSAS lookup is outstanding. *)
Definition idle (s : State) : bool :=
  negb (timer_pending (lookup_timer s))
  && negb (timer_pending (client_timer s))
  && negb (pending s).

Lemma idle_enabled (s : State) (ev : Event) :
  idle s = true -> enabled ev s = true -> exists c, ev = CacheChanged c.
Proof.
  unfold idle, pending. intros H Hen.
  apply andb_true_iff in H as [H H3]. apply andb_true_iff in H as [H1 H2].
  apply negb_true_iff in H1, H2, H3. apply orb_false_iff in H3 as [H3 H4].
  destruct ev; cbn in Hen; try congruence. eexists; reflexivity.
Qed.

Lemma set_cache_same (s : State) : set_cache (cache_ s) s = s.
Proof. destruct s. reflexivity. Qed.

Lemma idle_run (fuel : nat) (evs : list Event) :
  forall s, idle s = true -> exists c, run fuel evs s = Ok tt (set_cache c s).
Proof.
  induction evs as [|ev evs IH]; intros s H; cbn [run].
  - exists (cache_ s). rewrite set_cache_same. reflexivity.
  - destruct (enabled ev s) eqn:Hen; [|apply IH; exact H].
    destruct (idle_enabled s ev H Hen) as [c ->]. cbn [handle bind].
    destruct (IH (set_cache c s) H) as [c' E]. exists c'. exact E.
Qed.

Lemma spawns_run_timers (fuel : nat) (cfg : Config) (cache : ResolverCache)
    (question : Question) (s0 : State) (evs : list Event) (s : State) :
  spawns fuel cfg cache question (Ok tt s0) ->
  run fuel evs s0 = Ok tt s ->
  Inv (cfg_retries cfg) s
  /\ Timers (0 <=? cfg_lookup_timeout cfg)%Z (0 <=? cfg_client_timeout cfg)%Z
            s.
Proof.
  intros Hs Hr. pose proof (spawns_inv _ _ _ _ _ Hs) as [Hi _].
  split.
  - eapply run_ok_inv; eassumption.
  - eapply run_timers; [exact Hi| |exact Hr].
    eapply spawns_timers; exact Hs.
Qed.

(** X1: once the query has deleted itself no handler of it is left: no timer
    is pending, no fetch and no NSAS lookup is outstanding, and whatever the
    loop runs afterwards leaves the object as it is. *)
Theorem deleted_query_is_idle (fuel : nat) (cfg : Config)
    (cache : ResolverCache) (question : Question) (s0 : State)
    (evs : list Event) (s : State) :
  spawns fuel cfg cache question (Ok tt s0) ->
  run fuel evs s0 = Ok tt s ->
  deleted s = true ->
  idle s = true
  /\ (forall ev, enabled ev s = true -> exists c, ev = CacheChanged c)
  /\ (forall evs', exists c, run fuel evs' s = Ok tt (set_cache c s)).
Proof.
  intros Hs Hr Hd.
  destruct (spawns_run_timers _ _ _ _ _ _ _ Hs Hr) as [_ [[_ _ _ _ _ T4 _] _ _]].
  destruct (T4 Hd) as (Hl & Hc & [Hq Hn] & _).
  assert (idle s = true) as Hi.
  { unfold idle, pending. rewrite Hl, Hc, Hq, Hn. reflexivity. }
  split; [exact Hi|]. split.
  - intros ev. apply idle_enabled. exact Hi.
  - intros evs'. apply idle_run. exact Hi.
Qed.

(** X2: a query whose lookup timer was armed does not leak: when no handler
    of it is left to run, it has deleted itself. *)
Theorem idle_query_is_deleted (fuel : nat) (cfg : Config)
    (cache : ResolverCache) (question : Question) (s0 : State)
    (evs : list Event) (s : State) :
  (0 <= cfg_lookup_timeout cfg)%Z ->
  spawns fuel cfg cache question (Ok tt s0) ->
  run fuel evs s0 = Ok tt s ->
  idle s = true ->
  deleted s = true.
Proof.
  intros Hcfg Hs Hr Hi.
  destruct (spawns_run_timers _ _ _ _ _ _ _ Hs Hr)
    as [_ [[A1 _ _ _ T3 _ _] _ T7]].
  apply Z.leb_le in Hcfg. rewrite Hcfg in A1.
  unfold idle, pending in Hi.
  apply andb_true_iff in Hi as [Hi H3]. apply andb_true_iff in Hi as [H1 H2].
  apply negb_true_iff in H1, H2, H3. apply orb_false_iff in H3 as [H3 H4].
  apply N.ltb_ge in H3.
  assert (quiet s) as Hq by (split; [lia|exact H4]).
  destruct (deleted s) eqn:Hd; [reflexivity|exfalso].
  destruct (lookup_timer s) eqn:El; try discriminate.
  specialize (T7 eq_refl Hq eq_refl). rewrite T7 in H2. discriminate.
Qed.

(** X3: a query whose lookup timer was not armed is deleted only after the
    handler of its client timer has run, and never if that timer was not
    armed either; once it has answered with nothing outstanding and is not
    deleted, it stays so whatever runs afterwards. *)
Theorem unarmed_query_is_kept (fuel : nat) (cfg : Config)
    (cache : ResolverCache) (question : Question) (s0 : State)
    (evs : list Event) (s : State) :
  (cfg_lookup_timeout cfg < 0)%Z ->
  spawns fuel cfg cache question (Ok tt s0) ->
  run fuel evs s0 = Ok tt s ->
  (deleted s = true -> client_timer s = Finished)
  /\ ((cfg_client_timeout cfg < 0)%Z -> deleted s = false)
  /\ (answer_sent_ s = true -> pending s = false -> deleted s = false ->
      forall evs', exists s',
        run fuel evs' s = Ok tt s'
        /\ deleted s' = false /\ trace s' = trace s).
Proof.
  intros Hcfg Hs Hr.
  destruct (spawns_run_timers _ _ _ _ _ _ _ Hs Hr)
    as [_ [[A1 A2 _ T2 T3 T4 _] _ _]].
  apply Z.leb_gt in Hcfg. rewrite Hcfg in A1. cbn in A1.
  assert (lookup_timer s = Unset) as El
    by (destruct (lookup_timer s); try discriminate; reflexivity).
  clear A1. split; [|split].
  - intros Hd. destruct (T4 Hd) as (_ & _ & _ & [H|H]); [exact H|].
    rewrite El in H. discriminate.
  - intros Hc. apply Z.leb_gt in Hc. rewrite Hc in A2. cbn in A2.
    destruct (deleted s) eqn:Hd; [|reflexivity].
    destruct (T4 eq_refl) as (_ & _ & _ & [H|H]).
    + rewrite H in A2. discriminate.
    + rewrite El in H. discriminate.
  - intros Ha Hp Hd evs'.
    assert (client_timer_canceled_ s = false) as Hk.
    { destruct (client_timer_canceled_ s); [|reflexivity].
      specialize (T2 eq_refl). rewrite El in T2. discriminate. }
    assert (client_timer s <> Aborting) as Hc.
    { intros H. destruct (T3 H) as [_ H']. congruence. }
    clear - El Ha Hp Hd Hk Hc. revert s El Ha Hp Hd Hk Hc.
    induction evs' as [|ev evs' IH]; intros s El Ha Hp Hd Hk Hc; cbn [run].
    + exists s. auto.
    + assert (forall s1,
                 lookup_timer s1 = lookup_timer s ->
                 answer_sent_ s1 = answer_sent_ s ->
                 pending s1 = pending s -> deleted s1 = deleted s ->
                 client_timer_canceled_ s1 = client_timer_canceled_ s ->
                 client_timer s1 <> Aborting -> trace s1 = trace s ->
                 exists s', run fuel evs' s1 = Ok tt s'
                            /\ deleted s' = false /\ trace s' = trace s)
        as Hnext.
      { intros s1 E1 E2 E3 E4 E5 E6 E7.
        destruct (IH s1) as (s' & Hr & Hd' & Ht'); try congruence.
        exists s'. split; [exact Hr|]. split; congruence. }
      unfold pending in Hp. apply orb_false_iff in Hp as [Hq Hn].
      destruct (enabled ev s) eqn:Hen.
      * destruct ev; cbn [enabled] in Hen; try congruence.
        -- rewrite El in Hen. discriminate.
        -- cbn [handle bind]. unfold clientTimeout. cbn.
           rewrite Ha. cbn. rewrite Hk. apply Hnext; try reflexivity.
           cbn. discriminate.
        -- cbn [handle bind]. apply Hnext; try reflexivity. exact Hc.
      * apply Hnext; try reflexivity. exact Hc.
Qed.

End Deletion.

Section Teardown.

Context {collaborators : Collaborators}.

(** [stop] leaves a timer whose handler has run, or that was never armed,
    as it is. *)
Lemma stop_settled (resume : bool) (s : State) :
  lookup_timer s = Finished ->
  lookup_timer (stop resume s) = Finished
  /\ (timer_pending (client_timer s) = false ->
      client_timer (stop resume s) = client_timer s)
  /\ queries_out_ (stop resume s) = queries_out_ s
  /\ (nsas_callback_out_ s = false ->
      nsas_callback_out_ (stop resume s) = false).
Proof.
  intros El. unfold stop. cbn. rewrite El.
  destruct (answer_sent_ s); cbn.
  - destruct (client_timer s) eqn:Ec; cbn;
      try (repeat split; intros; auto; discriminate);
      destruct (0 <? queries_out_ s); cbn; auto;
      destruct (nsas_callback_out_ s) eqn:En; cbn;
      repeat split; intros; auto; discriminate.
  - destruct resume; cbn; auto.
Qed.

Lemma handle_ok_inv (r0 : N) (l c : bool) (fuel : nat) (ev : Event)
    (s s' : State) :
  Inv r0 s -> Timers l c s -> enabled ev s = true ->
  handle fuel ev s = Ok tt s' -> Inv r0 s' /\ Timers l c s'.
Proof.
  intros Hi Ht Hen E. split.
  - pose proof (handle_inv r0 fuel ev s Hi Hen) as H. rewrite E in H.
    apply H.
  - eapply handle_timers; eassumption.
Qed.

(** X4: the teardown ends.  Whatever the query of a caller whose lookup
    timer was armed has reached, once the handlers of the two timers, the
    answer of the NSAS and the completion of the fetch have run (those that
    are due), the query has deleted itself. *)
Theorem teardown_ends (fuel : nat) (cfg : Config)
    (cache : ResolverCache) (question : Question) (s0 : State)
    (evs : list Event) (s : State) (wire : Message) (now : timeval) :
  (0 <= cfg_lookup_timeout cfg)%Z ->
  spawns fuel cfg cache question (Ok tt s0) ->
  run fuel evs s0 = Ok tt s ->
  exists s',
    run fuel [LookupTimerHandler; ClientTimerHandler; NsasUnreachable;
              FetchCompleted TIME_OUT wire now] s = Ok tt s'
    /\ deleted s' = true.
Proof.
  intros Hcfg Hs Hr.
  destruct (spawns_run_timers _ _ _ _ _ _ _ Hs Hr) as [Hi Ht].
  apply Z.leb_le in Hcfg. rewrite Hcfg in Ht. clear Hs Hr Hcfg s0 evs.
  set (r0 := cfg_retries cfg) in *.
  set (c := (0 <=? cfg_client_timeout cfg)%Z) in *.
  clearbody r0 c.
  (* the handler of the lookup timer *)
  assert (exists s1,
             (forall evs', run fuel (LookupTimerHandler :: evs') s
                           = run fuel evs' s1)
             /\ Inv r0 s1 /\ Timers true c s1
             /\ lookup_timer s1 = Finished) as (s1 & E1 & Hi1 & Ht1 & L1).
  { destruct (timer_pending (lookup_timer s)) eqn:Hen.
    - eexists. split; [intros; cbn [run enabled]; rewrite Hen; reflexivity|].
      destruct (handle_ok_inv r0 true c fuel LookupTimerHandler s _ Hi Ht Hen
                              eq_refl) as [H1 H2].
      split; [exact H1|]. split; [exact H2|].
      apply stop_settled. reflexivity.
    - exists s. split; [intros; cbn [run enabled]; rewrite Hen; reflexivity|].
      split; [exact Hi|]. split; [exact Ht|].
      destruct Ht as [[A1 _ _ _ _ _ _] _ _].
      destruct (lookup_timer s); try discriminate; reflexivity. }
  (* the handler of the client timer *)
  assert (exists s2,
             (forall evs', run fuel (ClientTimerHandler :: evs') s1
                           = run fuel evs' s2)
             /\ Inv r0 s2 /\ Timers true c s2
             /\ lookup_timer s2 = Finished
             /\ timer_pending (client_timer s2) = false)
    as (s2 & E2 & Hi2 & Ht2 & L2 & C2).
  { destruct (timer_pending (client_timer s1)) eqn:Hen.
    - eexists. split; [intros; cbn [run enabled]; rewrite Hen; reflexivity|].
      destruct (handle_ok_inv r0 true c fuel ClientTimerHandler s1 _ Hi1 Ht1
                              Hen eq_refl) as [H1 H2].
      split; [exact H1|]. split; [exact H2|].
      unfold clientTimeout. cbn.
      destruct (answer_sent_ s1); cbn;
        destruct (client_timer_canceled_ s1); cbn; auto.
      + destruct (stop_settled false (set_client_timer Finished s1) L1)
          as (A & B & _). split; [exact A|]. rewrite B; reflexivity.
      + match goal with |- context [stop false ?x] =>
          destruct (stop_settled false x L1) as (A & B & _)
        end.
        split; [exact A|]. rewrite B; reflexivity.
    - exists s1. split; [intros; cbn [run enabled]; rewrite Hen; reflexivity|].
      auto. }
  (* the NSAS *)
  assert (exists s3,
             (forall evs', run fuel (NsasUnreachable :: evs') s2
                           = run fuel evs' s3)
             /\ Inv r0 s3 /\ Timers true c s3
             /\ lookup_timer s3 = Finished
             /\ timer_pending (client_timer s3) = false
             /\ nsas_callback_out_ s3 = false)
    as (s3 & E3 & Hi3 & Ht3 & L3 & C3 & N3).
  { destruct (nsas_callback_out_ s2) eqn:Hen.
    - eexists. split; [intros; cbn [run enabled]; rewrite Hen; reflexivity|].
      destruct (handle_ok_inv r0 true c fuel NsasUnreachable s2 _ Hi2 Ht2
                              Hen eq_refl) as [H1 H2].
      split; [exact H1|]. split; [exact H2|].
      match goal with |- context [stop false ?x] =>
        destruct (stop_settled false x L2) as (A & B & _ & D)
      end.
      split; [exact A|]. split; [rewrite B; [exact C2|exact C2]|].
      apply D. reflexivity.
    - exists s2. split; [intros; cbn [run enabled]; rewrite Hen; reflexivity|].
      auto. }
  (* the fetch *)
  assert (exists s4,
             run fuel [FetchCompleted TIME_OUT wire now] s3 = Ok tt s4
             /\ Timers true c s4
             /\ lookup_timer s4 = Finished
             /\ timer_pending (client_timer s4) = false
             /\ quiet s4)
    as (s4 & E4 & Ht4 & L4 & C4 & Q4).
  { destruct (0 <? queries_out_ s3) eqn:Hen.
    - pose proof Ht3 as [_ T6 _]. destruct (T6 L3) as [Hd _].
      pose proof Hi3 as [Hg _ _ _].
      destruct (enabled_fetch_quiet s3 Hg Hen) as [Hq _].
      assert (handle fuel (FetchCompleted TIME_OUT wire now) s3
              = Ok tt (out_of_retries
                         (set_queries_out (udec 64 (queries_out_ s3)) s3)))
        as Eh.
      { cbn [handle]. unfold operator_call. cbn. rewrite Hd. reflexivity. }
      eexists. split; [cbn [run enabled bind]; rewrite Hen, Eh; reflexivity|].
      split;
        [exact (handle_timers r0 true c fuel
                  (FetchCompleted TIME_OUT wire now) s3 _ Hi3 Ht3 Hen Eh)|].
      unfold out_of_retries.
      match goal with |- context [stop ?b ?x] =>
        destruct (stop_settled b x) as (A & B & C & D)
      end.
      { destruct (recursive_mode _); cbn; destruct (answer_sent_ s3); cbn;
          exact L3. }
      split; [exact A|].
      split; [rewrite B|split; [rewrite C|apply D]].
      all: destruct (recursive_mode _); cbn; destruct (answer_sent_ s3); cbn;
        rewrite ?Hq, ?udec64_1; auto.
    - exists s3. split; [cbn [run enabled]; rewrite Hen; reflexivity|].
      apply N.ltb_ge in Hen.
      split; [exact Ht3|]. split; [exact L3|]. split; [exact C3|].
      split; [lia|exact N3]. }
  exists s4. split.
  - rewrite E1, E2, E3. exact E4.
  - destruct Ht4 as [_ _ T7].
    destruct (deleted s4) eqn:Hd; [reflexivity|exfalso].
    specialize (T7 L4 Q4 eq_refl). rewrite T7 in C4. discriminate.
Qed.

End Teardown.

(** ** Where the fetches and the RTT reports go *)

Section Routing.

Context {collaborators : Collaborators}.

(** The server the last fetch went to. *)
Definition sent_to (cur : option NameserverAddress) (e : Effect)
  : option NameserverAddress :=
  match e with
  | PostFetch _ address _ _ => Some address
  | _ => cur
  end.

Definition last_fetch (tr : list Effect) : option NameserverAddress :=
  fold_left sent_to tr None.

(** What a call may be, given the forwarders [ups], the query timeout [qt]
    and the server [cur] of the last fetch: a fetch goes to one of the
    forwarders, or to port 53 when there is none; the NSAS is used only
    when there is no forwarder; the RTT is reported for the server of the
    last fetch, and for the address that was never assigned when there are
    forwarders. *)
Definition effect_ok (ups : list (string * N)) (qt : Z)
    (cur : option NameserverAddress) (e : Effect) : Prop :=
  match e with
  | PostFetch _ address port timeout =>
      timeout = qt
      /\ match ups with
         | [] => port = 53
         | _ :: _ => In (address, port) ups
         end
  | NsasLookup _ _ | NsasLookupDone | NsasCancel _ _ => ups = []
  | UpdateRTT x _ =>
      match ups with
      | [] => x = cur /\ x <> None
      | _ :: _ => x = None
      end
  | _ => True
  end.

Fixpoint Sends (ups : list (string * N)) (qt : Z)
    (cur : option NameserverAddress) (tr : list Effect) : Prop :=
  match tr with
  | [] => True
  | e :: tr => effect_ok ups qt cur e /\ Sends ups qt (sent_to cur e) tr
  end.

Definition is_routing (e : Effect) : bool :=
  match e with
  | PostFetch _ _ _ _ | UpdateRTT _ _ | NsasLookup _ _ | NsasLookupDone
  | NsasCancel _ _ => true
  | _ => false
  end.

Lemma Sends_app (ups : list (string * N)) (qt : Z) (tr l : list Effect) :
  forall cur,
    Sends ups qt cur (tr ++ l)
    <-> Sends ups qt cur tr /\ Sends ups qt (fold_left sent_to tr cur) l.
Proof.
  induction tr as [|e tr IH]; intros cur; cbn.
  - tauto.
  - rewrite IH. tauto.
Qed.

Lemma Sends_plain (ups : list (string * N)) (qt : Z) (l : list Effect) :
  Forall (fun e => is_routing e = false) l ->
  forall cur, Sends ups qt cur l /\ fold_left sent_to l cur = cur.
Proof.
  induction 1 as [|e l He _ IH]; intros cur; cbn; [auto|].
  destruct e; try discriminate; cbn; split; try split; try apply IH; exact I.
Qed.

Lemma silent_plain (l : list Effect) :
  Forall (fun e => is_silent e = true) l ->
  Forall (fun e => is_routing e = false) l.
Proof.
  apply Forall_impl. intros e H. destruct e; try discriminate; reflexivity.
Qed.

Record Routed (s : State) : Prop := mkRouted
  { rt_sends : Sends (upstream_ s) (query_timeout_ s) None (trace s);
    rt_address :
      upstream_ s = [] -> current_ns_address s = last_fetch (trace s);
    rt_out :
      upstream_ s = [] -> 0 < queries_out_ s -> current_ns_address s <> None;
    rt_forward : upstream_ s <> [] -> current_ns_address s = None }.

Lemma Routed_app (s s' : State) (l : list Effect) :
  Routed s ->
  upstream_ s' = upstream_ s -> query_timeout_ s' = query_timeout_ s ->
  trace s' = trace s ++ l ->
  Sends (upstream_ s) (query_timeout_ s) (last_fetch (trace s)) l ->
  (upstream_ s = [] ->
   current_ns_address s' = fold_left sent_to l (current_ns_address s)) ->
  (upstream_ s = [] -> 0 < queries_out_ s' -> current_ns_address s' <> None) ->
  (upstream_ s <> [] -> current_ns_address s' = None) ->
  Routed s'.
Proof.
  intros [R1 R2 R3 R4] Eu Eq Et Hl Ha Ho Hf.
  constructor; rewrite ?Eu, ?Eq, ?Et; auto.
  - apply Sends_app. split; assumption.
  - intros Hu. unfold last_fetch. rewrite fold_left_app.
    fold (last_fetch (trace s)). rewrite <- R2; auto.
Qed.

Lemma Routed_plain (s s' : State) (l : list Effect) :
  Routed s ->
  upstream_ s' = upstream_ s -> query_timeout_ s' = query_timeout_ s ->
  current_ns_address s' = current_ns_address s ->
  (0 < queries_out_ s' -> 0 < queries_out_ s) ->
  trace s' = trace s ++ l ->
  Forall (fun e => is_routing e = false) l ->
  Routed s'.
Proof.
  intros Hr Eu Eq Ea Ho Et Hl.
  destruct (Sends_plain (upstream_ s) (query_timeout_ s) l Hl
                        (last_fetch (trace s))) as [H1 _].
  eapply Routed_app; try eassumption.
  - intros _. rewrite Ea. symmetry.
    apply (Sends_plain (upstream_ s) (query_timeout_ s) l Hl).
  - intros Hu Hq. rewrite Ea. apply Hr; auto.
  - intros Hu. rewrite Ea. apply Hr. exact Hu.
Qed.

Lemma Routed_same (s s' : State) :
  Routed s ->
  upstream_ s' = upstream_ s -> query_timeout_ s' = query_timeout_ s ->
  current_ns_address s' = current_ns_address s ->
  (0 < queries_out_ s' -> 0 < queries_out_ s) ->
  trace s' = trace s ->
  Routed s'.
Proof.
  intros Hr Eu Eq Ea Ho Et.
  apply (Routed_plain s s' []); auto. rewrite app_nil_r. exact Et.
Qed.

Lemma Silent_routed (s s' : State) : Silent s s' -> Routed s -> Routed s'.
Proof.
  intros H Hr. destruct (sil_trace _ _ H) as (l & El & Hl).
  apply (Routed_plain s s' l); try apply H; auto.
  - rewrite (sil_queries_out _ _ H). trivial.
  - apply silent_plain. exact Hl.
Qed.

Lemma stop_routed (resume : bool) (s : State) :
  Routed s -> (nsas_callback_out_ s = true -> upstream_ s = []) ->
  Routed (stop resume s).
Proof.
  intros Hr Hm.
  destruct (stop_keeps resume s) as (Eu & Eq & _ & Eo & _).
  assert (current_ns_address (stop resume s) = current_ns_address s) as Ea.
  { unfold stop. cbn. destruct (answer_sent_ s); cbn.
    - destruct (lookup_timer s); cbn; auto;
        destruct (client_timer s); cbn; auto;
        destruct (0 <? queries_out_ s); cbn; auto;
        destruct (nsas_callback_out_ s); cbn; auto.
    - destruct resume; cbn; auto. }
  pose proof (stop_trace resume s) as Et.
  destruct (nsas_callback_out_ s) eqn:En.
  - (* the trace may hold an [NsasCancel] *)
    eapply Routed_app; try eassumption.
    + specialize (Hm eq_refl). rewrite Hm.
      destruct (answer_sent_ s);
        [destruct (timer_pending' _ _ || _)|destruct resume];
        cbn; auto.
    + intros _. rewrite Ea.
      destruct (answer_sent_ s);
        [destruct (timer_pending' _ _ || _)|destruct resume];
        reflexivity.
    + intros Hu. rewrite Ea, Eo. apply Hr. exact Hu.
    + intros Hu. rewrite Ea. apply Hr. exact Hu.
  - eapply Routed_plain; try eassumption.
    + rewrite Eo. trivial.
    + destruct (answer_sent_ s);
        [destruct (timer_pending' _ _ || _)|destruct resume];
        repeat constructor.
Qed.

Lemma send_routed (s s' : State) :
  Routed s -> queries_out_ s = 0 -> send s = Ok tt s' -> Routed s'.
Proof.
  intros Hr Hq E. unfold send in E.
  destruct (0 <? N.of_nat _) eqn:Hu.
  - injection E as <-. apply N.ltb_lt in Hu.
    assert (upstream_ s <> []) as Hne.
    { intros H. rewrite H in Hu. cbn in Hu. lia. }
    eapply Routed_app; [exact Hr|reflexivity|reflexivity
                       |cbn; reflexivity|..]; cbn.
    + split; [split; [reflexivity|]|exact I].
      destruct (upstream_ s) as [|u ups] eqn:Eu; [contradiction|].
      rewrite <- Eu in *. rewrite <- surjective_pairing. apply nth_In.
      pose proof (N.mod_lt (rand (rand_calls s))
                           (N.of_nat (Datatypes.length (upstream_ s)))).
      lia.
    + intros H. contradiction.
    + intros H. contradiction.
    + intros _. apply Hr. exact Hne.
  - destruct (nsas_callback_out_ s); [discriminate|]. injection E as <-.
    apply N.ltb_ge in Hu.
    assert (upstream_ s = []) as Hup.
    { destruct (upstream_ s); [reflexivity|]. cbn in Hu. lia. }
    eapply Routed_app; [exact Hr|reflexivity|reflexivity
                       |cbn; reflexivity|..]; cbn.
    + auto.
    + intros _. reflexivity.
    + rewrite Hq. lia.
    + intros H. contradiction.
Qed.

Lemma Continued_routed (s s' : State) :
  Routed s -> quiet s -> Continued s s' -> Routed s'.
Proof.
  intros Hr [Hq Hn] [s1 H1 E|s1 H1 ->].
  - eapply send_routed; [eapply Silent_routed; eassumption| |exact E].
    rewrite (sil_queries_out _ _ H1). exact Hq.
  - apply stop_routed; [eapply Silent_routed; eassumption|].
    rewrite (sil_nsas _ _ H1), Hn. discriminate.
Qed.

Lemma rtt_routed (s : State) (x : N) :
  Routed s -> (upstream_ s = [] -> current_ns_address s <> None) ->
  Routed (emit (UpdateRTT (current_ns_address s) x) s).
Proof.
  intros Hr Hs.
  eapply Routed_app; [exact Hr|reflexivity|reflexivity|reflexivity|..]; cbn.
  - split; [|exact I]. destruct Hr as [_ R2 _ R4].
    destruct (upstream_ s) eqn:Eu.
    + split; [apply R2; reflexivity|]. apply Hs. reflexivity.
    + apply R4. discriminate.
  - reflexivity.
  - intros Hu _. apply Hs. exact Hu.
  - apply Hr.
Qed.

Lemma out_of_retries_routed (s : State) :
  Routed s -> nsas_callback_out_ s = false ->
  (upstream_ s = [] -> current_ns_address s <> None) ->
  Routed (out_of_retries s).
Proof.
  intros Hr Hn Hs. unfold out_of_retries.
  assert (recursive_mode s = true -> upstream_ s = []) as Hm.
  { unfold recursive_mode. destruct (upstream_ s); [reflexivity|discriminate]. }
  destruct (recursive_mode s); cbn; destruct (answer_sent_ s); cbn;
    apply stop_routed; cbn; try (rewrite Hn; discriminate).
  - apply rtt_routed; assumption.
  - apply (Routed_same (emit (UpdateRTT (current_ns_address s) UNREACHABLE) s));
      try reflexivity; [|trivial].
    apply rtt_routed; assumption.
  - exact Hr.
  - apply (Routed_same s); try reflexivity; [exact Hr|trivial].
Qed.

Lemma operator_call_routed (fuel : nat) (result : IOFetchResult)
    (wire : Message) (now : timeval) (s s' : State) :
  Good s -> Routed s -> (0 <? queries_out_ s) = true ->
  operator_call fuel result wire now s = Ok tt s' -> Routed s'.
Proof.
  intros Hg Hr Hen E.
  destruct (enabled_fetch_quiet s Hg Hen) as [Hq Hn].
  unfold operator_call in E.
  set (s0 := set_queries_out _ s) in *.
  assert (Routed s0 /\ quiet s0
          /\ (upstream_ s0 = [] -> current_ns_address s0 <> None))
    as (Hr0 & Hq0 & Hs0).
  { split; [|split].
    - apply (Routed_same s); auto. unfold s0. cbn.
      rewrite Hq, udec64_1. lia.
    - unfold s0, quiet. cbn. rewrite Hq, udec64_1. auto.
    - intros Hu. apply Hr; [exact Hu|]. rewrite Hq. lia. }
  destruct (negb (done_ s0) && negb (is_TIME_OUT result)).
  - (* a response *)
    match type of E with context [handleRecursiveAnswer fuel wire ?x] =>
      assert (Routed x /\ quiet x) as [Hr1 Hq1];
      [|set (s1 := x) in *]
    end.
    { split; [|exact Hq0].
      eapply Routed_plain;
        [apply (rtt_routed s0 (compute_rtt now (current_ns_qsent_time s0)));
         assumption
        |reflexivity|reflexivity|reflexivity|trivial|reflexivity|].
      repeat constructor. }
    destruct (recursive_mode s1 && (m_rcode wire =? Rcode_NOERROR)).
    + destruct (handleRecursiveAnswer fuel wire s1) as [final s2| |] eqn:Eh;
        cbn in E; try discriminate.
      pose proof (handleRecursiveAnswer_shape fuel wire s1 final s2 Eh) as Hs.
      destruct final; injection E as <-.
      * apply stop_routed.
        -- apply (Routed_same s2); try reflexivity; [|trivial].
           eapply Silent_routed; eassumption.
        -- intros H. destruct Hq1 as [_ Hn1].
           rewrite <- (sil_nsas _ _ Hs) in Hn1. cbn in H. congruence.
      * apply (Routed_same s2); try reflexivity; [|trivial].
        eapply Continued_routed; eassumption.
    + cbn in E. injection E as <-. apply stop_routed.
      * apply (Routed_same s1); try reflexivity; [exact Hr1|trivial].
      * intros H. destruct Hq1 as [_ Hn1]. cbn in H, Hn1. congruence.
  - destruct (negb (done_ s0)).
    + destruct (negb (retries_ s0 =? 0)).
      * eapply send_routed; [| |exact E].
        -- destruct (recursive_mode _); cbn.
           ++ apply (rtt_routed (set_retries _ s0)); [|exact Hs0].
              apply (Routed_same s0); try reflexivity; [exact Hr0|trivial].
           ++ apply (Routed_same s0); try reflexivity; [exact Hr0|trivial].
        -- destruct (recursive_mode _); cbn; apply Hq0.
      * injection E as <-. apply out_of_retries_routed.
        -- apply (Routed_same s0); try reflexivity; [exact Hr0|trivial].
        -- apply Hq0.
        -- exact Hs0.
    + injection E as <-. apply out_of_retries_routed; [exact Hr0| |exact Hs0].
      apply Hq0.
Qed.

Lemma handle_routed (r0 : N) (fuel : nat) (ev : Event) (s s' : State) :
  Inv r0 s -> Routed s -> enabled ev s = true ->
  handle fuel ev s = Ok tt s' -> Routed s'.
Proof.
  intros [Hg _ _ _] Hr Hen E. pose proof Hg as [_ _ Ho Hm _ _].
  destruct ev; cbn [handle enabled] in *.
  - injection E as <-. apply stop_routed; [|exact Hm].
    apply (Routed_same s); try reflexivity; [exact Hr|trivial].
  - injection E as <-. unfold clientTimeout.
    assert (Routed (set_client_timer Finished s)) as H1
      by (apply (Routed_same s); try reflexivity; [exact Hr|trivial]).
    cbn. destruct (answer_sent_ s); cbn.
    + destruct (client_timer_canceled_ s); [|exact H1].
      apply stop_routed; [exact H1|exact Hm].
    + match goal with |- Routed (if _ then stop false ?x else ?x) =>
        assert (Routed x) as H2
      end.
      { eapply Routed_plain;
          [exact H1|reflexivity|reflexivity|reflexivity|trivial
          |reflexivity|].
        repeat constructor. }
      destruct (client_timer_canceled_ s); [|exact H2].
      apply stop_routed; [exact H2|exact Hm].
  - (* the NSAS found an address *)
    injection E as <-. specialize (Hm Hen).
    rewrite Hen in Ho. cbn in Ho.
    assert (queries_out_ s = 0) as Hq by lia.
    eapply Routed_app; [exact Hr|reflexivity|reflexivity| |..].
    + unfold sendTo, nsasCallbackCalled. cbn.
      rewrite <- app_assoc. reflexivity.
    + cbn. rewrite Hm. auto.
    + intros _. reflexivity.
    + intros _ _. discriminate.
    + intros H. contradiction.
  - (* the NSAS found none *)
    injection E as <-. specialize (Hm Hen). apply stop_routed.
    + eapply Routed_app; [exact Hr|reflexivity|reflexivity|reflexivity|..];
        cbn; auto.
      * intros Hu. apply Hr. exact Hu.
      * intros H. contradiction.
    + cbn. discriminate.
  - eapply operator_call_routed; eassumption.
  - injection E as <-.
    apply (Routed_same s); try reflexivity; [exact Hr|trivial].
Qed.

Lemma run_routed (r0 : N) (fuel : nat) (evs : list Event) :
  forall s s',
    Inv r0 s -> Routed s -> run fuel evs s = Ok tt s' -> Routed s'.
Proof.
  induction evs as [|ev evs IH]; intros s s' Hi Hr E; cbn [run] in E.
  - injection E as <-. exact Hr.
  - destruct (enabled ev s) eqn:Hen; [|eapply IH; eassumption].
    pose proof (handle_inv r0 fuel ev s Hi Hen) as Hs.
    destruct (handle fuel ev s) as [[] s1| |] eqn:Eh; cbn in E;
      try discriminate.
    cbn in Hs. destruct Hs as [Hi1 _].
    eapply IH; [exact Hi1| |exact E].
    exact (handle_routed r0 fuel ev s s1 Hi Hr Hen Eh).
Qed.

(** The calls [resolve] made before it constructed the query are lookups
    in the cache. *)
Lemma spawns_before (fuel : nat) (cfg : Config) (cache : ResolverCache)
    (question : Question) (r : Res unit) :
  spawns fuel cfg cache question r ->
  exists answer_message before,
    r = RunningQuery_new fuel cfg question answer_message cache before
    /\ Forall (fun e => is_routing e = false) before.
Proof.
  intros [r' H|m b r' H].
  - unfold resolve in H.
    destruct (cache_lookup _ _ _ _ _) as [m|].
    + destruct (0 <? getRRCount SECTION_ANSWER m); [discriminate|].
      destruct (cache_lookup_rrset _ _ _ _); [discriminate|].
      injection H as <-. eexists _, _. split; [reflexivity|].
      repeat constructor.
    + destruct (cache_lookup_rrset _ _ _ _); [discriminate|].
      injection H as <-. eexists _, _. split; [reflexivity|].
      repeat constructor.
  - unfold resolve_server in H.
    destruct (cache_lookup _ _ _ _ _) as [m'|].
    + destruct (0 <? getRRCount SECTION_ANSWER m'); [discriminate|].
      destruct (cache_lookup_rrset _ _ _ _); [discriminate|].
      injection H as <-. eexists _, _. split; [reflexivity|].
      repeat constructor.
    + destruct (cache_lookup_rrset _ _ _ _); [discriminate|].
      injection H as <-. eexists _, _. split; [reflexivity|].
      repeat constructor.
Qed.

Lemma constructed_routed (cfg : Config) (question : Question)
    (answer_message : Message) (cache : ResolverCache)
    (before : list Effect) :
  Forall (fun e => is_routing e = false) before ->
  let s := constructed cfg question answer_message cache before in
  Routed s /\ quiet s /\ upstream_ s = cfg_upstream cfg
  /\ query_timeout_ s = cfg_query_timeout cfg.
Proof.
  intros Hb. unfold constructed, quiet.
  destruct (Sends_plain (cfg_upstream cfg) (cfg_query_timeout cfg) before Hb
                        None) as [H1 H2].
  destruct (0 <=? cfg_lookup_timeout cfg)%Z,
           (0 <=? cfg_client_timeout cfg)%Z; cbn;
    (split; [constructor; cbn; auto; try (intros; discriminate); try lia|
             auto]).
Qed.

Lemma Continued_frame (s s' : State) : Continued s s' -> Frame s s'.
Proof.
  intros [s1 H1 E|s1 H1 ->]; unfold Frame.
  - rewrite <- (sil_upstream _ _ H1), <- (sil_query_timeout _ _ H1).
    unfold send in E. destruct (0 <? N.of_nat _).
    + injection E as <-. split; reflexivity.
    + destruct (nsas_callback_out_ s1); [discriminate|].
      injection E as <-. split; reflexivity.
  - rewrite <- (sil_upstream _ _ H1), <- (sil_query_timeout _ _ H1).
    destruct (stop_keeps true s1) as (A & B & _). split; assumption.
Qed.

Lemma spawns_routed (fuel : nat) (cfg : Config) (cache : ResolverCache)
    (question : Question) (s0 : State) (evs : list Event) (s : State) :
  spawns fuel cfg cache question (Ok tt s0) ->
  run fuel evs s0 = Ok tt s ->
  Routed s /\ upstream_ s = cfg_upstream cfg
  /\ query_timeout_ s = cfg_query_timeout cfg.
Proof.
  intros Hs Hr. pose proof (spawns_inv _ _ _ _ _ Hs) as [Hi _].
  destruct (spawns_before _ _ _ _ _ Hs) as (m & tr & E & Hb).
  rewrite RunningQuery_new_eq in E. symmetry in E.
  destruct (constructed_routed cfg question m cache tr Hb)
    as (Hr0 & Hq0 & Eu & Eq).
  pose proof (doLookup_shape _ _ _ E) as Hc.
  assert (Routed s0) as Hr1 by (eapply Continued_routed; eassumption).
  destruct (Continued_frame _ _ Hc) as [Cu Cq].
  destruct (run_ok_inv _ _ _ _ _ Hi Hr) as [_ [Fu Fq]].
  split; [eapply run_routed; eassumption|].
  split; congruence.
Qed.

(** X5: every fetch carries the configured query timeout; with forwarders
    configured it goes to one of them, address and port, and the NSAS is
    never used; with none it goes to port 53. *)
Theorem fetches_go_to_configured_servers (fuel : nat) (cfg : Config)
    (cache : ResolverCache) (question : Question) (s0 : State)
    (evs : list Event) (s : State) :
  spawns fuel cfg cache question (Ok tt s0) ->
  run fuel evs s0 = Ok tt s ->
  (forall q address port timeout,
      In (PostFetch q address port timeout) (trace s) ->
      timeout = cfg_query_timeout cfg
      /\ match cfg_upstream cfg with
         | [] => port = 53
         | _ :: _ => In (address, port) (cfg_upstream cfg)
         end)
  /\ (cfg_upstream cfg <> [] ->
      forall e, In e (trace s) ->
                is_nsas_lookup e = false /\ is_nsas_end e = false).
Proof.
  intros Hs Hr.
  destruct (spawns_routed _ _ _ _ _ _ _ Hs Hr) as ([R1 _ _ _] & Eu & Eq).
  rewrite Eu, Eq in R1. clear - R1.
  revert R1. generalize (@None NameserverAddress).
  induction (trace s) as [|e tr IH]; intros cur H; cbn in *.
  - split; [contradiction|]. intros _ e [].
  - destruct H as [He Htr]. destruct (IH _ Htr) as [IH1 IH2]. split.
    + intros q a p t [->|Hin]; [exact He|eapply IH1; exact Hin].
    + intros Hne e' [->|Hin]; [|apply IH2; assumption].
      destruct e'; cbn in *; try (split; reflexivity); contradiction.
Qed.

(** X6: with no forwarder, the RTT is reported for the server the last
    fetch was sent to; with forwarders, it is reported for
    [current_ns_address], which was never assigned. *)
Theorem rtt_goes_to_last_server (fuel : nat) (cfg : Config)
    (cache : ResolverCache) (question : Question) (s0 : State)
    (evs : list Event) (s : State) :
  spawns fuel cfg cache question (Ok tt s0) ->
  run fuel evs s0 = Ok tt s ->
  (forall pre x rtt post,
      trace s = pre ++ UpdateRTT x rtt :: post ->
      match cfg_upstream cfg with
      | [] => exists address, x = Some address
                              /\ last_fetch pre = Some address
      | _ :: _ => x = None
      end)
  /\ current_ns_address s
     = match cfg_upstream cfg with
       | [] => last_fetch (trace s)
       | _ :: _ => None
       end.
Proof.
  intros Hs Hr.
  destruct (spawns_routed _ _ _ _ _ _ _ Hs Hr) as ([R1 R2 _ R4] & Eu & Eq).
  rewrite Eu in *. split.
  - intros pre x rtt post E. rewrite E in R1.
    apply Sends_app in R1 as [_ [H _]]. cbn in H.
    fold (last_fetch pre) in H.
    destruct (cfg_upstream cfg); [|exact H].
    destruct H as [H1 H2]. destruct x as [a|]; [|contradiction].
    exists a. split; [reflexivity|]. symmetry. exact H1.
  - destruct (cfg_upstream cfg); [apply R2; reflexivity|].
    apply R4. discriminate.
Qed.

End Routing.

(** ** Requests, failures and the end of [operator()] *)

Section Requests.

Context {collaborators : Collaborators}.

(** X7: at most one request is outstanding at any time, a fetch or an NSAS
    lookup, never both; the NSAS is asked only when no forwarder is
    configured; and a fetch completes only in a query whose counter is one,
    so that [--queries_out_] never wraps. *)
Theorem one_request_outstanding (fuel : nat) (cfg : Config)
    (cache : ResolverCache) (question : Question) (s0 : State)
    (evs : list Event) (s : State) :
  spawns fuel cfg cache question (Ok tt s0) ->
  run fuel evs s0 = Ok tt s ->
  queries_out_ s + b2n (nsas_callback_out_ s) <= 1
  /\ (nsas_callback_out_ s = true -> cfg_upstream cfg = [])
  /\ (forall result wire now,
        enabled (FetchCompleted result wire now) s = true ->
        queries_out_ s = 1 /\ nsas_callback_out_ s = false
        /\ udec 64 (queries_out_ s) = 0)
  /\ (done_ s = true -> answer_sent_ s = true)
  /\ (done_ s = false -> retries_ s <= cfg_retries cfg).
Proof.
  intros Hs Hr. pose proof (spawns_inv _ _ _ _ _ Hs) as [Hi Hu].
  destruct (run_ok_inv _ _ _ _ _ Hi Hr) as [[Hg Hd _ Hre] [Fu _]].
  pose proof Hg as [_ _ Ho Hm _ _].
  split; [exact Ho|]. split; [intros H; rewrite <- Hu, <- Fu; auto|].
  split; [|split; assumption].
  intros result wire now Hen. cbn in Hen.
  destruct (enabled_fetch_quiet s Hg Hen) as [Hq Hn].
  rewrite Hq. auto using udec64_1.
Qed.

(** X8: once the caller has been answered, [stop] ignores [resume]: it does
    not signal, and leaves the cache and the answer as they are. *)
Theorem stop_after_answer (resume : bool) (s : State) :
  answer_sent_ s = true ->
  stop resume s = stop (negb resume) s
  /\ signals (trace (stop resume s)) = signals (trace s)
  /\ count is_cache_update (trace (stop resume s))
     = count is_cache_update (trace s)
  /\ cache_ (stop resume s) = cache_ s
  /\ answer_message_ (stop resume s) = answer_message_ s
  /\ answer_sent_ (stop resume s) = true /\ done_ (stop resume s) = true.
Proof.
  intros Ha. destruct (stop_answered resume s Ha) as (Hc & Hm & Hp).
  split; [|split; [|split; [|split; [|split; [|split]]]]].
  - unfold stop. cbn. rewrite Ha. reflexivity.
  - apply Hp; reflexivity.
  - apply Hp; reflexivity.
  - exact Hc.
  - exact Hm.
  - apply stop_answer_sent.
  - apply stop_done.
Qed.

(** X9: when the lookup timer fires or the NSAS finds no address before the
    caller was answered, the caller gets [failure()]; nothing is inserted
    into the cache; the timers and a fetch that is outstanding are left
    alone.  After the NSAS the answer is the SERVFAIL message, after the
    timer it is untouched. *)
Theorem failure_is_signalled (fuel : nat) (s : State) :
  answer_sent_ s = false ->
  (exists s',
      handle fuel LookupTimerHandler s = Ok tt s'
      /\ trace s' = trace s ++ [CallbackFailure]
      /\ answer_message_ s' = answer_message_ s /\ cache_ s' = cache_ s
      /\ done_ s' = true /\ answer_sent_ s' = true /\ deleted s' = deleted s
      /\ lookup_timer s' = Finished /\ client_timer s' = client_timer s
      /\ queries_out_ s' = queries_out_ s
      /\ nsas_callback_out_ s' = nsas_callback_out_ s)
  /\ (exists s',
        handle fuel NsasUnreachable s = Ok tt s'
        /\ trace s' = trace s ++ [NsasLookupDone; CallbackFailure]
        /\ answer_message_ s'
           = makeErrorMessage (answer_message_ s) Rcode_SERVFAIL
        /\ cache_ s' = cache_ s
        /\ done_ s' = true /\ answer_sent_ s' = true
        /\ deleted s' = deleted s
        /\ lookup_timer s' = lookup_timer s
        /\ client_timer s' = client_timer s
        /\ queries_out_ s' = queries_out_ s
        /\ nsas_callback_out_ s' = false).
Proof.
  intros Ha. split; eexists; (split; [reflexivity|]);
    unfold stop; cbn; rewrite Ha; cbn; rewrite <- ?app_assoc;
    repeat split; reflexivity.
Qed.

Lemma handler_cname_eq (n : nat) (incoming : Message) (s : State)
    (cname_target : Name) (cnt : N) :
  classify (question_ s) incoming (q_name (question_ s)) (cname_count_ s) true
  = (CNAME, cname_target, cnt) ->
  cnt < RESOLVER_MAX_CNAME_CHAIN ->
  handleRecursiveAnswer (S n) incoming s
  = bind
      (doLookup n
         (set_question
            (mkQuestion cname_target (q_class (question_ s))
                        (q_type (question_ s)))
            (set_answer_message
               (appendSection SECTION_ANSWER incoming (answer_message_ s))
               (cache_update_call incoming
                  (set_cname_count cnt
                     (emit (Classify (question_ s) incoming) s))))))
      (fun _ s => Ok false s).
Proof.
  intros Hc Hlt. cbn [handleRecursiveAnswer]. rewrite Hc.
  cbn [cname_count_ cache_update_call set_cname_count emit set_trace
       set_cache].
  apply N.leb_gt in Hlt. rewrite Hlt. reflexivity.
Qed.

Lemma doLookup_hit (fuel : nat) (s : State) (cached : Message) :
  cache_lookup (cache_ s) (q_name (question_ s)) (q_type (question_ s))
               (q_class (question_ s))
               (initResponseMessage (question_ s) new_message)
  = Some cached ->
  doLookup fuel s
  = bind (handleRecursiveAnswer fuel cached
            (emit (CacheLookup (q_name (question_ s)) (q_type (question_ s))
                               (q_class (question_ s))) s))
         (fun final s => if final then Ok tt (stop true s) else Ok tt s).
Proof.
  intros H. unfold doLookup, doLookup_with.
  cbn [cache_ emit set_trace]. rewrite H. reflexivity.
Qed.

(** X10: [operator()] stores what [handleRecursiveAnswer] returned into
    [done_] after the call, also when the call ended in [stop(true)].  So
    when a CNAME comes in whose target is answered from the cache, the
    query ends the handler with [done_] false; and if the caller had been
    answered and no timer is left, [stop(true)] has deleted the query
    before [done_] is written. *)
Theorem done_written_after_stop (fuel : nat) (wire cached : Message)
    (now : timeval) (s : State) (target : Name) (cnt : N) :
  upstream_ s = [] -> done_ s = false ->
  queries_out_ s = 1 -> nsas_callback_out_ s = false ->
  m_rcode wire = Rcode_NOERROR ->
  classify (question_ s) wire (q_name (question_ s)) (cname_count_ s) true
  = (CNAME, target, cnt) ->
  cnt < RESOLVER_MAX_CNAME_CHAIN ->
  let q' := mkQuestion target (q_class (question_ s)) (q_type (question_ s)) in
  cache_lookup (cache_update (cache_ s) wire) target (q_type q') (q_class q')
               (initResponseMessage q' new_message) = Some cached ->
  fst (fst (classify q' cached target cnt true)) = ANSWER ->
  exists s',
    operator_call (S (S fuel)) SUCCESS wire now s = Ok tt s'
    /\ done_ s' = false /\ answer_sent_ s' = true
    /\ (answer_sent_ s = false ->
        exists l m, trace s' = trace s ++ l ++ [CallbackSuccess m]
                    /\ deleted s' = deleted s)
    /\ (answer_sent_ s = true ->
        timer_pending' (lookup_timer s) (client_timer s) = false ->
        deleted s' = true
        /\ exists l, trace s' = trace s ++ l ++ [DeleteThis]).
Proof.
  intros Hu Hd Hq Hn Hrc Hcl Hcnt q' Hhit Hans.
  destruct (classify q' cached target cnt true) as [[cat t2] c2] eqn:Ec.
  cbn in Hans. subst cat.
  set (s1 := emit (FromWire wire)
               (emit (UpdateRTT (current_ns_address s)
                        (compute_rtt now (current_ns_qsent_time s)))
                  (set_queries_out (udec 64 (queries_out_ s)) s))).
  set (s2 := set_question
               (mkQuestion target (q_class (question_ s1))
                           (q_type (question_ s1)))
               (set_answer_message
                  (appendSection SECTION_ANSWER wire (answer_message_ s1))
                  (cache_update_call wire
                     (set_cname_count cnt
                        (emit (Classify (question_ s1) wire) s1))))).
  set (s3 := emit (CacheLookup (q_name (question_ s2))
                     (q_type (question_ s2)) (q_class (question_ s2))) s2).
  set (s4 := set_answer_message
               (copyResponseMessage cached (answer_message_ s3))
               (cache_update_call cached
                  (set_cname_count c2
                     (emit (Classify (question_ s3) cached) s3)))).
  assert (operator_call (S (S fuel)) SUCCESS wire now s
          = Ok tt (set_done false (stop true s4))) as E.
  { rewrite (operator_call_response (S (S fuel)) wire now s Hd).
    cbv zeta. fold s1. unfold recursive_mode. rewrite Hu, Hrc.
    cbn [andb N.eqb Rcode_NOERROR].
    rewrite (handler_cname_eq (S fuel) wire s1 target cnt Hcl Hcnt).
    fold s2.
    rewrite (doLookup_hit (S fuel) s2 cached Hhit). fold s3.
    rewrite (handler_answer_eq fuel cached s3 ANSWER t2 c2 Ec
                               (or_introl eq_refl)).
    fold s4. reflexivity. }
  assert (answer_sent_ s4 = answer_sent_ s /\ lookup_timer s4 = lookup_timer s
          /\ client_timer s4 = client_timer s
          /\ queries_out_ s4 = udec 64 (queries_out_ s)
          /\ nsas_callback_out_ s4 = nsas_callback_out_ s
          /\ deleted s4 = deleted s
          /\ exists l, trace s4 = trace s ++ l)
    as (Ea & El & Ecl & Eq & En & Ede & l0 & Et).
  { repeat (split; [reflexivity|]). eexists. unfold s4, s3, s2, s1. cbn.
    rewrite <- !app_assoc. reflexivity. }
  rewrite Hq, udec64_1 in Eq. rewrite Hn in En.
  clearbody s4. clear s1 s2 s3.
  exists (set_done false (stop true s4)). split; [exact E|].
  cbn [done_ set_done answer_sent_ trace deleted].
  split; [reflexivity|]. split; [apply stop_answer_sent|].
  pose proof (stop_trace true s4) as Hst. split.
  - intros Ha. rewrite Ea, Ha in Hst. rewrite Hst, Et.
    exists (l0 ++ [CacheUpdate (answer_message_ s4)]), (answer_message_ s4).
    split; [rewrite <- !app_assoc; reflexivity|].
    unfold stop. cbn. rewrite Ea, Ha. cbn. exact Ede.
  - intros Ha Ht. rewrite Ea, Ha, El, Ecl, Ht, Eq, En in Hst. cbn in Hst.
    split.
    + unfold stop. cbn. rewrite Ea, Ha. cbn. unfold timer_pending' in Ht.
      rewrite El, Ecl, Eq, En.
      destruct (lookup_timer s); try discriminate Ht;
        destruct (client_timer s); try discriminate Ht; cbn; reflexivity.
    + exists l0. rewrite Hst, Et. rewrite <- !app_assoc. reflexivity.
Qed.

(** X11: an answer from the cache.  When either entry point answers without
    constructing a query, the caller gets [success()] once with RCODE
    NOERROR, whatever the RCODE of the cached message, nothing is written to
    the cache and nothing is fetched.  The answer is what the message lookup
    of the cache made of the initial answer message, when that holds an
    answer RR, and the message lookup is the only call made before.
    Otherwise it is what the message lookup left (the initial message on a
    miss, the message with no answer RR on a hit) with the RRset of the
    RRset lookup added last in its ANSWER section.  The initial message is
    the fresh one with the question for the first entry point, and the
    caller's message with the opcode set and the question added for the
    second. *)
Theorem resolve_from_cache (fuel : nat) (cfg : Config)
    (cache : ResolverCache) (question : Question) (answer_message : Message)
    (buffer : list N) (initial : Message) (tr : list Effect) :
  (initial = initResponseMessage question new_message
   /\ resolve fuel cfg cache question = FromCache tr)
  \/ (initial = addQuestion question (setOpcode Opcode_QUERY answer_message)
      /\ resolve_server fuel cfg cache question answer_message buffer
         = FromCache tr) ->
  let probe :=
    cache_lookup cache (q_name question) (q_type question) (q_class question)
                 initial in
  signals tr = 1%nat /\ fetches tr = 0%nat
  /\ count is_cache_update tr = 0%nat
  /\ exists l m,
       tr = l ++ [CallbackSuccess m] /\ m_rcode m = Rcode_NOERROR
       /\ ((exists cached,
               probe = Some cached
               /\ 0 < getRRCount SECTION_ANSWER cached
               /\ l = [CacheLookup (q_name question) (q_type question)
                                   (q_class question)]
               /\ m = setRcode Rcode_NOERROR cached)
           \/ (exists rrset left_,
                  (probe = None /\ left_ = initial
                   \/ probe = Some left_
                      /\ getRRCount SECTION_ANSWER left_ = 0)
                  /\ cache_lookup_rrset cache (q_name question)
                       (q_type question) (q_class question) = Some rrset
                  /\ l = [CacheLookup (q_name question) (q_type question)
                                      (q_class question);
                          CacheLookupRRset (q_name question) (q_type question)
                                           (q_class question)]
                  /\ m = setRcode Rcode_NOERROR
                           (addRRset SECTION_ANSWER rrset left_)
                  /\ m_answer m = m_answer left_ ++ [rrset])).
Proof.
  assert (forall (l : list Effect) (m : Message) (P : list Effect -> Message -> Prop),
             signals l = 0%nat -> fetches l = 0%nat ->
             count is_cache_update l = 0%nat ->
             m_rcode m = Rcode_NOERROR -> P l m ->
             signals (l ++ [CallbackSuccess m]) = 1%nat
             /\ fetches (l ++ [CallbackSuccess m]) = 0%nat
             /\ count is_cache_update (l ++ [CallbackSuccess m]) = 0%nat
             /\ exists l' m',
                  l ++ [CallbackSuccess m] = l' ++ [CallbackSuccess m']
                  /\ m_rcode m' = Rcode_NOERROR /\ P l' m') as Hshape.
  { intros l m P H1 H2 H3 H4 H5.
    rewrite signals_snoc, fetches_snoc, count_snoc, H1, H2, H3.
    repeat (split; [reflexivity|]). exists l, m. auto. }
  intros H probe.
  assert (exists r,
             r = FromCache tr
             /\ r = (let tr0 := [CacheLookup (q_name question) (q_type question)
                                   (q_class question)] in
                     let '(hit, answer_message) :=
                       match probe with
                       | Some m => (0 <? getRRCount SECTION_ANSWER m, m)
                       | None => (false, initial)
                       end in
                     if hit then
                       FromCache (tr0 ++ [CallbackSuccess
                                            (setRcode Rcode_NOERROR answer_message)])
                     else
                       let tr1 := tr0 ++ [CacheLookupRRset (q_name question)
                                            (q_type question) (q_class question)] in
                       match cache_lookup_rrset cache (q_name question)
                               (q_type question) (q_class question) with
                       | Some cached_rrset =>
                           FromCache
                             (tr1 ++ [CallbackSuccess
                                        (setRcode Rcode_NOERROR
                                           (addRRset SECTION_ANSWER cached_rrset
                                              answer_message))])
                       | None =>
                           Started (RunningQuery_new fuel cfg question
                                      answer_message cache tr1)
                       end)) as (r & Er & Ed).
  { destruct H as [[Ei H]|[Ei H]]; eexists; (split; [exact H|]);
      subst probe; rewrite Ei; reflexivity. }
  subst r. cbv zeta in Ed.
  destruct probe as [m0|] eqn:Ep;
    [destruct (0 <? getRRCount SECTION_ANSWER m0) eqn:Hc|];
    cbv iota beta in Ed.
  - injection Ed as ->.
    apply (Hshape [_] (setRcode Rcode_NOERROR m0)); try reflexivity.
    left. exists m0. split; [reflexivity|]. split; [apply N.ltb_lt; exact Hc|].
    split; reflexivity.
  - destruct (cache_lookup_rrset _ _ _ _) as [r|] eqn:Er; [|discriminate].
    injection Ed as ->.
    apply (Hshape [_; _] (setRcode Rcode_NOERROR (addRRset SECTION_ANSWER r m0)));
      try reflexivity.
    right. exists r, m0. split.
    { right. split; [reflexivity|]. apply N.ltb_ge in Hc. lia. }
    repeat split; reflexivity.
  - destruct (cache_lookup_rrset _ _ _ _) as [r|] eqn:Er; [|discriminate].
    injection Ed as ->.
    apply (Hshape [_; _] (setRcode Rcode_NOERROR (addRRset SECTION_ANSWER r initial)));
      try reflexivity.
    right. exists r, initial. split.
    { left. split; reflexivity. }
    repeat split; reflexivity.
Qed.

End Requests.

Section Referral.

Context {collaborators : Collaborators}.

(** X12: a referral.  With no forwarder and no NSAS lookup outstanding, the
    referral is inserted into the cache, and the NSAS is asked for the
    owner of the first NS RRset of the AUTHORITY section: that becomes
    [cur_zone_], the question and the answer are left as they are, and the
    call is not final.  When the section holds no NS RRset the referral
    itself becomes the answer and the call is final. *)
Theorem referral_follows_first_ns (n : nat) (incoming : Message) (s : State)
    (target : Name) (cnt : N) :
  upstream_ s = [] -> nsas_callback_out_ s = false ->
  classify (question_ s) incoming (q_name (question_ s)) (cname_count_ s) true
  = (REFERRAL, target, cnt) ->
  (forall rrs,
      first_ns incoming = Some rrs ->
      (exists before after_,
          m_authority incoming = before ++ rrs :: after_
          /\ rrs_type rrs = RRType_NS
          /\ forall r, In r before -> rrs_type r <> RRType_NS)
      /\ exists s',
           handleRecursiveAnswer (S n) incoming s = Ok false s'
           /\ trace s'
              = trace s
                ++ [Classify (question_ s) incoming; CacheUpdate incoming;
                    NsasLookup (rrs_name rrs) (q_class (question_ s))]
           /\ cur_zone_ s' = rrs_name rrs
           /\ nsas_callback_out_ s' = true
           /\ queries_out_ s' = queries_out_ s
           /\ question_ s' = question_ s
           /\ answer_message_ s' = answer_message_ s
           /\ cache_ s' = cache_update (cache_ s) incoming)
  /\ (first_ns incoming = None ->
      (forall r, In r (m_authority incoming) -> rrs_type r <> RRType_NS)
      /\ exists s',
           handleRecursiveAnswer (S n) incoming s = Ok true s'
           /\ trace s'
              = trace s
                ++ [Classify (question_ s) incoming; CacheUpdate incoming]
           /\ answer_message_ s'
              = copyResponseMessage incoming (answer_message_ s)
           /\ nsas_callback_out_ s' = false
           /\ queries_out_ s' = queries_out_ s).
Proof.
  intros Hu Hn Hc. split.
  - intros rrs Hf. split.
    + unfold first_ns in Hf. cbn [getSection] in Hf.
      induction (m_authority incoming) as [|r l IH]; [discriminate|].
      cbn [find] in Hf. destruct (rrs_type r =? RRType_NS) eqn:Er.
      * injection Hf as ->. exists [], l. apply N.eqb_eq in Er.
        split; [reflexivity|]. split; [exact Er|]. intros r [].
      * destruct (IH Hf) as (b & a & -> & Ht & Hb).
        exists (r :: b), a. split; [reflexivity|]. split; [exact Ht|].
        intros r' [<-|Hin]; [apply N.eqb_neq; exact Er|apply Hb; exact Hin].
    + cbn [handleRecursiveAnswer]. rewrite Hc. rewrite Hf.
      unfold send. cbn. rewrite Hu, Hn. cbn.
      eexists. split; [reflexivity|]. cbn. rewrite <- !app_assoc.
      repeat (split; [reflexivity|]). reflexivity.
  - intros Hf. split.
    + unfold first_ns in Hf. cbn [getSection] in Hf.
      intros r Hin. apply N.eqb_neq.
      exact (find_none _ _ Hf r Hin).
    + cbn [handleRecursiveAnswer]. rewrite Hc. rewrite Hf.
      eexists. split; [reflexivity|]. cbn. rewrite <- !app_assoc, Hn.
      repeat (split; [reflexivity|]). reflexivity.
Qed.

End Referral.

(** ** The further properties on sample queries *)

Module More.

(** A cache that holds the answer for x.test. *)
Definition cached_x : ListCache := update empty_cache a_x.

(** No forwarder, and no timer at all. *)
Definition untimed : Config := mkConfig [] 2000 (-1) (-1) 2.

(** No forwarder, a client timer, no lookup timer. *)
Definition no_lookup_timer : Config := mkConfig [] 2000 100 (-1) 2.

Definition unt0 : State := started (resolve 2 untimed empty_cache q_x).

(** alias.test. is asked with the answer for x.test. in the cache; the
    fetch is out when the client timer fires. *)
Definition alias1 : State :=
  started (resolve 2 no_lookup_timer cached_x q_alias).

Definition late_alias : State :=
  after [NsasSuccess root_server t0; ClientTimerHandler] alias1.

(** The answer comes. *)
Definition direct : list Event :=
  [NsasSuccess root_server t0; FetchCompleted SUCCESS a_x t1].

(** The handlers that end a query. *)
Definition drain : list Event :=
  [LookupTimerHandler; ClientTimerHandler; NsasUnreachable;
   FetchCompleted TIME_OUT new_message t1].

(** x.test. is delegated: the root refers to the servers of test. *)
Definition ns_test : RRset :=
  mkRRset "test." RRClass_IN RRType_NS ["ns.test."].

Definition referral_x : Message :=
  mkMessage Opcode_QUERY Rcode_NOERROR [q_x] []
            [mkRRset "test." RRClass_IN 6 ["soa"]; ns_test] [].

(** The fetch for x.test. is out. *)
Definition asked : State := after [NsasSuccess root_server t0] iter0.

End More.
Import More.

Lemma unt0_spawned : spawns 2 untimed empty_cache q_x (Ok tt unt0).
Proof. apply spawns_resolve. compute_it. Qed.

Lemma refused_run : run 2 refused unt0 = Ok tt (after refused unt0).
Proof. compute_it. Qed.

Lemma direct_run : run 2 direct iter0 = Ok tt (after direct iter0).
Proof. compute_it. Qed.

(** The query whose fetches all timed out is deleted: it is idle. *)
Lemma deleted_query_is_idle_witness :
  spawns 2 iterative empty_cache q_x (Ok tt iter0)
  /\ run 2 timeouts iter0 = Ok tt (after timeouts iter0)
  /\ deleted (after timeouts iter0) = true
  /\ idle (after timeouts iter0) = true.
Proof.
  assert (deleted (after timeouts iter0) = true) as Hd by compute_it.
  pose proof (@deleted_query_is_idle collaborators 2 iterative empty_cache q_x
                iter0 timeouts (after timeouts iter0) iter0_spawned
                timeouts_run Hd) as (H & _).
  split; [exact iter0_spawned|]. split; [exact timeouts_run|].
  split; [exact Hd|exact H].
Defined.

(** The query that was answered and whose timers have fired is idle: it is
    deleted. *)
Lemma idle_query_is_deleted_witness :
  (0 <= cfg_lookup_timeout iterative)%Z
  /\ spawns 2 iterative empty_cache q_x (Ok tt iter0)
  /\ run 2 answered iter0 = Ok tt (after answered iter0)
  /\ idle (after answered iter0) = true
  /\ deleted (after answered iter0) = true.
Proof.
  assert (0 <= cfg_lookup_timeout iterative)%Z as Hc by (cbn; lia).
  assert (idle (after answered iter0) = true) as Hi by compute_it.
  pose proof (@idle_query_is_deleted collaborators 2 iterative empty_cache q_x
                iter0 answered (after answered iter0) Hc iter0_spawned
                answered_run Hi) as H.
  split; [exact Hc|]. split; [exact iter0_spawned|].
  split; [exact answered_run|]. split; [exact Hi|exact H].
Defined.

(** The query that has just received its answer is deleted once the
    handlers that are due have run. *)
Lemma teardown_ends_witness :
  (0 <= cfg_lookup_timeout iterative)%Z
  /\ spawns 2 iterative empty_cache q_x (Ok tt iter0)
  /\ run 2 direct iter0 = Ok tt (after direct iter0)
  /\ exists s',
       run 2 drain (after direct iter0) = Ok tt s' /\ deleted s' = true.
Proof.
  assert (0 <= cfg_lookup_timeout iterative)%Z as Hc by (cbn; lia).
  pose proof (@teardown_ends collaborators 2 iterative empty_cache q_x iter0
                direct (after direct iter0) new_message t1 Hc iter0_spawned
                direct_run) as H.
  split; [exact Hc|]. split; [exact iter0_spawned|].
  split; [exact direct_run|exact H].
Defined.

(** Without timers the query that was told that the name does not exist
    has answered, has nothing outstanding, and is not deleted. *)
Lemma unarmed_query_is_kept_witness :
  (cfg_lookup_timeout untimed < 0)%Z
  /\ (cfg_client_timeout untimed < 0)%Z
  /\ spawns 2 untimed empty_cache q_x (Ok tt unt0)
  /\ run 2 refused unt0 = Ok tt (after refused unt0)
  /\ answer_sent_ (after refused unt0) = true
  /\ idle (after refused unt0) = true
  /\ deleted (after refused unt0) = false.
Proof.
  assert (cfg_lookup_timeout untimed < 0)%Z as Hl by (cbn; lia).
  assert (cfg_client_timeout untimed < 0)%Z as Hc by (cbn; lia).
  pose proof (@unarmed_query_is_kept collaborators 2 untimed empty_cache q_x
                unt0 refused (after refused unt0) Hl unt0_spawned refused_run)
    as (_ & H & _).
  split; [exact Hl|]. split; [exact Hc|]. split; [exact unt0_spawned|].
  split; [exact refused_run|]. split; [compute_it|]. split; [compute_it|].
  exact (H Hc).
Defined.

(** The fetch of the forwarding query goes to the forwarder. *)
Lemma fetches_go_to_configured_servers_witness :
  spawns 2 forwarding empty_cache q_x (Ok tt fwd0)
  /\ run 2 [] fwd0 = Ok tt fwd0
  /\ In (PostFetch q_x "8.8.8.8" 53 2000) (trace fwd0)
  /\ 2000%Z = cfg_query_timeout forwarding
  /\ In ("8.8.8.8", 53) (cfg_upstream forwarding).
Proof.
  assert (run 2 [] fwd0 = Ok tt fwd0) as Hr by reflexivity.
  assert (In (PostFetch q_x "8.8.8.8" 53 2000) (trace fwd0)) as Hin.
  { replace (trace fwd0)
      with [CacheLookup "x.test." 1 1; CacheLookupRRset "x.test." 1 1;
            CacheLookup "x.test." 1 1; PostFetch q_x "8.8.8.8" 53 2000]
      by compute_it.
    right. right. right. left. reflexivity. }
  pose proof (@fetches_go_to_configured_servers collaborators 2 forwarding
                empty_cache q_x fwd0 [] fwd0 fwd0_spawned Hr)
    as (H & _).
  split; [exact fwd0_spawned|]. split; [exact Hr|]. split; [exact Hin|].
  exact (H q_x "8.8.8.8" 53 2000%Z Hin).
Defined.

(** The RTT of the answer is reported for the server the NSAS gave. *)
Lemma rtt_goes_to_last_server_witness :
  spawns 2 iterative empty_cache q_x (Ok tt iter0)
  /\ run 2 direct iter0 = Ok tt (after direct iter0)
  /\ current_ns_address (after direct iter0) = Some root_server
  /\ last_fetch (trace (after direct iter0)) = Some root_server.
Proof.
  pose proof (@rtt_goes_to_last_server collaborators 2 iterative empty_cache
                q_x iter0 direct (after direct iter0) iter0_spawned
                direct_run) as (_ & H).
  assert (current_ns_address (after direct iter0) = Some root_server) as Ha
    by compute_it.
  split; [exact iter0_spawned|]. split; [exact direct_run|].
  split; [exact Ha|]. rewrite <- Ha. symmetry. exact H.
Defined.

(** The query that waits for the NSAS has one request outstanding. *)
Lemma one_request_outstanding_witness :
  spawns 2 iterative empty_cache q_x (Ok tt iter0)
  /\ run 2 [] iter0 = Ok tt iter0
  /\ nsas_callback_out_ iter0 = true
  /\ queries_out_ iter0 + b2n (nsas_callback_out_ iter0) <= 1.
Proof.
  assert (run 2 [] iter0 = Ok tt iter0) as Hr by reflexivity.
  pose proof (@one_request_outstanding collaborators 2 iterative empty_cache
                q_x iter0 [] iter0 iter0_spawned Hr) as (H & _).
  split; [exact iter0_spawned|]. split; [exact Hr|].
  split; [compute_it|exact H].
Defined.

(** After the client timer has answered, [stop] does the same whatever
    [resume] is. *)
Lemma stop_after_answer_witness :
  answer_sent_ (after late iter0) = true
  /\ stop true (after late iter0) = stop false (after late iter0).
Proof.
  assert (answer_sent_ (after late iter0) = true) as Ha by compute_it.
  pose proof (@stop_after_answer collaborators true (after late iter0) Ha)
    as (H & _).
  split; [exact Ha|exact H].
Defined.

(** The lookup timer fires while the query waits for the NSAS. *)
Lemma failure_is_signalled_witness :
  answer_sent_ iter0 = false
  /\ exists s',
       handle 2 LookupTimerHandler iter0 = Ok tt s'
       /\ trace s' = trace iter0 ++ [CallbackFailure]
       /\ answer_message_ s' = answer_message_ iter0.
Proof.
  assert (answer_sent_ iter0 = false) as Ha by compute_it.
  pose proof (@failure_is_signalled collaborators 2 iter0 Ha)
    as ((s' & H1 & H2 & H3 & _) & _).
  split; [exact Ha|]. exists s'. auto.
Defined.

(** The CNAME for alias.test. comes after the client timer has answered;
    x.test. is in the cache, the query has no lookup timer: it is deleted
    inside [handleRecursiveAnswer], and [done_] is false afterwards. *)
Lemma done_written_after_stop_witness :
  upstream_ late_alias = [] /\ done_ late_alias = false
  /\ queries_out_ late_alias = 1 /\ nsas_callback_out_ late_alias = false
  /\ answer_sent_ late_alias = true
  /\ timer_pending' (lookup_timer late_alias) (client_timer late_alias)
     = false
  /\ exists s',
       operator_call 2 SUCCESS cname_alias t1 late_alias = Ok tt s'
       /\ done_ s' = false /\ deleted s' = true.
Proof.
  assert (upstream_ late_alias = []) as H1 by compute_it.
  assert (done_ late_alias = false) as H2 by compute_it.
  assert (queries_out_ late_alias = 1) as H3 by compute_it.
  assert (nsas_callback_out_ late_alias = false) as H4 by compute_it.
  assert (answer_sent_ late_alias = true) as H5 by compute_it.
  assert (timer_pending' (lookup_timer late_alias) (client_timer late_alias)
          = false) as H6 by compute_it.
  assert (m_rcode cname_alias = Rcode_NOERROR) as H7 by reflexivity.
  assert (classify (question_ late_alias) cname_alias
                   (q_name (question_ late_alias)) (cname_count_ late_alias)
                   true
          = (CNAME, "x.test.", 1)) as H8 by compute_it.
  assert (1 < RESOLVER_MAX_CNAME_CHAIN) as H9 by reflexivity.
  pose proof (@done_written_after_stop collaborators 0 cname_alias a_x t1
                late_alias "x.test." 1 H1 H2 H3 H4 H7 H8 H9) as H.
  cbv zeta in H.
  destruct H as (s' & E & Hd & _ & _ & Hx).
  - compute_it.
  - compute_it.
  - repeat (split; [assumption|]). exists s'.
    split; [exact E|]. split; [exact Hd|]. apply Hx; assumption.
Defined.

(** x.test. is asked with its answer in the cache. *)
Lemma resolve_from_cache_witness :
  resolve 2 iterative cached_x q_x
  = FromCache [CacheLookup "x.test." 1 1; CallbackSuccess a_x]
  /\ cache_lookup cached_x "x.test." RRType_A RRClass_IN
                  (initResponseMessage q_x new_message) = Some a_x
  /\ signals [CacheLookup "x.test." 1 1; CallbackSuccess a_x] = 1%nat.
Proof.
  assert (resolve 2 iterative cached_x q_x
          = FromCache [CacheLookup "x.test." 1 1; CallbackSuccess a_x]) as E
    by compute_it.
  pose proof (@resolve_from_cache collaborators 2 iterative cached_x q_x
                new_message [] _ _ (or_introl (conj eq_refl E))) as (H & _).
  split; [exact E|]. split; [compute_it|exact H].
Defined.

(** The root refers x.test. to test.: the NSAS is asked for test. *)
Lemma referral_follows_first_ns_witness :
  upstream_ asked = [] /\ nsas_callback_out_ asked = false
  /\ first_ns referral_x = Some ns_test
  /\ exists s',
       handleRecursiveAnswer 1 referral_x asked = Ok false s'
       /\ cur_zone_ s' = "test." /\ nsas_callback_out_ s' = true.
Proof.
  assert (upstream_ asked = []) as H1 by compute_it.
  assert (nsas_callback_out_ asked = false) as H2 by compute_it.
  assert (classify (question_ asked) referral_x (q_name (question_ asked))
                   (cname_count_ asked) true
          = (REFERRAL, "x.test.", 0)) as H3 by compute_it.
  assert (first_ns referral_x = Some ns_test) as H4 by reflexivity.
  destruct (@referral_follows_first_ns collaborators 0 referral_x asked
              "x.test." 0 H1 H2 H3) as [H _].
  destruct (H ns_test H4) as (_ & s' & E & _ & Hz & Hn & _).
  split; [exact H1|]. split; [exact H2|]. split; [exact H4|].
  exists s'. split; [exact E|]. split; [exact Hz|exact Hn].
Defined.

(** * The DHCPv6 Encrypted DNS option

    A shallow embedding of [Option6Dnr] of [dhcp/option6_dnr.cc]: the wire
    format of the address field, the packing and unpacking of the option
    and the parser of the convenient notation.  An exception is a result
    of its own; iterators into the option buffer are offsets into the
    data. *)

From Stdlib Require Import Strings.Byte.

Module Dnr.

(** ** Exceptions *)

Inductive Exception :=
| OutOfRange
| BadValue
| InvalidOptionDnrDomainName
| InvalidOptionDnrSvcParams
| OpaqueDataTupleError.

(** A call returns, throws, or is cut short by the fuel of a loop. *)
Inductive Throws (A : Type) :=
| Returned (a : A)
| Thrown (e : Exception)
| NoFuel.
Arguments Returned {A} a.
Arguments Thrown {A} e.
Arguments NoFuel {A}.

Definition and_then {A B} (r : Throws A) (k : A -> Throws B) : Throws B :=
  match r with
  | Returned a => k a
  | Thrown e => Thrown e
  | NoFuel => NoFuel
  end.

Notation "x <- m ;; k" := (and_then m (fun x => k))
  (at level 100, m at next level, right associativity).

(** ** Buffers *)

Definition uint16 (n : N) : N := n mod 2 ^ 16.

Definition byte_at (data : list byte) (pos : N) : byte :=
  nth (N.to_nat pos) data x00.

Definition octet (n : N) : byte :=
  match Byte.of_N (n mod 256) with
  | Some b => b
  | None => x00
  end.

(** [isc::util::readUint16] of lib/util, which is not among the sources:
    the two octets of a field, in network byte order as the comments of
    [parseConfigData] say of the fields of two octets. *)
Definition readUint16 (data : list byte) (pos : N) : N :=
  256 * Byte.to_N (byte_at data pos) + Byte.to_N (byte_at data (pos + 1)).

(** [OutputBuffer::writeUint16] of lib/util: "a 2-octet field containing
    the SvcParamKey as an integer in network byte order". *)
Definition writeUint16 (v : N) (buf : list byte) : list byte :=
  buf ++ [octet (v / 256); octet v].

(** [OutputBuffer::writeData(ptr, len)] *)
Definition writeData (src : list byte) (len : N) (buf : list byte)
  : list byte :=
  buf ++ firstn (N.to_nat len) src.

(** The sizes the code names: [SERVICE_PRIORITY_SIZE], [ADN_LENGTH_SIZE],
    [ADDR_LENGTH_SIZE] and [getMinimalLength] of option6_dnr.h;
    [getAddrLengthSize], the "2 bytes long Addr Length field" of the message
    of [unpackAddresses]; [V6ADDRESS_LEN], the 16 of "is not divisible by
    16".  The address families are only told apart. *)
Definition SERVICE_PRIORITY_SIZE : N := 2.
Definition ADN_LENGTH_SIZE : N := 2.
Definition ADDR_LENGTH_SIZE : N := 2.
Definition V6ADDRESS_LEN : N := 16.

Definition getMinimalLength : N := SERVICE_PRIORITY_SIZE + ADN_LENGTH_SIZE.
Definition getAddrLengthSize : N := ADDR_LENGTH_SIZE.

Definition AF_INET : N := 2.
Definition AF_INET6 : N := 10.

(** ** [OpaqueDataTuple], as [parseConfigData] uses it *)

Inductive LengthFieldType := LENGTH_1_BYTE | LENGTH_2_BYTES.

Record OpaqueDataTuple := mkTuple
  { length_field_type : LengthFieldType;
    tuple_data : list byte }.

Definition tuple_clear (t : OpaqueDataTuple) : OpaqueDataTuple :=
  mkTuple (length_field_type t) [].

Definition tuple_append (bytes : list byte) (t : OpaqueDataTuple)
  : OpaqueDataTuple :=
  mkTuple (length_field_type t) (tuple_data t ++ bytes).

(** ** What the option is built on

    [IOAddress] of asiolink, [Name] of lib/dns, the string helpers of
    lib/util, the registries and the members of the base classes [Option]
    and [DnrInstance] that [Option6Dnr] calls. *)
Class Library := mkLibrary
  { IOAddress : Type;
    isV6 : IOAddress -> bool;
    toBytes : IOAddress -> list byte;
    (* [IOAddress::fromBytes(family, data)]; [data] is what the pointer
       points to; [None] when it throws *)
    fromBytes : N -> list byte -> option IOAddress;
    (* [IOAddress(const std::string&)]; [None] when it throws *)
    IOAddress_of_string : string -> option IOAddress;
    DnsName : Type;
    (* [isc::dns::Name(const std::string&, bool downcase)] *)
    Name_of_string : string -> bool -> option DnsName;
    Name_getLength : DnsName -> N;
    (* [str::tokens(text, delim, escape)], [str::trim] *)
    tokens : string -> string -> bool -> list string;
    trim : string -> string;
    (* [boost::lexical_cast<uint16_t>]; [None] when it throws *)
    lexical_cast_uint16 : string -> option N;
    encodeUtf8 : string -> list byte;
    FORBIDDEN_SVC_PARAMS : list string;
    SVC_PARAMS : list (string * N);
    SUPPORTED_SVC_PARAMS : list N;   (* in increasing order *)
    ALPN_IDS : list string;
    (* [OpaqueDataTuple::pack(buf)] *)
    tuple_pack : OpaqueDataTuple -> list byte -> Throws (list byte) }.

Section Option6Dnr.

Context {library : Library}.

(** The members of [Option], [DnrInstance] and [Option6Dnr] the code reads
    and writes. *)
Record Option6Dnr := mkOption6Dnr
  { convenient_notation_ : bool;
    data_ : list byte;   (* Option::data_ *)
    service_priority_ : N;   (* uint16_t *)
    adn_length_ : N;   (* uint16_t *)
    adn_ : option DnsName;
    adn_only_mode_ : bool;
    addr_length_ : N;   (* uint16_t *)
    ip_addresses_ : list IOAddress;
    svc_params_length_ : N;   (* uint16_t *)
    svc_params_buf_ : list byte;
    svc_params_map_ : list (N * OpaqueDataTuple);
    alpn_http_ : bool }.

Definition set_convenient_notation (v : bool) (o : Option6Dnr) : Option6Dnr :=
  mkOption6Dnr v (data_ o) (service_priority_ o) (adn_length_ o) (adn_ o)
      (adn_only_mode_ o) (addr_length_ o) (ip_addresses_ o)
      (svc_params_length_ o) (svc_params_buf_ o) (svc_params_map_ o)
      (alpn_http_ o).

Definition set_data (v : list byte) (o : Option6Dnr) : Option6Dnr :=
  mkOption6Dnr (convenient_notation_ o) v (service_priority_ o) (adn_length_
      o) (adn_ o) (adn_only_mode_ o) (addr_length_ o) (ip_addresses_ o)
      (svc_params_length_ o) (svc_params_buf_ o) (svc_params_map_ o)
      (alpn_http_ o).

Definition set_service_priority (v : N) (o : Option6Dnr) : Option6Dnr :=
  mkOption6Dnr (convenient_notation_ o) (data_ o) v (adn_length_ o) (adn_ o)
      (adn_only_mode_ o) (addr_length_ o) (ip_addresses_ o)
      (svc_params_length_ o) (svc_params_buf_ o) (svc_params_map_ o)
      (alpn_http_ o).

Definition set_adn_length (v : N) (o : Option6Dnr) : Option6Dnr :=
  mkOption6Dnr (convenient_notation_ o) (data_ o) (service_priority_ o) v
      (adn_ o) (adn_only_mode_ o) (addr_length_ o) (ip_addresses_ o)
      (svc_params_length_ o) (svc_params_buf_ o) (svc_params_map_ o)
      (alpn_http_ o).

Definition set_adn (v : option DnsName) (o : Option6Dnr) : Option6Dnr :=
  mkOption6Dnr (convenient_notation_ o) (data_ o) (service_priority_ o)
      (adn_length_ o) v (adn_only_mode_ o) (addr_length_ o) (ip_addresses_
      o) (svc_params_length_ o) (svc_params_buf_ o) (svc_params_map_ o)
      (alpn_http_ o).

Definition set_adn_only_mode (v : bool) (o : Option6Dnr) : Option6Dnr :=
  mkOption6Dnr (convenient_notation_ o) (data_ o) (service_priority_ o)
      (adn_length_ o) (adn_ o) v (addr_length_ o) (ip_addresses_ o)
      (svc_params_length_ o) (svc_params_buf_ o) (svc_params_map_ o)
      (alpn_http_ o).

Definition set_addr_length (v : N) (o : Option6Dnr) : Option6Dnr :=
  mkOption6Dnr (convenient_notation_ o) (data_ o) (service_priority_ o)
      (adn_length_ o) (adn_ o) (adn_only_mode_ o) v (ip_addresses_ o)
      (svc_params_length_ o) (svc_params_buf_ o) (svc_params_map_ o)
      (alpn_http_ o).

Definition set_ip_addresses (v : list IOAddress) (o : Option6Dnr) : Option6Dnr :=
  mkOption6Dnr (convenient_notation_ o) (data_ o) (service_priority_ o)
      (adn_length_ o) (adn_ o) (adn_only_mode_ o) (addr_length_ o) v
      (svc_params_length_ o) (svc_params_buf_ o) (svc_params_map_ o)
      (alpn_http_ o).

Definition set_svc_params_length (v : N) (o : Option6Dnr) : Option6Dnr :=
  mkOption6Dnr (convenient_notation_ o) (data_ o) (service_priority_ o)
      (adn_length_ o) (adn_ o) (adn_only_mode_ o) (addr_length_ o)
      (ip_addresses_ o) v (svc_params_buf_ o) (svc_params_map_ o)
      (alpn_http_ o).

Definition set_svc_params_buf (v : list byte) (o : Option6Dnr) : Option6Dnr :=
  mkOption6Dnr (convenient_notation_ o) (data_ o) (service_priority_ o)
      (adn_length_ o) (adn_ o) (adn_only_mode_ o) (addr_length_ o)
      (ip_addresses_ o) (svc_params_length_ o) v (svc_params_map_ o)
      (alpn_http_ o).

Definition set_svc_params_map (v : list (N * OpaqueDataTuple)) (o : Option6Dnr) : Option6Dnr :=
  mkOption6Dnr (convenient_notation_ o) (data_ o) (service_priority_ o)
      (adn_length_ o) (adn_ o) (adn_only_mode_ o) (addr_length_ o)
      (ip_addresses_ o) (svc_params_length_ o) (svc_params_buf_ o) v
      (alpn_http_ o).

Definition set_alpn_http (v : bool) (o : Option6Dnr) : Option6Dnr :=
  mkOption6Dnr (convenient_notation_ o) (data_ o) (service_priority_ o)
      (adn_length_ o) (adn_ o) (adn_only_mode_ o) (addr_length_ o)
      (ip_addresses_ o) (svc_params_length_ o) (svc_params_buf_ o)
      (svc_params_map_ o) v.

(** The members of the base classes that [Option6Dnr] calls; a position is
    the iterator [begin] the member is given, and the one it leaves. *)
Class Base := mkBase
  { packHeader : Option6Dnr -> list byte -> bool -> Throws (list byte);
    packAdn : Option6Dnr -> list byte -> Throws (list byte);
    packSvcParams : Option6Dnr -> list byte -> Throws (list byte);
    unpackServicePriority : Option6Dnr -> list byte -> N -> Option6Dnr * N;
    unpackAdn :
      Option6Dnr -> list byte -> N -> N -> Throws (Option6Dnr * N);
    unpackSvcParams :
      Option6Dnr -> list byte -> N -> N -> Throws Option6Dnr }.

Context {base : Base}.

(** ** The address field *)

(** [packAddresses(buf)] *)
Fixpoint packAddresses_from (addresses : list IOAddress) (buf : list byte)
  : Throws (list byte) :=
  match addresses with
  | [] => Returned buf
  | address :: addresses =>
      if negb (isV6 address) then Thrown BadValue
      else packAddresses_from addresses
             (writeData (toBytes address) V6ADDRESS_LEN buf)
  end.

Definition packAddresses (o : Option6Dnr) (buf : list byte)
  : Throws (list byte) :=
  packAddresses_from (ip_addresses_ o) buf.

(** The loop of [unpackAddresses]: [while (begin != addr_end)]. *)
Fixpoint unpack_loop (fuel : nat) (data : list byte) (begin addr_end : N)
    (o : Option6Dnr) : Throws (Option6Dnr * N) :=
  match fuel with
  | O => NoFuel
  | S fuel =>
      if begin =? addr_end then Returned (o, begin)
      else
        match fromBytes AF_INET6 (skipn (N.to_nat begin) data) with
        | Some address =>
            unpack_loop fuel data (begin + V6ADDRESS_LEN) addr_end
              (set_ip_addresses (ip_addresses_ o ++ [address]) o)
        | None => Thrown BadValue   (* catch (const Exception&) *)
        end
  end.

(** [unpackAddresses(begin, end)]: [begin] and [end_] are offsets into
    [data]; the result holds the [begin] the call leaves. *)
Definition unpackAddresses (fuel : nat) (data : list byte) (begin end_ : N)
    (o : Option6Dnr) : Throws (Option6Dnr * N) :=
  if (Z.of_N end_ - Z.of_N begin <? Z.of_N getAddrLengthSize)%Z then
    Thrown OutOfRange
  else
    let o := set_addr_length (readUint16 data begin) o in
    let begin := begin + getAddrLengthSize in
    if negb (addr_length_ o mod V6ADDRESS_LEN =? 0) then Thrown OutOfRange
    else if addr_length_ o =? 0 then Thrown OutOfRange
    else if (Z.of_N end_ - Z.of_N begin <? Z.of_N (addr_length_ o))%Z then
      Thrown OutOfRange
    else
      let addr_end := begin + addr_length_ o in
      unpack_loop fuel data begin addr_end o.

(** ** The convenient notation *)

Definition token (l : list string) (i : nat) : string := nth i l "".

Definition map_find (key : N) (m : list (N * OpaqueDataTuple))
  : option OpaqueDataTuple :=
  match find (fun kv => fst kv =? key) m with
  | Some kv => Some (snd kv)
  | None => None
  end.

(** [std::map::insert]: an element whose key is present is not replaced. *)
Definition map_insert (key : N) (t : OpaqueDataTuple)
    (m : list (N * OpaqueDataTuple)) : list (N * OpaqueDataTuple) :=
  match map_find key m with
  | Some _ => m
  | None => m ++ [(key, t)]
  end.

(** The loop over the resolver addresses. *)
Fixpoint parse_addresses (addresses : list string) (o : Option6Dnr)
  : Throws Option6Dnr :=
  match addresses with
  | [] => Returned o
  | txt_addr :: addresses =>
      match IOAddress_of_string (trim txt_addr) with
      | Some address =>
          parse_addresses addresses
            (set_ip_addresses (ip_addresses_ o ++ [address]) o)
      | None => Thrown BadValue
      end
  end.

(** The loop over the alpn-ids; the state is the option and
    [svc_param_val_tuple]. *)
Fixpoint parse_alpn_ids (alpn_ids_tokens : list string)
    (st : Option6Dnr * OpaqueDataTuple)
  : Throws (Option6Dnr * OpaqueDataTuple) :=
  match alpn_ids_tokens with
  | [] => Returned st
  | alpn_id :: alpn_ids_tokens =>
      let '(o, svc_param_val_tuple) := st in
      if negb (existsb (String.eqb alpn_id) ALPN_IDS) then
        Thrown InvalidOptionDnrSvcParams
      else
        let o := if prefix "h" alpn_id then set_alpn_http true o else o in
        let alpn_id_tuple :=
          tuple_append (list_byte_of_string alpn_id)
                       (mkTuple LENGTH_1_BYTE []) in
        out_buf <- tuple_pack alpn_id_tuple [];;
        parse_alpn_ids alpn_ids_tokens
          (o, tuple_append out_buf svc_param_val_tuple)
  end.

(** The body of the loop over the SvcParamKey=SvcParamValue pairs. *)
Definition parse_svc_param (svc_param_pair : string)
    (st : Option6Dnr * OpaqueDataTuple)
  : Throws (Option6Dnr * OpaqueDataTuple) :=
  let '(o, svc_param_val_tuple) := st in
  let key_val_tokens := tokens (trim svc_param_pair) "=" false in
  if negb (List.length key_val_tokens =? 2)%nat then
    Thrown InvalidOptionDnrSvcParams
  else
    let svc_param_key := trim (token key_val_tokens 0) in
    if existsb (String.eqb svc_param_key) FORBIDDEN_SVC_PARAMS then
      Thrown InvalidOptionDnrSvcParams
    else
      match find (fun kv => String.eqb (fst kv) svc_param_key) SVC_PARAMS
      with
      | None => Thrown InvalidOptionDnrSvcParams
      | Some (_, num_svc_param_key) =>
          if negb (existsb (N.eqb num_svc_param_key) SUPPORTED_SVC_PARAMS)
          then Thrown InvalidOptionDnrSvcParams
          else
            match map_find num_svc_param_key (svc_params_map_ o) with
            | Some _ => Thrown InvalidOptionDnrSvcParams
            | None =>
                let svc_param_val := trim (token key_val_tokens 1) in
                if (svc_param_val =? "")%string then
                  Thrown InvalidOptionDnrSvcParams
                else
                  let svc_param_val_tuple :=
                    tuple_clear svc_param_val_tuple in
                  if num_svc_param_key =? 1 then
                    (* alpn *)
                    st <- parse_alpn_ids (tokens svc_param_val "," false)
                            (o, svc_param_val_tuple);;
                    let '(o, svc_param_val_tuple) := st in
                    Returned
                      (set_svc_params_map
                         (map_insert num_svc_param_key svc_param_val_tuple
                                     (svc_params_map_ o)) o,
                       svc_param_val_tuple)
                  else if num_svc_param_key =? 3 then
                    (* port *)
                    match lexical_cast_uint16 svc_param_val with
                    | None => Thrown InvalidOptionDnrSvcParams
                    | Some port =>
                        let out_buf := writeUint16 port [] in
                        let svc_param_val_tuple :=
                          tuple_append out_buf svc_param_val_tuple in
                        Returned
                          (set_svc_params_map
                             (map_insert num_svc_param_key
                                         svc_param_val_tuple
                                         (svc_params_map_ o)) o,
                           svc_param_val_tuple)
                    end
                  else if num_svc_param_key =? 7 then
                    (* dohpath *)
                    match index 0 "{?dns}" svc_param_val with
                    | None => Thrown InvalidOptionDnrSvcParams
                    | Some _ =>
                        let svc_param_val_tuple :=
                          tuple_append (encodeUtf8 svc_param_val)
                                       svc_param_val_tuple in
                        Returned
                          (set_svc_params_map
                             (map_insert num_svc_param_key
                                         svc_param_val_tuple
                                         (svc_params_map_ o)) o,
                           svc_param_val_tuple)
                    end
                  else Returned (o, svc_param_val_tuple)
            end
      end.

Fixpoint parse_svc_params (svc_params_pairs : list string)
    (st : Option6Dnr * OpaqueDataTuple)
  : Throws (Option6Dnr * OpaqueDataTuple) :=
  match svc_params_pairs with
  | [] => Returned st
  | svc_param_pair :: svc_params_pairs =>
      st <- parse_svc_param svc_param_pair st;;
      parse_svc_params svc_params_pairs st
  end.

(** The loop that packs the SvcParams, in the order of
    [SUPPORTED_SVC_PARAMS]. *)
Fixpoint pack_svc_params (keys : list N) (m : list (N * OpaqueDataTuple))
    (out_buf : list byte) : Throws (list byte) :=
  match keys with
  | [] => Returned out_buf
  | svc_param_key :: keys =>
      match map_find svc_param_key m with
      | Some t =>
          out_buf <- tuple_pack t (writeUint16 svc_param_key out_buf);;
          pack_svc_params keys m out_buf
      | None => pack_svc_params keys m out_buf
      end
  end.

(** [parseConfigData(config_txt)] *)
Definition parseConfigData (config_txt : string) (o : Option6Dnr)
  : Throws Option6Dnr :=
  let tokens_ := tokens config_txt "," true in
  if (List.length tokens_ <? 2)%nat then Thrown BadValue
  else if (4 <? List.length tokens_)%nat then Thrown BadValue
  else
    (* Service Priority *)
    let txt_svc_priority := trim (token tokens_ 0) in
    match lexical_cast_uint16 txt_svc_priority with
    | None => Thrown BadValue
    | Some service_priority =>
        let o := set_service_priority service_priority o in
        (* ADN *)
        let txt_adn := trim (token tokens_ 1) in
        match Name_of_string txt_adn true with
        | None => Thrown InvalidOptionDnrDomainName
        | Some adn =>
            let o := set_adn (Some adn) o in
            let o := set_adn_length (uint16 (Name_getLength adn)) o in
            if adn_length_ o =? 0 then Thrown InvalidOptionDnrDomainName
            else
              o <- (if (2 <? List.length tokens_)%nat then
                      let o := set_adn_only_mode false o in
                      let txt_addresses := trim (token tokens_ 2) in
                      let addresses := tokens txt_addresses " " false in
                      o <- parse_addresses addresses o;;
                      match ip_addresses_ o with
                      | [] => Thrown BadValue
                      | _ :: _ =>
                          Returned
                            (set_addr_length
                               (uint16
                                  (N.of_nat (List.length (ip_addresses_ o))
                                   * V6ADDRESS_LEN)) o)
                      end
                    else Returned o);;
              if (List.length tokens_ =? 4)%nat then
                let txt_svc_params := trim (token tokens_ 3) in
                let svc_params_pairs := tokens txt_svc_params " " false in
                st <- parse_svc_params svc_params_pairs
                        (o, mkTuple LENGTH_2_BYTES []);;
                let '(o, _) := st in
                if alpn_http_ o
                   && match map_find 7 (svc_params_map_ o) with
                      | None => true
                      | Some _ => false
                      end
                then Thrown InvalidOptionDnrSvcParams
                else
                  out_buf <- pack_svc_params SUPPORTED_SVC_PARAMS
                               (svc_params_map_ o) [];;
                  let o := set_svc_params_buf out_buf o in
                  let o :=
                    set_svc_params_length
                      (uint16 (N.of_nat (List.length out_buf))) o in
                  (* the function ends in [isc_throw(BadValue, ...)] *)
                  Thrown BadValue
              else Returned o
        end
    end.

(** ** Packing and unpacking the option *)

(** [pack(buf, check)] *)
Definition pack (o : Option6Dnr) (buf : list byte) (check : bool)
  : Throws (list byte) :=
  buf <- packHeader o buf check;;
  let buf := writeUint16 (service_priority_ o) buf in
  let buf := writeUint16 (adn_length_ o) buf in
  buf <- packAdn o buf;;
  if adn_only_mode_ o then Returned buf
  else
    let buf := writeUint16 (addr_length_ o) buf in
    buf <- packAddresses o buf;;
    packSvcParams o buf.

(** [unpack(begin, end)]: [data] is what lies between the two iterators. *)
Definition unpack (fuel : nat) (data : list byte) (o : Option6Dnr)
  : Throws Option6Dnr :=
  let begin := 0 in
  let end_ := N.of_nat (List.length data) in
  if convenient_notation_ o then
    parseConfigData (string_of_list_byte data) o
  else if (Z.of_N end_ - Z.of_N begin <? Z.of_N getMinimalLength)%Z then
    Thrown OutOfRange
  else
    let o := set_data data o in
    let '(o, begin) := unpackServicePriority o data begin in
    r <- unpackAdn o data begin end_;;
    let '(o, begin) := r in
    if begin =? end_ then Returned o
    else
      let o := set_adn_only_mode false o in
      r <- unpackAddresses fuel data begin end_ o;;
      let '(o, begin) := r in
      unpackSvcParams o data begin end_.

(** The constructor from a buffer; [blank] is what the constructors of
    [Option] and [DnrInstance] leave. *)
Definition Option6Dnr_new (fuel : nat) (blank : Option6Dnr)
    (data : list byte) (convenient_notation : bool) : Throws Option6Dnr :=
  unpack fuel data (set_convenient_notation convenient_notation blank).

End Option6Dnr.



(** ** Properties of the address field *)

Section AddressField.

Context {library : Library}.

Lemma octet_to_N (n : N) : Byte.to_N (octet n) = n mod 256.
Proof.
  unfold octet. destruct (Byte.of_N (n mod 256)) eqn:E.
  - apply Byte.to_of_N. exact E.
  - apply Byte.of_N_None_iff in E.
    pose proof (N.mod_lt n 256). lia.
Qed.

Lemma readUint16_writeUint16 (v : N) (buf rest : list byte) :
  v < 2 ^ 16 ->
  readUint16 (writeUint16 v buf ++ rest) (N.of_nat (List.length buf)) = v.
Proof.
  intros Hv. unfold readUint16, writeUint16, byte_at.
  rewrite <- app_assoc. cbn [app].
  replace (N.to_nat (N.of_nat (List.length buf) + 1))
    with (List.length buf + 1)%nat by lia.
  rewrite Nat2N.id, app_nth2_plus, nth_middle. cbn [nth].
  rewrite !octet_to_N.
  assert (v / 256 < 256) as Hd.
  { apply N.Div0.div_lt_upper_bound. exact Hv. }
  rewrite (N.mod_small (v / 256) 256 Hd).
  symmetry. apply N.div_mod. discriminate.
Qed.

(** What [packAddresses] writes for one address. *)
Definition address_octets (address : IOAddress) : list byte :=
  firstn (N.to_nat V6ADDRESS_LEN) (toBytes address).

Lemma packAddresses_from_spec (addresses : list IOAddress) :
  forall buf,
    packAddresses_from addresses buf
    = if forallb isV6 addresses
      then Returned (buf ++ flat_map address_octets addresses)
      else Thrown BadValue.
Proof.
  induction addresses as [|a l IH]; intros buf; cbn.
  - rewrite app_nil_r. reflexivity.
  - destruct (isV6 a); cbn; [|reflexivity].
    rewrite IH. unfold writeData, address_octets.
    destruct (forallb isV6 l); [|reflexivity].
    rewrite <- app_assoc. reflexivity.
Qed.

(** The addresses [n] calls of [fromBytes] read from [pos] on, 16 octets
    apart. *)
Fixpoint addresses_at (data : list byte) (pos : N) (n : nat)
  : option (list IOAddress) :=
  match n with
  | O => Some []
  | S n =>
      match fromBytes AF_INET6 (skipn (N.to_nat pos) data) with
      | Some address =>
          option_map (cons address)
                     (addresses_at data (pos + V6ADDRESS_LEN) n)
      | None => None
      end
  end.

Lemma unpack_loop_spec (data : list byte) (n : nat) :
  forall fuel begin o,
    (n < fuel)%nat ->
    unpack_loop fuel data begin (begin + V6ADDRESS_LEN * N.of_nat n) o
    = match addresses_at data begin n with
      | Some l =>
          Returned (set_ip_addresses (ip_addresses_ o ++ l) o,
                    begin + V6ADDRESS_LEN * N.of_nat n)
      | None => Thrown BadValue
      end.
Proof.
  induction n as [|n IH]; intros fuel begin o Hf;
    (destruct fuel as [|fuel]; [lia|]); cbn [unpack_loop addresses_at].
  - replace (begin + V6ADDRESS_LEN * N.of_nat 0) with begin by lia.
    rewrite N.eqb_refl, app_nil_r. destruct o; reflexivity.
  - assert ((begin =? begin + V6ADDRESS_LEN * N.of_nat (S n)) = false) as ->.
    { apply N.eqb_neq. unfold V6ADDRESS_LEN. lia. }
    destruct (fromBytes AF_INET6 _) as [a|]; [|reflexivity].
    replace (begin + V6ADDRESS_LEN * N.of_nat (S n))
      with (begin + V6ADDRESS_LEN + V6ADDRESS_LEN * N.of_nat n)
      by (unfold V6ADDRESS_LEN; lia).
    rewrite IH by lia.
    destruct (addresses_at data (begin + V6ADDRESS_LEN) n) as [l|];
      [|reflexivity].
    cbn. rewrite <- app_assoc. reflexivity.
Qed.

Lemma unpack_loop_in_range (fuel : nat) (data : list byte) :
  forall begin addr_end o,
    unpack_loop fuel data begin addr_end o <> Thrown OutOfRange.
Proof.
  induction fuel as [|fuel IH]; intros begin addr_end o; cbn [unpack_loop];
    [discriminate|].
  destruct (begin =? addr_end); [discriminate|].
  destruct (fromBytes AF_INET6 _); [apply IH|discriminate].
Qed.

(** X13: [unpackAddresses] throws [OutOfRange] exactly when fewer than two
    octets are left for Addr Length, or Addr Length is not a multiple of
    16, or is 0, or exceeds what is left after it. *)
Theorem unpackAddresses_out_of_range (fuel : nat) (data : list byte)
    (begin end_ : N) (o : Option6Dnr) :
  let len := readUint16 data begin in
  unpackAddresses fuel data begin end_ o = Thrown OutOfRange
  <-> end_ < begin + 2 \/ len mod 16 <> 0 \/ len = 0
      \/ end_ < begin + 2 + len.
Proof.
  intros len. unfold unpackAddresses.
  cbn [addr_length_ set_addr_length]. fold len.
  unfold getAddrLengthSize, ADDR_LENGTH_SIZE, V6ADDRESS_LEN.
  destruct (Z.of_N end_ - Z.of_N begin <? Z.of_N 2)%Z eqn:E1.
  { apply Z.ltb_lt in E1. split; [intros _; left; lia|reflexivity]. }
  apply Z.ltb_ge in E1.
  destruct (len mod 16 =? 0) eqn:E2; cbn [negb].
  2: { apply N.eqb_neq in E2. split; [intros _; auto|reflexivity]. }
  apply N.eqb_eq in E2.
  destruct (len =? 0) eqn:E3.
  { apply N.eqb_eq in E3. split; [intros _; auto|reflexivity]. }
  apply N.eqb_neq in E3.
  destruct (Z.of_N end_ - Z.of_N (begin + 2) <? Z.of_N len)%Z eqn:E4.
  { apply Z.ltb_lt in E4. split; [intros _; right; right; right; lia
                                 |reflexivity]. }
  apply Z.ltb_ge in E4.
  split.
  - intros H. exfalso. revert H. apply unpack_loop_in_range.
  - intros [H|[H|[H|H]]]; [lia|contradiction|contradiction|lia].
Qed.

(** X14: when the four checks pass, [unpackAddresses] ends after Addr Length
    / 16 turns of its loop: it stores Addr Length, appends that many
    addresses, read 16 octets apart, and leaves [begin] after the last
    one; it throws [BadValue] if [fromBytes] throws for one of them.
    Nothing else of the option changes. *)
Theorem unpackAddresses_returns (fuel : nat) (data : list byte)
    (begin end_ : N) (o : Option6Dnr) :
  let len := readUint16 data begin in
  begin + 2 + len <= end_ -> len mod 16 = 0 -> len <> 0 ->
  len / 16 < N.of_nat fuel ->
  unpackAddresses fuel data begin end_ o
  = match addresses_at data (begin + 2) (N.to_nat (len / 16)) with
    | Some l =>
        Returned
          (set_ip_addresses (ip_addresses_ o ++ l) (set_addr_length len o),
           begin + 2 + len)
    | None => Thrown BadValue
    end.
Proof.
  intros len H1 H2 H3 H4. unfold unpackAddresses.
  cbn [addr_length_ set_addr_length]. fold len.
  unfold getAddrLengthSize, ADDR_LENGTH_SIZE.
  assert ((Z.of_N end_ - Z.of_N begin <? Z.of_N 2)%Z = false) as ->
    by (apply Z.ltb_ge; lia).
  change (len mod V6ADDRESS_LEN) with (len mod 16).
  rewrite H2. cbn [N.eqb negb].
  assert ((len =? 0) = false) as -> by (apply N.eqb_neq; exact H3).
  assert ((Z.of_N end_ - Z.of_N (begin + 2) <? Z.of_N len)%Z = false) as ->
    by (apply Z.ltb_ge; lia).
  assert (len = V6ADDRESS_LEN * N.of_nat (N.to_nat (len / 16))) as Hn.
  { rewrite N2Nat.id. unfold V6ADDRESS_LEN.
    pose proof (N.div_mod len 16). lia. }
  rewrite Hn at 1. rewrite unpack_loop_spec by lia.
  rewrite <- Hn. rewrite <- N.add_assoc. reflexivity.
Qed.

(** An address [packAddresses] and [fromBytes] agree on: an IPv6 address of
    16 octets that [fromBytes] reads back. *)
Definition codec_ok (address : IOAddress) : Prop :=
  isV6 address = true
  /\ (16 <= List.length (toBytes address))%nat
  /\ forall rest,
       fromBytes AF_INET6 (address_octets address ++ rest) = Some address.

Lemma address_octets_length (a : IOAddress) :
  (16 <= List.length (toBytes a))%nat ->
  List.length (address_octets a) = 16%nat.
Proof.
  intros H. unfold address_octets. rewrite length_firstn.
  change (N.to_nat V6ADDRESS_LEN) with 16%nat. lia.
Qed.

Lemma addresses_at_packed (addresses : list IOAddress) :
  Forall codec_ok addresses ->
  forall prefix rest,
    addresses_at (prefix ++ flat_map address_octets addresses ++ rest)
                 (N.of_nat (List.length prefix)) (List.length addresses)
    = Some addresses
    /\ List.length (flat_map address_octets addresses)
       = (16 * List.length addresses)%nat.
Proof.
  induction 1 as [|a l (Hv & Hl & Hf) _ IH]; intros prefix rest.
  - split; reflexivity.
  - cbn [flat_map List.length addresses_at].
    rewrite Nat2N.id, skipn_app, Nat.sub_diag, skipn_all. cbn [app skipn].
    rewrite <- app_assoc, Hf.
    specialize (IH (prefix ++ address_octets a) rest).
    rewrite <- app_assoc in IH. rewrite length_app in IH.
    rewrite (address_octets_length a Hl) in IH.
    replace (N.of_nat (List.length prefix) + V6ADDRESS_LEN)
      with (N.of_nat (List.length prefix + 16))
      by (unfold V6ADDRESS_LEN; lia).
    destruct IH as [IH1 IH2]. rewrite IH1. split; [reflexivity|].
    rewrite length_app, (address_octets_length a Hl), IH2. lia.
Qed.

(** X15: the address field makes the round trip.  What [pack] writes for
    Addr Length and the addresses of an option with at least one and fewer
    than 4096 IPv6 addresses, [unpackAddresses] reads back: the same
    addresses, the same Addr Length, and [begin] after the field. *)
Theorem addresses_round_trip (fuel : nat) (o o0 : Option6Dnr)
    (buf rest : list byte) :
  Forall codec_ok (ip_addresses_ o) ->
  ip_addresses_ o <> [] ->
  addr_length_ o = V6ADDRESS_LEN * N.of_nat (List.length (ip_addresses_ o)) ->
  addr_length_ o < 2 ^ 16 ->
  (List.length (ip_addresses_ o) < fuel)%nat ->
  exists wire,
    packAddresses o (writeUint16 (addr_length_ o) buf) = Returned wire
    /\ List.length wire
       = (List.length buf + 2 + N.to_nat (addr_length_ o))%nat
    /\ unpackAddresses fuel (wire ++ rest) (N.of_nat (List.length buf))
                       (N.of_nat (List.length wire)) o0
       = Returned
           (set_ip_addresses (ip_addresses_ o0 ++ ip_addresses_ o)
                             (set_addr_length (addr_length_ o) o0),
            N.of_nat (List.length wire)).
Proof.
  intros Hok Hne Hlen Hlt Hfuel.
  set (l := ip_addresses_ o) in *. set (len := addr_length_ o) in *.
  assert (forallb isV6 l = true) as Hv.
  { apply forallb_forall. intros a Ha.
    rewrite Forall_forall in Hok. apply (Hok a Ha). }
  destruct (addresses_at_packed l Hok (writeUint16 len buf) rest)
    as [Hat Hfl].
  exists (writeUint16 len buf ++ flat_map address_octets l).
  assert (List.length (writeUint16 len buf) = (List.length buf + 2)%nat)
    as Hw by (unfold writeUint16; rewrite length_app; reflexivity).
  assert (List.length (writeUint16 len buf ++ flat_map address_octets l)
          = (List.length buf + 2 + N.to_nat len)%nat) as Hwl.
  { rewrite length_app, Hw, Hfl, Hlen. unfold V6ADDRESS_LEN. lia. }
  split; [|split].
  - unfold packAddresses. fold l. rewrite packAddresses_from_spec, Hv.
    reflexivity.
  - exact Hwl.
  - assert (readUint16
              ((writeUint16 len buf ++ flat_map address_octets l) ++ rest)
              (N.of_nat (List.length buf)) = len) as Hread.
    { rewrite <- app_assoc. apply readUint16_writeUint16. exact Hlt. }
    assert (len / 16 = N.of_nat (List.length l)) as Hdiv.
    { rewrite Hlen. unfold V6ADDRESS_LEN.
      rewrite N.mul_comm. apply N.div_mul. discriminate. }
    rewrite unpackAddresses_returns; rewrite Hread.
    + rewrite Hdiv, Nat2N.id.
      replace (N.of_nat (List.length buf) + 2)
        with (N.of_nat (List.length (writeUint16 len buf))) by lia.
      rewrite <- app_assoc, Hat. f_equal. f_equal. lia.
    + lia.
    + rewrite Hlen. unfold V6ADDRESS_LEN. rewrite N.mul_comm.
      apply N.Div0.mod_mul.
    + destruct l; [contradiction|]. rewrite Hlen. cbn [List.length].
      unfold V6ADDRESS_LEN. lia.
    + rewrite Hdiv. lia.
Qed.

(** X16: [packAddresses] throws [BadValue] exactly when one of the addresses
    is not an IPv6 address, wherever it stands, and throws nothing else;
    it returns exactly when all are IPv6 addresses, and has then appended
    16 octets of every address, in order. *)
Theorem packAddresses_spec (o : Option6Dnr) (buf : list byte) :
  (packAddresses o buf = Thrown BadValue
   <-> exists address,
         In address (ip_addresses_ o) /\ isV6 address = false)
  /\ (forall wire,
        packAddresses o buf = Returned wire
        <-> (forall address,
                In address (ip_addresses_ o) -> isV6 address = true)
            /\ wire = buf ++ flat_map address_octets (ip_addresses_ o))
  /\ (forall e, packAddresses o buf = Thrown e -> e = BadValue)
  /\ packAddresses o buf <> NoFuel.
Proof.
  unfold packAddresses. rewrite packAddresses_from_spec.
  destruct (forallb isV6 (ip_addresses_ o)) eqn:E.
  - pose proof (proj1 (forallb_forall _ _) E) as Hall.
    split; [|split; [|split]].
    + split; [discriminate|]. intros (a & Hin & Hv).
      rewrite (Hall a Hin) in Hv. discriminate.
    + intros wire. split.
      * intros H. injection H as <-. split; [exact Hall|reflexivity].
      * intros [_ ->]. reflexivity.
    + discriminate.
    + discriminate.
  - assert (exists a, In a (ip_addresses_ o) /\ isV6 a = false)
      as (a & Hin & Hv).
    { clear - E. induction (ip_addresses_ o) as [|a l IH]; [discriminate|].
      cbn in E. destruct (isV6 a) eqn:Ea.
      - destruct (IH E) as (x & Hx & Hv). exists x. split; [right|]; auto.
      - exists a. split; [left; reflexivity|exact Ea]. }
    split; [|split; [|split]].
    + split; [intros _; exists a; auto|reflexivity].
    + intros wire. split; [discriminate|]. intros [Hall _].
      rewrite (Hall a Hin) in Hv. discriminate.
    + intros e H. injection H as <-. reflexivity.
    + discriminate.
Qed.

End AddressField.

(** ** Properties of [unpack] and of the convenient notation *)

Section WholeOption.

Context {library : Library} {base : Base}.

(** X17: binary data shorter than Service Priority and ADN Length is
    refused with [OutOfRange]; and data [unpack] accepts is either in
    ADN-only mode, the ADN ending the data and nothing else of the option
    being touched, or has after the ADN an Addr Length that is a multiple
    of 16, not 0, and within the data. *)
Theorem unpack_accepts (fuel : nat) (data : list byte) (o : Option6Dnr) :
  convenient_notation_ o = false ->
  ((List.length data < 4)%nat -> unpack fuel data o = Thrown OutOfRange)
  /\ (forall o',
        unpack fuel data o = Returned o' ->
        (4 <= List.length data)%nat
        /\ exists o1 begin,
             unpackAdn
               (fst (unpackServicePriority (set_data data o) data 0)) data
               (snd (unpackServicePriority (set_data data o) data 0))
               (N.of_nat (List.length data))
             = Returned (o1, begin)
             /\ (begin = N.of_nat (List.length data) -> o' = o1)
             /\ (begin <> N.of_nat (List.length data) ->
                 let len := readUint16 data begin in
                 len mod 16 = 0 /\ len <> 0
                 /\ begin + 2 + len <= N.of_nat (List.length data))).
Proof.
  intros Hc. unfold unpack. rewrite Hc.
  unfold getMinimalLength, SERVICE_PRIORITY_SIZE, ADN_LENGTH_SIZE.
  destruct (Z.of_N (N.of_nat (List.length data)) - Z.of_N 0
            <? Z.of_N (2 + 2))%Z eqn:E.
  - apply Z.ltb_lt in E. split; [reflexivity|discriminate].
  - apply Z.ltb_ge in E. split; [lia|]. intros o' H. split; [lia|].
    destruct (unpackServicePriority (set_data data o) data 0) as [o0 b0].
    cbn [fst snd].
    destruct (unpackAdn o0 data b0 (N.of_nat (List.length data)))
      as [[o1 b1]| |]; cbn [and_then] in H; try discriminate.
    exists o1, b1. split; [reflexivity|].
    destruct (b1 =? N.of_nat (List.length data)) eqn:Eb.
    + apply N.eqb_eq in Eb. split; [|contradiction].
      intros _. injection H as <-. reflexivity.
    + apply N.eqb_neq in Eb. split; [contradiction|]. intros _.
      set (len := readUint16 data b1).
      destruct (unpackAddresses fuel data b1 (N.of_nat (List.length data))
                  (set_adn_only_mode false o1)) as [r| |] eqn:Eu;
        cbn [and_then] in H; try discriminate.
      pose proof (unpackAddresses_out_of_range fuel data b1
                    (N.of_nat (List.length data))
                    (set_adn_only_mode false o1)) as Hx.
      cbv zeta in Hx. fold len in Hx. rewrite Eu in Hx.
      destruct (N.eq_dec (len mod 16) 0) as [H1|H1];
        [|exfalso; assert (@Returned (Option6Dnr * N) r = Thrown OutOfRange)
            by (apply Hx; auto); discriminate].
      destruct (N.eq_dec len 0) as [H2|H2];
        [exfalso; assert (@Returned (Option6Dnr * N) r = Thrown OutOfRange)
           by (apply Hx; auto); discriminate|].
      destruct (N.lt_ge_cases (N.of_nat (List.length data)) (b1 + 2 + len))
        as [H3|H3];
        [exfalso; assert (@Returned (Option6Dnr * N) r = Thrown OutOfRange)
           by (apply Hx; auto); discriminate|].
      auto.
Qed.

Lemma and_then_thrown {A B} (m : Throws A) (k : A -> Throws B) :
  (forall a b, k a <> Returned b) -> forall b, and_then m k <> Returned b.
Proof. intros H b. destruct m; cbn; [apply H|discriminate|discriminate]. Qed.

(** X18: with four comma separated fields the convenient notation is never
    accepted: whatever the SvcParams are, [parseConfigData] ends in a
    throw. *)
Theorem parseConfigData_four_fields (config_txt : string) (o : Option6Dnr) :
  List.length (tokens config_txt "," true) = 4%nat ->
  forall o', parseConfigData config_txt o <> Returned o'.
Proof.
  intros H4 o'. unfold parseConfigData. rewrite H4. cbn [Nat.ltb Nat.leb Nat.eqb].
  destruct (lexical_cast_uint16 _); [|discriminate].
  destruct (Name_of_string _ _); [|discriminate].
  destruct (adn_length_ _ =? 0); [discriminate|].
  apply and_then_thrown. intros o1 b.
  apply and_then_thrown. intros [o2 t] b'.
  destruct (alpn_http_ o2 && _); [discriminate|].
  apply and_then_thrown. intros; discriminate.
Qed.

Lemma parse_addresses_spec (addresses : list string) :
  forall o o',
    parse_addresses addresses o = Returned o' ->
    exists l,
      o' = set_ip_addresses (ip_addresses_ o ++ l) o
      /\ map Some l
         = map (fun txt_addr => IOAddress_of_string (trim txt_addr))
               addresses.
Proof.
  induction addresses as [|t l IH]; intros o o' H; cbn in H.
  - injection H as <-. exists []. rewrite app_nil_r.
    split; [destruct o|]; reflexivity.
  - destruct (IOAddress_of_string (trim t)) as [a|] eqn:Ea;
      [|discriminate].
    destruct (IH _ _ H) as (l' & -> & Hm). exists (a :: l'). split.
    + cbn. rewrite <- app_assoc. reflexivity.
    + cbn. rewrite Ea, Hm. reflexivity.
Qed.

(** X19: what the convenient notation gives when it is accepted.  There are
    two or three fields; the first is the Service Priority, the second the
    ADN, whose length is not 0.  With two fields the addresses and the
    ADN-only mode are left as they are; with three the option leaves
    ADN-only mode, every address of the third field was parsed and
    appended, of either family, there is at least one, and Addr Length is
    16 times their number, as a [uint16_t].  The SvcParams are never
    touched. *)
Theorem parseConfigData_returns (config_txt : string) (o o' : Option6Dnr) :
  parseConfigData config_txt o = Returned o' ->
  let tokens_ := tokens config_txt "," true in
  (List.length tokens_ = 2%nat \/ List.length tokens_ = 3%nat)
  /\ lexical_cast_uint16 (trim (token tokens_ 0))
     = Some (service_priority_ o')
  /\ (exists adn,
         Name_of_string (trim (token tokens_ 1)) true = Some adn
         /\ adn_ o' = Some adn
         /\ adn_length_ o' = uint16 (Name_getLength adn))
  /\ adn_length_ o' <> 0
  /\ (List.length tokens_ = 2%nat ->
      adn_only_mode_ o' = adn_only_mode_ o
      /\ ip_addresses_ o' = ip_addresses_ o
      /\ addr_length_ o' = addr_length_ o)
  /\ (List.length tokens_ = 3%nat ->
      adn_only_mode_ o' = false
      /\ ip_addresses_ o' <> []
      /\ (exists l,
             ip_addresses_ o' = ip_addresses_ o ++ l
             /\ map Some l
                = map (fun txt_addr => IOAddress_of_string (trim txt_addr))
                      (tokens (trim (token tokens_ 2)) " " false))
      /\ addr_length_ o'
         = uint16 (N.of_nat (List.length (ip_addresses_ o'))
                   * V6ADDRESS_LEN))
  /\ svc_params_map_ o' = svc_params_map_ o
  /\ svc_params_buf_ o' = svc_params_buf_ o
  /\ svc_params_length_ o' = svc_params_length_ o
  /\ alpn_http_ o' = alpn_http_ o.
Proof.
  intros H tokens_. unfold parseConfigData in H. fold tokens_ in H.
  destruct (List.length tokens_ <? 2)%nat eqn:E2; [discriminate|].
  destruct (4 <? List.length tokens_)%nat eqn:E4; [discriminate|].
  apply Nat.ltb_ge in E2, E4.
  destruct (lexical_cast_uint16 _) as [prio|] eqn:Ep; [|discriminate].
  destruct (Name_of_string _ _) as [adn|] eqn:En; [|discriminate].
  cbn [adn_length_ set_adn_length] in H.
  destruct (uint16 (Name_getLength adn) =? 0) eqn:Ez; [discriminate|].
  apply N.eqb_neq in Ez.
  destruct (List.length tokens_ =? 4)%nat eqn:Eq4.
  { apply Nat.eqb_eq in Eq4.
    exfalso. revert H. fold tokens_.
    match goal with |- and_then ?m ?k = _ -> _ =>
      apply (and_then_thrown m k) end.
    intros o1 b. apply and_then_thrown. intros [o2 t] b'.
    destruct (alpn_http_ o2 && _); [discriminate|].
    apply and_then_thrown. intros; discriminate. }
  apply Nat.eqb_neq in Eq4.
  destruct (2 <? List.length tokens_)%nat eqn:E3.
  - apply Nat.ltb_lt in E3.
    assert (List.length tokens_ = 3%nat) as H3 by lia.
    cbn [and_then] in H.
    destruct (parse_addresses _ _) as [o1| |] eqn:Ea; cbn [and_then] in H;
      try discriminate.
    destruct (parse_addresses_spec _ _ _ Ea) as (l & -> & Hm).
    cbn [ip_addresses_ set_ip_addresses] in H.
    destruct (ip_addresses_ _ ++ l) as [|a l'] eqn:El; cbn [and_then] in H;
      [discriminate|].
    injection H as <-. cbn.
    split; [right; exact H3|]. split; [reflexivity|].
    split; [exists adn; auto|]. split; [exact Ez|].
    split; [intros; lia|]. split; [|auto].
    intros _. split; [reflexivity|]. split; [discriminate|].
    split; [|reflexivity].
    exists l. split; [symmetry; exact El|exact Hm].
  - apply Nat.ltb_ge in E3.
    assert (List.length tokens_ = 2%nat) as H2 by lia.
    cbn [and_then] in H. injection H as <-. cbn.
    split; [left; exact H2|]. split; [reflexivity|].
    split; [exists adn; auto|]. split; [exact Ez|].
    split; [auto|]. split; [intros; lia|auto].
Qed.


(** X20: the convenient notation does not look at the family of an address,
    [pack] does.  When the third field holds an address that is not an
    IPv6 address, [parseConfigData] accepts the text; [packAddresses] of
    the option it built throws [BadValue], and [pack] never returns. *)
Theorem convenient_ipv4_is_not_packed (config_txt : string)
    (o o' : Option6Dnr) (txt_addr : string) (address : IOAddress) :
  parseConfigData config_txt o = Returned o' ->
  let tokens_ := tokens config_txt "," true in
  List.length tokens_ = 3%nat ->
  In txt_addr (tokens (trim (token tokens_ 2)) " " false) ->
  IOAddress_of_string (trim txt_addr) = Some address ->
  isV6 address = false ->
  In address (ip_addresses_ o')
  /\ adn_only_mode_ o' = false
  /\ (forall buf, packAddresses o' buf = Thrown BadValue)
  /\ (forall buf check wire, pack o' buf check <> Returned wire).
Proof.
  intros H tokens_ H3 Hin Ha Hv.
  assert (adn_only_mode_ o' = false
          /\ exists l,
               ip_addresses_ o' = ip_addresses_ o ++ l
               /\ map Some l
                  = map (fun t => IOAddress_of_string (trim t))
                        (tokens (trim (token tokens_ 2)) " " false))
    as (Hm & l & Hl & Hmap).
  { unfold parseConfigData in H. fold tokens_ in H. rewrite H3 in H.
    cbn [Nat.ltb Nat.leb Nat.eqb] in H.
    destruct (lexical_cast_uint16 _); [|discriminate].
    destruct (Name_of_string _ _); [|discriminate].
    destruct (adn_length_ _ =? 0); [discriminate|].
    cbn [and_then] in H.
    destruct (parse_addresses _ _) as [o1| |] eqn:Ea; cbn [and_then] in H;
      try discriminate.
    destruct (parse_addresses_spec _ _ _ Ea) as (l & -> & Hmap).
    cbn [ip_addresses_ set_ip_addresses] in H.
    destruct (ip_addresses_ _ ++ l) as [|a l'] eqn:El; cbn [and_then] in H;
      [discriminate|].
    injection H as <-. cbn. split; [reflexivity|].
    exists l. split; [symmetry; exact El|exact Hmap]. }
  assert (In address l) as Hal.
  { assert (In (Some address) (map Some l)) as Hs.
    { rewrite Hmap, <- Ha.
      apply (in_map (fun t => IOAddress_of_string (trim t))). exact Hin. }
    apply in_map_iff in Hs as (a & Ea & Hi). injection Ea as ->. exact Hi. }
  assert (In address (ip_addresses_ o')) as Hio
    by (rewrite Hl; apply in_or_app; right; exact Hal).
  assert (forallb isV6 (ip_addresses_ o') = false) as Hf.
  { destruct (forallb isV6 (ip_addresses_ o')) eqn:E; [|reflexivity].
    rewrite forallb_forall in E. rewrite (E address Hio) in Hv.
    discriminate. }
  assert (forall buf, packAddresses o' buf = Thrown BadValue) as Hp.
  { intros buf. unfold packAddresses.
    rewrite packAddresses_from_spec, Hf. reflexivity. }
  split; [exact Hio|]. split; [exact Hm|]. split; [exact Hp|].
  intros buf check wire. unfold pack.
  apply and_then_thrown. intros b1 w1.
  apply and_then_thrown. intros b2 w2. rewrite Hm, Hp. discriminate.
Qed.

End WholeOption.

(** ** An instance, and the properties on it *)

Module Example.

Import Ascii.

(** An address: whether it is an IPv6 address, and its octets. *)
Definition Address : Type := bool * list byte.

Fixpoint split_on (sep : ascii) (s : string) : list string :=
  match s with
  | EmptyString => [EmptyString]
  | String c rest =>
      if Ascii.eqb c sep then EmptyString :: split_on sep rest
      else
        match split_on sep rest with
        | [] => [String c EmptyString]
        | t :: ts => String c t :: ts
        end
  end.

(** The fields between the separators, the empty ones left out; escaping
    is not handled. *)
Definition split (text delim : string) (escape : bool) : list string :=
  match delim with
  | String sep _ =>
      filter (fun t => negb (t =? "")%string) (split_on sep text)
  | EmptyString => [text]
  end.

Fixpoint ltrim (s : string) : string :=
  match s with
  | String c rest => if Ascii.eqb c " " then ltrim rest else s
  | EmptyString => EmptyString
  end.

Fixpoint rtrim (s : string) : string :=
  match s with
  | String c rest =>
      match rtrim rest with
      | EmptyString =>
          if Ascii.eqb c " " then EmptyString else String c EmptyString
      | String _ _ as rest => String c rest
      end
  | EmptyString => EmptyString
  end.

Fixpoint decimal (s : string) (acc : N) : option N :=
  match s with
  | EmptyString => Some acc
  | String c rest =>
      let d := N_of_ascii c in
      if (48 <=? d) && (d <=? 57) then decimal rest (10 * acc + (d - 48))
      else None
  end.

Definition to_uint16 (s : string) : option N :=
  if (s =? "")%string then None
  else
    match decimal s 0 with
    | Some n => if n <? 2 ^ 16 then Some n else None
    | None => None
    end.

Definition resolver6 : Address :=
  (true, [x20; x01; x0d; xb8; x00; x00; x00; x00;
          x00; x00; x00; x00; x00; x00; x00; x01]).

Definition resolver4 : Address := (false, [xc0; x00; x02; x01]).

Definition address_of_string (s : string) : option Address :=
  if (s =? "2001:db8::1")%string then Some resolver6
  else if (s =? "192.0.2.1")%string then Some resolver4
  else None.

Definition address_of_bytes (family : N) (data : list byte)
  : option Address :=
  if family =? AF_INET6 then Some (true, firstn 16 data)
  else if family =? AF_INET then Some (false, firstn 4 data)
  else None.

Definition pack_tuple (t : OpaqueDataTuple) (buf : list byte)
  : Throws (list byte) :=
  match tuple_data t with
  | [] => Thrown OpaqueDataTupleError
  | _ :: _ =>
      let n := N.of_nat (List.length (tuple_data t)) in
      match length_field_type t with
      | LENGTH_1_BYTE => Returned (buf ++ octet n :: tuple_data t)
      | LENGTH_2_BYTES => Returned (writeUint16 n buf ++ tuple_data t)
      end
  end.

#[export] Instance library : Library :=
  {| IOAddress := Address;
     isV6 := fst;
     toBytes := snd;
     fromBytes := address_of_bytes;
     IOAddress_of_string := address_of_string;
     DnsName := string;
     Name_of_string :=
       fun s _ => if (s =? "")%string then None else Some s;
     Name_getLength := fun s => N.of_nat (String.length s) + 1;
     tokens := split;
     trim := fun s => rtrim (ltrim s);
     lexical_cast_uint16 := to_uint16;
     encodeUtf8 := list_byte_of_string;
     FORBIDDEN_SVC_PARAMS := ["ipv4hint"; "ipv6hint"];
     SVC_PARAMS :=
       [("mandatory", 0); ("alpn", 1); ("no-default-alpn", 2); ("port", 3);
        ("ipv4hint", 4); ("ech", 5); ("ipv6hint", 6); ("dohpath", 7)];
     SUPPORTED_SVC_PARAMS := [1; 3; 7];
     ALPN_IDS := ["http/1.1"; "h2"; "h3"; "dot"; "doq"];
     tuple_pack := pack_tuple |}.

(** The ADN as a tuple with a length of two octets. *)
#[export] Instance base : Base :=
  {| packHeader :=
       fun o buf check => Returned (writeUint16 0 (writeUint16 144 buf));
     packAdn :=
       fun o buf =>
         match adn_ o with
         | Some adn => Returned (buf ++ list_byte_of_string adn)
         | None => Thrown InvalidOptionDnrDomainName
         end;
     packSvcParams := fun o buf => Returned (buf ++ svc_params_buf_ o);
     unpackServicePriority :=
       fun o data begin =>
         (set_service_priority (readUint16 data begin) o, begin + 2);
     unpackAdn :=
       fun o data begin end_ =>
         let n := readUint16 data begin in
         if end_ <? begin + 2 + n then Thrown OutOfRange
         else
           Returned
             (set_adn
                (Some (string_of_list_byte
                         (firstn (N.to_nat n)
                                 (skipn (N.to_nat (begin + 2)) data))))
                (set_adn_length n o),
              begin + 2 + n);
     unpackSvcParams :=
       fun o data begin end_ =>
         Returned (set_svc_params_buf (skipn (N.to_nat begin) data) o) |}.

(** What the constructors of the base classes leave. *)
Definition blank : Option6Dnr :=
  mkOption6Dnr false [] 0 0 None true 0 [] 0 [] [] false.

(** Addr Length 16 and one address. *)
Definition one_address : list byte :=
  [x00; x10; x20; x01; x0d; xb8; x00; x00; x00; x00;
   x00; x00; x00; x00; x00; x00; x00; x01].

Definition with_resolver : Option6Dnr :=
  set_ip_addresses [resolver6] (set_addr_length 16 blank).

Definition adn_and_addresses : string :=
  "100, dot1.example.org., 2001:db8::1 192.0.2.1".

Definition all_fields : string :=
  "100, dot1.example.org., 2001:db8::1, alpn=dot port=8530".

Definition parsed : Option6Dnr :=
  match parseConfigData adn_and_addresses blank with
  | Returned o => o
  | _ => blank
  end.

End Example.
Import Example.

Definition is_returned {A} (r : Throws A) : bool :=
  match r with
  | Returned _ => true
  | _ => false
  end.

Lemma returned_eq {A} (r : Throws A) (d : A) :
  is_returned r = true ->
  r = Returned match r with
               | Returned a => a
               | _ => d
               end.
Proof. destruct r; [reflexivity|discriminate|discriminate]. Qed.

Lemma unpackAddresses_returns_witness :
  readUint16 one_address 0 = 16
  /\ unpackAddresses 2 one_address 0 18 blank
     = Returned (with_resolver, 18).
Proof.
  split; [reflexivity|].
  assert (0 + 2 + readUint16 one_address 0 <= 18) as H1
    by (vm_compute; discriminate).
  assert (readUint16 one_address 0 mod 16 = 0) as H2 by reflexivity.
  assert (readUint16 one_address 0 <> 0) as H3 by discriminate.
  assert (readUint16 one_address 0 / 16 < N.of_nat 2) as H4 by reflexivity.
  exact (@unpackAddresses_returns library 2 one_address 0 18 blank
           H1 H2 H3 H4).
Defined.

Lemma addresses_round_trip_witness :
  Forall codec_ok (ip_addresses_ with_resolver)
  /\ exists wire,
       packAddresses with_resolver
         (writeUint16 (addr_length_ with_resolver) [xff]) = Returned wire
       /\ List.length wire = 19%nat
       /\ unpackAddresses 2 (wire ++ [xee]) 1 19 blank
          = Returned (with_resolver, 19).
Proof.
  assert (Forall codec_ok (ip_addresses_ with_resolver)) as H1.
  { constructor; [|constructor]. split; [reflexivity|].
    split; [cbn; lia|]. intros rest. reflexivity. }
  assert (ip_addresses_ with_resolver <> []) as H2 by discriminate.
  assert (addr_length_ with_resolver
          = V6ADDRESS_LEN
            * N.of_nat (List.length (ip_addresses_ with_resolver)))
    as H3 by reflexivity.
  assert (addr_length_ with_resolver < 2 ^ 16) as H4 by reflexivity.
  assert (List.length (ip_addresses_ with_resolver) < 2)%nat as H5
    by (cbn; lia).
  destruct (@addresses_round_trip library 2 with_resolver blank [xff] [xee]
              H1 H2 H3 H4 H5) as (wire & E1 & E2 & E3).
  split; [exact H1|]. exists wire. split; [exact E1|].
  split; [exact E2|]. rewrite E2 in E3. exact E3.
Defined.

Lemma unpack_accepts_witness :
  convenient_notation_ blank = false
  /\ unpack 1 [x00; x01] blank = Thrown OutOfRange.
Proof.
  assert (convenient_notation_ blank = false) as H by reflexivity.
  destruct (@unpack_accepts library base 1 [x00; x01] blank H) as [H1 _].
  split; [exact H|]. apply H1. cbn. lia.
Defined.

Lemma parseConfigData_four_fields_witness :
  List.length (tokens all_fields "," true) = 4%nat
  /\ parseConfigData all_fields blank <> Returned blank.
Proof.
  assert (List.length (tokens all_fields "," true) = 4%nat) as H
    by (vm_compute; reflexivity).
  split; [exact H|].
  exact (@parseConfigData_four_fields library all_fields blank H blank).
Defined.

Lemma parseConfigData_returns_witness :
  parseConfigData adn_and_addresses blank = Returned parsed
  /\ List.length (tokens adn_and_addresses "," true) = 3%nat
  /\ adn_only_mode_ parsed = false
  /\ ip_addresses_ parsed <> []
  /\ addr_length_ parsed
     = uint16 (N.of_nat (List.length (ip_addresses_ parsed))
               * V6ADDRESS_LEN).
Proof.
  assert (parseConfigData adn_and_addresses blank = Returned parsed) as E
    by (apply returned_eq; vm_compute; reflexivity).
  assert (List.length (tokens adn_and_addresses "," true) = 3%nat) as H3
    by (vm_compute; reflexivity).
  destruct (@parseConfigData_returns library adn_and_addresses blank parsed E)
    as (_ & _ & _ & _ & _ & H & _).
  destruct (H H3) as (A & B & _ & D).
  split; [exact E|]. split; [exact H3|]. split; [exact A|].
  split; [exact B|exact D].
Defined.

Lemma convenient_ipv4_is_not_packed_witness :
  parseConfigData adn_and_addresses blank = Returned parsed
  /\ In "192.0.2.1"
        (tokens (trim (token (tokens adn_and_addresses "," true) 2)) " "
                false)
  /\ isV6 resolver4 = false
  /\ In resolver4 (ip_addresses_ parsed)
  /\ packAddresses parsed [] = Thrown BadValue.
Proof.
  assert (parseConfigData adn_and_addresses blank = Returned parsed) as E
    by (apply returned_eq; vm_compute; reflexivity).
  assert (List.length (tokens adn_and_addresses "," true) = 3%nat) as H3
    by (vm_compute; reflexivity).
  assert (In "192.0.2.1"
             (tokens (trim (token (tokens adn_and_addresses "," true) 2)) " "
                     false)) as Hin.
  { replace (tokens (trim (token (tokens adn_and_addresses "," true) 2)) " "
                    false)
      with ["2001:db8::1"; "192.0.2.1"] by (vm_compute; reflexivity).
    right. left. reflexivity. }
  assert (IOAddress_of_string (trim "192.0.2.1") = Some resolver4) as Ha
    by reflexivity.
  assert (isV6 resolver4 = false) as Hv by reflexivity.
  destruct (@convenient_ipv4_is_not_packed library base adn_and_addresses
              blank parsed "192.0.2.1" resolver4 E H3 Hin Ha Hv)
    as (A & _ & B & _).
  split; [exact E|]. split; [exact Hin|]. split; [exact Hv|].
  split; [exact A|apply B].
Defined.
End Dnr.
